(** * VeinMiner: the vein discovery and processing engine

    A shallow embedding of [endstone_vein_miner/vein_miner_plugin.py]
    (class [VeinMinerPlugin]), of the statistics of
    [endstone_vein_miner/statistics_tracker.py] and of the command of
    [endstone_vein_miner/vein_miner_command.py], together with the
    properties stated for them.

    Conventions of the embedding:
    - Python [int] is [Z]; a [Dict[str, int]] is a [gmap string Z]; a
      [Set[str]] is a [gset string]; tuples of coordinates are [Z * Z * Z].
    - A method that mutates [self] takes the plugin state and returns the
      new one; the wall clock, the random source and the answers of the host
      are explicit inputs.
    - A host call that can raise is an input of sum or option type. Where a
      model takes a host call not to raise, its comment says so. *)

From Stdlib Require Import ZArith QArith Lia Ascii String.
From stdpp Require Import base gmap sets list strings.

#[local] Set Warnings "-clear-no-such-hyp".

Local Open Scope Z_scope.

(** ** Configuration (the attributes set by [__init__] and [load_config]) *)

(** Numbers that Python holds as floats ([1.0], [0.5]) are rationals here. *)
Record Config := {
  max_blocks : Z;
  min_vein_size : Z;
  cooldown_ms : Z;
  activation_mode : string;
  per_block_permissions : bool;
  require_correct_tool : bool;
  max_reach_distance : Z;
  auto_smelt_enabled : bool;
  auto_smelt_require_fortune : bool;
  auto_smelt_whitelist : list string;
  auto_smelt_give_xp : bool;
  auto_smelt_xp_multiplier : Q;
  durability_multiplier : Q;
  respect_unbreaking : bool;
  break_on_exceed : bool;
  mining_pattern : string;
  pattern_radius : Z;
  include_diagonals : bool;
  vertical_range : Z;
  horizontal_range : Z;
  enable_limits : bool;
  max_veins_per_day : Z;
  max_blocks_per_day : Z;
  max_veins_per_minute : Z;
  temporary_block_duration : Z;
  disabled_worlds : list string;
  vein_blocks : list string;
  has_stats_tracker : bool
}.

(** The block ids [load_vein_blocks] collects when every category and every
    block is enabled. *)
Definition all_vein_blocks : list string :=
  [ "minecraft:coal_ore"; "minecraft:iron_ore"; "minecraft:gold_ore";
    "minecraft:diamond_ore"; "minecraft:emerald_ore"; "minecraft:lapis_ore";
    "minecraft:copper_ore"; "minecraft:deepslate_coal_ore";
    "minecraft:deepslate_iron_ore"; "minecraft:deepslate_gold_ore";
    "minecraft:deepslate_diamond_ore"; "minecraft:deepslate_emerald_ore";
    "minecraft:deepslate_lapis_ore"; "minecraft:deepslate_copper_ore";
    "minecraft:quartz_ore"; "minecraft:nether_quartz_ore";
    "minecraft:nether_gold_ore";
    "minecraft:redstone_ore"; "minecraft:lit_redstone_ore";
    "minecraft:deepslate_redstone_ore"; "minecraft:lit_deepslate_redstone_ore";
    "minecraft:ancient_debris";
    "minecraft:amethyst_cluster"; "minecraft:large_amethyst_bud";
    "minecraft:medium_amethyst_bud"; "minecraft:small_amethyst_bud";
    "minecraft:oak_log"; "minecraft:spruce_log"; "minecraft:birch_log";
    "minecraft:jungle_log"; "minecraft:acacia_log"; "minecraft:dark_oak_log";
    "minecraft:mangrove_log"; "minecraft:cherry_log";
    "minecraft:crimson_stem"; "minecraft:warped_stem";
    "minecraft:oak_leaves"; "minecraft:spruce_leaves"; "minecraft:birch_leaves";
    "minecraft:jungle_leaves"; "minecraft:acacia_leaves";
    "minecraft:dark_oak_leaves"; "minecraft:mangrove_leaves";
    "minecraft:cherry_leaves" ].

(** The values of [__init__] (which are also the defaults of [load_config]). *)
Definition default_config : Config := {|
  max_blocks := 64;
  min_vein_size := 2;
  cooldown_ms := 100;
  activation_mode := "sneak";
  per_block_permissions := false;
  require_correct_tool := true;
  max_reach_distance := 100;
  auto_smelt_enabled := false;
  auto_smelt_require_fortune := false;
  auto_smelt_whitelist := [];
  auto_smelt_give_xp := true;
  auto_smelt_xp_multiplier := (1 # 2)%Q;
  durability_multiplier := 1%Q;
  respect_unbreaking := true;
  break_on_exceed := true;
  mining_pattern := "adjacent";
  pattern_radius := 1;
  include_diagonals := true;
  vertical_range := 4;
  horizontal_range := 4;
  enable_limits := false;
  max_veins_per_day := 1000;
  max_blocks_per_day := 10000;
  max_veins_per_minute := 60;
  temporary_block_duration := 5;
  disabled_worlds := [];
  vein_blocks := all_vein_blocks;
  has_stats_tracker := true
|}.

(** A configuration with another [mining-pattern] section. *)
Definition with_pattern (c : Config) (pattern : string) (radius : Z) (diagonals : bool) (vrange : Z) (hrange : Z) : Config := {|
  max_blocks := max_blocks c;
  min_vein_size := min_vein_size c;
  cooldown_ms := cooldown_ms c;
  activation_mode := activation_mode c;
  per_block_permissions := per_block_permissions c;
  require_correct_tool := require_correct_tool c;
  max_reach_distance := max_reach_distance c;
  auto_smelt_enabled := auto_smelt_enabled c;
  auto_smelt_require_fortune := auto_smelt_require_fortune c;
  auto_smelt_whitelist := auto_smelt_whitelist c;
  auto_smelt_give_xp := auto_smelt_give_xp c;
  auto_smelt_xp_multiplier := auto_smelt_xp_multiplier c;
  durability_multiplier := durability_multiplier c;
  respect_unbreaking := respect_unbreaking c;
  break_on_exceed := break_on_exceed c;
  mining_pattern := pattern;
  pattern_radius := radius;
  include_diagonals := diagonals;
  vertical_range := vrange;
  horizontal_range := hrange;
  enable_limits := enable_limits c;
  max_veins_per_day := max_veins_per_day c;
  max_blocks_per_day := max_blocks_per_day c;
  max_veins_per_minute := max_veins_per_minute c;
  temporary_block_duration := temporary_block_duration c;
  disabled_worlds := disabled_worlds c;
  vein_blocks := vein_blocks c;
  has_stats_tracker := has_stats_tracker c
|}.

(** A configuration with other size and reach limits. *)
Definition with_limits (c : Config) (max_size : Z) (min_size : Z) (reach : Z) : Config := {|
  max_blocks := max_size;
  min_vein_size := min_size;
  cooldown_ms := cooldown_ms c;
  activation_mode := activation_mode c;
  per_block_permissions := per_block_permissions c;
  require_correct_tool := require_correct_tool c;
  max_reach_distance := reach;
  auto_smelt_enabled := auto_smelt_enabled c;
  auto_smelt_require_fortune := auto_smelt_require_fortune c;
  auto_smelt_whitelist := auto_smelt_whitelist c;
  auto_smelt_give_xp := auto_smelt_give_xp c;
  auto_smelt_xp_multiplier := auto_smelt_xp_multiplier c;
  durability_multiplier := durability_multiplier c;
  respect_unbreaking := respect_unbreaking c;
  break_on_exceed := break_on_exceed c;
  mining_pattern := mining_pattern c;
  pattern_radius := pattern_radius c;
  include_diagonals := include_diagonals c;
  vertical_range := vertical_range c;
  horizontal_range := horizontal_range c;
  enable_limits := enable_limits c;
  max_veins_per_day := max_veins_per_day c;
  max_blocks_per_day := max_blocks_per_day c;
  max_veins_per_minute := max_veins_per_minute c;
  temporary_block_duration := temporary_block_duration c;
  disabled_worlds := disabled_worlds c;
  vein_blocks := vein_blocks c;
  has_stats_tracker := has_stats_tracker c
|}.

(** A configuration with another [anti-abuse] section and cooldown. *)
Definition with_anti_abuse (c : Config) (per_minute : Z) (block_minutes : Z) (cooldown : Z) : Config := {|
  max_blocks := max_blocks c;
  min_vein_size := min_vein_size c;
  cooldown_ms := cooldown;
  activation_mode := activation_mode c;
  per_block_permissions := per_block_permissions c;
  require_correct_tool := require_correct_tool c;
  max_reach_distance := max_reach_distance c;
  auto_smelt_enabled := auto_smelt_enabled c;
  auto_smelt_require_fortune := auto_smelt_require_fortune c;
  auto_smelt_whitelist := auto_smelt_whitelist c;
  auto_smelt_give_xp := auto_smelt_give_xp c;
  auto_smelt_xp_multiplier := auto_smelt_xp_multiplier c;
  durability_multiplier := durability_multiplier c;
  respect_unbreaking := respect_unbreaking c;
  break_on_exceed := break_on_exceed c;
  mining_pattern := mining_pattern c;
  pattern_radius := pattern_radius c;
  include_diagonals := include_diagonals c;
  vertical_range := vertical_range c;
  horizontal_range := horizontal_range c;
  enable_limits := enable_limits c;
  max_veins_per_day := max_veins_per_day c;
  max_blocks_per_day := max_blocks_per_day c;
  max_veins_per_minute := per_minute;
  temporary_block_duration := block_minutes;
  disabled_worlds := disabled_worlds c;
  vein_blocks := vein_blocks c;
  has_stats_tracker := has_stats_tracker c
|}.

(** A configuration with another [limits] section. *)
Definition with_daily_limits (c : Config) (enabled : bool) (veins : Z) (blocks : Z) : Config := {|
  max_blocks := max_blocks c;
  min_vein_size := min_vein_size c;
  cooldown_ms := cooldown_ms c;
  activation_mode := activation_mode c;
  per_block_permissions := per_block_permissions c;
  require_correct_tool := require_correct_tool c;
  max_reach_distance := max_reach_distance c;
  auto_smelt_enabled := auto_smelt_enabled c;
  auto_smelt_require_fortune := auto_smelt_require_fortune c;
  auto_smelt_whitelist := auto_smelt_whitelist c;
  auto_smelt_give_xp := auto_smelt_give_xp c;
  auto_smelt_xp_multiplier := auto_smelt_xp_multiplier c;
  durability_multiplier := durability_multiplier c;
  respect_unbreaking := respect_unbreaking c;
  break_on_exceed := break_on_exceed c;
  mining_pattern := mining_pattern c;
  pattern_radius := pattern_radius c;
  include_diagonals := include_diagonals c;
  vertical_range := vertical_range c;
  horizontal_range := horizontal_range c;
  enable_limits := enabled;
  max_veins_per_day := veins;
  max_blocks_per_day := blocks;
  max_veins_per_minute := max_veins_per_minute c;
  temporary_block_duration := temporary_block_duration c;
  disabled_worlds := disabled_worlds c;
  vein_blocks := vein_blocks c;
  has_stats_tracker := has_stats_tracker c
|}.

(** A configuration with another [tool-durability] section. *)
Definition with_durability (c : Config) (multiplier : Q) (unbreaking : bool) (break_tool : bool) : Config := {|
  max_blocks := max_blocks c;
  min_vein_size := min_vein_size c;
  cooldown_ms := cooldown_ms c;
  activation_mode := activation_mode c;
  per_block_permissions := per_block_permissions c;
  require_correct_tool := require_correct_tool c;
  max_reach_distance := max_reach_distance c;
  auto_smelt_enabled := auto_smelt_enabled c;
  auto_smelt_require_fortune := auto_smelt_require_fortune c;
  auto_smelt_whitelist := auto_smelt_whitelist c;
  auto_smelt_give_xp := auto_smelt_give_xp c;
  auto_smelt_xp_multiplier := auto_smelt_xp_multiplier c;
  durability_multiplier := multiplier;
  respect_unbreaking := unbreaking;
  break_on_exceed := break_tool;
  mining_pattern := mining_pattern c;
  pattern_radius := pattern_radius c;
  include_diagonals := include_diagonals c;
  vertical_range := vertical_range c;
  horizontal_range := horizontal_range c;
  enable_limits := enable_limits c;
  max_veins_per_day := max_veins_per_day c;
  max_blocks_per_day := max_blocks_per_day c;
  max_veins_per_minute := max_veins_per_minute c;
  temporary_block_duration := temporary_block_duration c;
  disabled_worlds := disabled_worlds c;
  vein_blocks := vein_blocks c;
  has_stats_tracker := has_stats_tracker c
|}.

(** Class constants. *)
Definition DEFAULT_MAX_BLOCKS : Z := 64.
Definition UNLIMITED_MAX_BLOCKS : Z := 4096.
Definition NEIGHBOR_RANGE : Z := 1.
Definition MIN_WORLD_HEIGHT : Z := -64.
Definition MAX_WORLD_HEIGHT : Z := 320.

(** ** Neighbor Pattern Builder *)

Module Neighbors.

(** Python's [range(lo, hi)]. *)
Definition py_range (lo hi : Z) : list Z := seqZ lo (hi - lo).

(** The three nested [for] loops over [range(-r, r + 1)], keeping the
    offsets for which [keep] holds, in the order the loops append them. *)
Definition cube_loop (r : Z) (keep : Z → Z → Z → bool) : list (Z * Z * Z) :=
  dx ← py_range (- r) (r + 1);
  dy ← py_range (- r) (r + 1);
  dz ← py_range (- r) (r + 1);
  if keep dx dy dz then [(dx, dy, dz)] else [].

Definition is_origin (dx dy dz : Z) : bool :=
  bool_decide (dx = 0) && bool_decide (dy = 0) && bool_decide (dz = 0).

(** The list [offsets] as it stands just before the safety cap. *)
Definition uncapped_offsets (c : Config) : list (Z * Z * Z) :=
  if String.eqb (mining_pattern c) "vertical" then
    dy ← py_range (- vertical_range c) (vertical_range c + 1);
    if bool_decide (dy ≠ 0) then [(0, dy, 0)] else []
  else if String.eqb (mining_pattern c) "horizontal" then
    dx ← py_range (- horizontal_range c) (horizontal_range c + 1);
    dz ← py_range (- horizontal_range c) (horizontal_range c + 1);
    if bool_decide (dx = 0) && bool_decide (dz = 0) then []
    else if negb (include_diagonals c)
            && bool_decide (Z.abs dx + Z.abs dz ≠ 1) then []
    else [(dx, 0, dz)]
  else if String.eqb (mining_pattern c) "cube" then
    cube_loop (pattern_radius c) (λ dx dy dz, negb (is_origin dx dy dz))
  else if String.eqb (mining_pattern c) "sphere" then
    let radius := pattern_radius c in
    let radius_sq := radius * radius in
    cube_loop radius (λ dx dy dz,
      negb (is_origin dx dy dz)
      && bool_decide (dx * dx + dy * dy + dz * dz ≤ radius_sq))
  else
    cube_loop NEIGHBOR_RANGE (λ dx dy dz,
      negb (is_origin dx dy dz)
      && negb (negb (include_diagonals c)
               && bool_decide (Z.abs dx + Z.abs dy + Z.abs dz ≠ 1))).

(** [build_neighbor_offsets]: the pattern's offsets, cut to 512 entries. *)
Definition build_neighbor_offsets (c : Config) : list (Z * Z * Z) :=
  let offsets := uncapped_offsets c in
  if bool_decide (512 < length offsets)%nat then take 512 offsets else offsets.

(** The values [load_config] lets through. *)
Definition valid_pattern_config (c : Config) : Prop :=
  mining_pattern c ∈ ["adjacent"; "cube"; "sphere"; "vertical"; "horizontal"]
  ∧ 1 ≤ pattern_radius c ≤ 6
  ∧ 1 ≤ vertical_range c ≤ 16
  ∧ 1 ≤ horizontal_range c ≤ 16.

(** The rule of each pattern as the specification words it. *)
Definition in_box (r : Z) (o : Z * Z * Z) : Prop :=
  let '(dx, dy, dz) := o in - r ≤ dx ≤ r ∧ - r ≤ dy ≤ r ∧ - r ≤ dz ≤ r.

Definition manhattan (o : Z * Z * Z) : Z :=
  let '(dx, dy, dz) := o in Z.abs dx + Z.abs dy + Z.abs dz.

Definition norm_sq (o : Z * Z * Z) : Z :=
  let '(dx, dy, dz) := o in dx * dx + dy * dy + dz * dz.

Definition pattern_rule (c : Config) (o : Z * Z * Z) : Prop :=
  o ≠ (0, 0, 0) ∧
  if String.eqb (mining_pattern c) "vertical" then
    o.1.1 = 0 ∧ o.2 = 0 ∧ - vertical_range c ≤ o.1.2 ≤ vertical_range c
  else if String.eqb (mining_pattern c) "horizontal" then
    o.1.2 = 0 ∧ in_box (horizontal_range c) o
    ∧ (include_diagonals c = false → manhattan o = 1)
  else if String.eqb (mining_pattern c) "cube" then
    in_box (pattern_radius c) o
  else if String.eqb (mining_pattern c) "sphere" then
    in_box (pattern_radius c) o
    ∧ norm_sq o ≤ pattern_radius c * pattern_radius c
  else
    in_box 1 o ∧ (include_diagonals c = false → manhattan o = 1).

(** The configurations whose pattern has at most 512 offsets. *)
Definition fits_cap (c : Config) : Prop :=
  if String.eqb (mining_pattern c) "horizontal" then
    include_diagonals c = false ∨ horizontal_range c ≤ 10
  else if String.eqb (mining_pattern c) "cube" then pattern_radius c ≤ 3
  else if String.eqb (mining_pattern c) "sphere" then pattern_radius c ≤ 4
  else True.

#[global] Instance fits_cap_dec c : Decision (fits_cap c).
Proof. unfold fits_cap. repeat case_match; apply _. Defined.

(** The sphere of radius 5, the smallest sphere the cap cuts. *)
Definition sphere5 : Config := with_pattern default_config "sphere" 5 true 4 4.

End Neighbors.

(** ** Vein Discovery (flood fill) *)

Module Discovery.

(** A block of the host: its type id and its integer coordinates. *)
Record Block := { block_type : string; block_pos : Z * Z * Z }.

(** [dimension.get_block_at(x, y, z)] and the [.type] of what it returns;
    [None] when the host raises or hands back nothing. *)
Definition Dimension : Type := Z * Z * Z → option string.

Definition shift (p d : Z * Z * Z) : Z * Z * Z :=
  (p.1.1 + d.1.1, p.1.2 + d.1.2, p.2 + d.2).

(** [dx*dx + dy*dy + dz*dz] for [(dx, dy, dz) = p - start]. *)
Definition dist_sq (start p : Z * Z * Z) : Z :=
  let dx := p.1.1 - start.1.1 in
  let dy := p.1.2 - start.1.2 in
  let dz := p.2 - start.2 in
  dx * dx + dy * dy + dz * dz.

Definition outside_world_height (p : Z * Z * Z) : bool :=
  bool_decide (p.1.2 < MIN_WORLD_HEIGHT) || bool_decide (p.1.2 > MAX_WORLD_HEIGHT).

(** The local variables of the [while] loop. The vein is kept as the list of
    the blocks added, in the order [vein.add] was called. *)
Record Search := {
  queue : list (Z * Z * Z);
  visited : gset (Z * Z * Z);
  vein : list Block;
  iterations : Z
}.

(** One round of [for dx, dy, dz in neighbors]. *)
Definition visit_neighbor (dim : Dimension) (type : string) (cur : Z * Z * Z)
    (acc : gset (Z * Z * Z) * list (Z * Z * Z)) (d : Z * Z * Z)
    : gset (Z * Z * Z) * list (Z * Z * Z) :=
  let pos := shift cur d in
  if outside_world_height pos then acc
  else if bool_decide (pos ∈ acc.1) then acc
  else
    let visited' := {[pos]} ∪ acc.1 in
    match dim pos with
    | Some t => if String.eqb t type then (visited', acc.2 ++ [pos])
                else (visited', acc.2)
    | None => (visited', acc.2)
    end.

Definition max_iterations (c : Config) : Z := Z.max 100 (max_blocks c * 10).

(** The [while queue and len(vein) < self.max_blocks] loop. Every round
    adds one to [iterations] and the loop breaks once that exceeds
    [max_iterations], so [fuel] only has to be larger than that. *)
Fixpoint search_loop (c : Config) (neighbors : list (Z * Z * Z))
    (dim : Dimension) (start : Block) (fuel : nat) (s : Search)
    : option (list Block) :=
  match fuel with
  | O => None
  | S fuel =>
    match queue s with
    | [] => Some (vein s)
    | cur :: rest =>
      if negb (bool_decide (Z.of_nat (length (vein s)) < max_blocks c))
      then Some (vein s)
      else
        let iterations := iterations s + 1 in
        if bool_decide (iterations > max_iterations c) then Some (vein s)
        else
          let skip := {| queue := rest; visited := visited s;
                         vein := vein s; iterations := iterations |} in
          if bool_decide (dist_sq (block_pos start) cur
                          > max_reach_distance c * max_reach_distance c)
          then search_loop c neighbors dim start fuel skip
          else
            match dim cur with
            | None => search_loop c neighbors dim start fuel skip
            | Some t =>
              if negb (String.eqb t (block_type start))
              then search_loop c neighbors dim start fuel skip
              else
                let vein' := vein s ++ [{| block_type := t; block_pos := cur |}] in
                if bool_decide (max_blocks c ≤ Z.of_nat (length vein'))
                then Some vein'
                else
                  let '(visited', queue') :=
                    foldl (visit_neighbor dim (block_type start) cur)
                          (visited s, rest) neighbors in
                  search_loop c neighbors dim start fuel
                    {| queue := queue'; visited := visited';
                       vein := vein'; iterations := iterations |}
            end
    end
  end.

Definition initial_search (start : Block) : Search :=
  {| queue := [block_pos start]; visited := {[block_pos start]};
     vein := []; iterations := 0 |}.

Definition search_fuel (c : Config) : nat := S (Z.to_nat (max_iterations c)).

(** [find_vein], given the neighbor offsets in use and the dimension. *)
Definition find_vein (c : Config) (neighbors : list (Z * Z * Z))
    (dim : Dimension) (start : Block) : list Block :=
  default [] (search_loop c neighbors dim start (search_fuel c)
                          (initial_search start)).

(** [self._neighbor_offsets]: built on first use, then reused. *)
Definition cached_neighbors (c : Config) (cache : option (list (Z * Z * Z)))
    : list (Z * Z * Z) :=
  match cache with
  | None => Neighbors.build_neighbor_offsets c
  | Some offsets => offsets
  end.

Definition within_world_height (p : Z * Z * Z) : Prop :=
  MIN_WORLD_HEIGHT ≤ p.1.2 ≤ MAX_WORLD_HEIGHT.

Definition within_reach (c : Config) (start p : Z * Z * Z) : Prop :=
  dist_sq start p ≤ max_reach_distance c * max_reach_distance c.

(** The connected component of the start block: the positions linked to it
    by a chain of neighbor offsets through blocks of the start block's type.
    Neither the size cap nor the reach nor the world height enters. *)
Inductive connected (neighbors : list (Z * Z * Z)) (dim : Dimension)
    (start : Block) : Z * Z * Z → Prop :=
  | connected_start :
      dim (block_pos start) = Some (block_type start) →
      connected neighbors dim start (block_pos start)
  | connected_step p d :
      connected neighbors dim start p →
      d ∈ neighbors →
      dim (shift p d) = Some (block_type start) →
      connected neighbors dim start (shift p d).

(** The component of the start block under the rule of the active pattern:
    what is reached from it by steps that obey the rule, through blocks of
    its type. The rule holds of an offset exactly if it holds of its
    opposite, so these steps can be walked both ways. *)
Inductive pattern_connected (c : Config) (dim : Dimension) (start : Block)
    : Z * Z * Z → Prop :=
  | pattern_connected_start :
      dim (block_pos start) = Some (block_type start) →
      pattern_connected c dim start (block_pos start)
  | pattern_connected_step p d :
      pattern_connected c dim start p →
      Neighbors.pattern_rule c d →
      dim (shift p d) = Some (block_type start) →
      pattern_connected c dim start (shift p d).

(** What holds of every block [find_vein] puts into the vein. *)
Definition sound_block (c : Config) (dim : Dimension) (start b : Block) : Prop :=
  block_type b = block_type start
  ∧ dim (block_pos b) = Some (block_type start)
  ∧ within_reach c (block_pos start) (block_pos b)
  ∧ (block_pos b = block_pos start ∨ within_world_height (block_pos b)).

(** The loop invariant behind the bounds of the vein. *)
Record search_inv (c : Config) (dim : Dimension) (start : Block) (s : Search)
    : Prop := {
  inv_visited : ∀ p, p ∈ (block_pos <$> vein s) ++ queue s → p ∈ visited s;
  inv_nodup : NoDup ((block_pos <$> vein s) ++ queue s);
  inv_queue :
    Forall (λ p, p = block_pos start ∨ within_world_height p) (queue s);
  inv_vein : Forall (sound_block c dim start) (vein s);
  inv_size : Z.of_nat (length (vein s)) ≤ Z.max 0 (max_blocks c)
}.

(** The loop invariant behind "nothing outside the component". *)
Record conn_inv (neighbors : list (Z * Z * Z)) (dim : Dimension)
    (start : Block) (s : Search) : Prop := {
  conn_vein : Forall (connected neighbors dim start) (block_pos <$> vein s);
  conn_queue :
    Forall (λ p, dim p = Some (block_type start) →
                 connected neighbors dim start p) (queue s)
}.

(** The loop invariant behind "no member of the component is left out". *)
Record full_inv (c : Config) (neighbors : list (Z * Z * Z)) (dim : Dimension)
    (start : Block) (s : Search) : Prop := {
  full_base : search_inv c dim start s;
  full_conn :
    Forall (connected neighbors dim start) ((block_pos <$> vein s) ++ queue s);
  full_seen : ∀ p, p ∈ visited s → dim p = Some (block_type start) →
                   p ∈ (block_pos <$> vein s) ++ queue s;
  full_closed : ∀ p d, p ∈ block_pos <$> vein s → d ∈ neighbors →
                       dim (shift p d) = Some (block_type start) →
                       shift p d ∈ visited s;
  full_origin : block_pos start ∈ visited s;
  full_iter : iterations s = Z.of_nat (length (vein s))
}.

(** A world given by finitely many blocks; every other position is air. *)
Definition dimension_of (blocks : list (Z * Z * Z * string)) : Dimension :=
  λ p, match list_find (λ b, b.1 = p) blocks with
       | Some (_, b) => Some b.2
       | None => Some "minecraft:air"
       end.

(** Three iron ore blocks in a row along the x axis, the first one broken. *)
Definition iron_row : list (Z * Z * Z) := [(0, 0, 0); (1, 0, 0); (2, 0, 0)].
Definition iron_row_world : Dimension :=
  dimension_of ((λ p, (p, "minecraft:iron_ore")) <$> iron_row).
Definition iron_start : Block :=
  {| block_type := "minecraft:iron_ore"; block_pos := (0, 0, 0) |}.

(** The default configuration with [max-reach-distance] 1. *)
Definition reach1 : Config := with_limits default_config 64 2 1.

(** A single iron ore block above the vertical bound. *)
Definition high_start : Block :=
  {| block_type := "minecraft:iron_ore"; block_pos := (0, 400, 0) |}.
Definition high_world : Dimension :=
  dimension_of [((0, 400, 0), "minecraft:iron_ore")].

End Discovery.

(** ** Strings as Python uses them *)

Module Text.

(** [str.lower()] on the ASCII letters; block, item and enchantment ids are
    ASCII. *)
Definition lower_char (a : ascii) : ascii :=
  let n := nat_of_ascii a in
  if (65 <=? n)%nat && (n <=? 90)%nat then ascii_of_nat (n + 32) else a.

Fixpoint lower (s : string) : string :=
  match s with
  | EmptyString => EmptyString
  | String a rest => String (lower_char a) (lower rest)
  end.

(** [s.replace(old, new)] for a non-empty [old]: the occurrences are taken
    from the left and do not overlap. [skip] counts the characters of a
    match still to be passed over. *)
Fixpoint replace_from (old new : string) (skip : nat) (s : string) : string :=
  match s with
  | EmptyString => EmptyString
  | String a rest =>
    match skip with
    | S k => replace_from old new k rest
    | O =>
      if String.prefix old s
      then new +:+ replace_from old new (String.length old - 1) rest
      else String a (replace_from old new 0 rest)
    end
  end.

Definition replace (old new s : string) : string := replace_from old new 0 s.

(** [s.endswith(suffix)]. *)
Definition ends_with (s suffix : string) : bool :=
  (String.length suffix <=? String.length s)%nat
  && String.eqb (String.substring (String.length s - String.length suffix)
                                  (String.length suffix) s) suffix.

(** [s.startswith(prefix)]. *)
Definition starts_with (s prefix : string) : bool := String.prefix prefix s.

(** [s.split(sep, 1)[1]] when the one-character [sep] occurs in [s]. *)
Fixpoint after_first (sep : ascii) (s : string) : option string :=
  match s with
  | EmptyString => None
  | String a rest => if Ascii.eqb a sep then Some rest else after_first sep rest
  end.

(** [normalize_block_id]. *)
Definition normalize_block_id (block_id : string) : string :=
  if String.eqb block_id "" then ""
  else lower (replace "minecraft:" "" block_id).

End Text.

(** ** The random source *)

Module Random.

(** The generator is the stream of the 53-bit integers it will hand out;
    drawing takes the head. *)
Definition Rng : Type := nat → N.

Definition Rand (A : Type) : Type := Rng → A * Rng.

Definition pure {A} (a : A) : Rand A := λ g, (a, g).

Definition bind {A B} (m : Rand A) (k : A → Rand B) : Rand B :=
  λ g, let '(a, g') := m g in k a g'.

Definition draw : Rand Z := λ g, (Z.of_N (g O), λ n, g (S n)).

(** [random.randint(a, b)], an integer of [a..b]. *)
Definition randint (a b : Z) : Rand Z :=
  bind draw (λ raw, pure (a + raw mod (b - a + 1))).

(** [random.random()], a multiple of [2^-53] in [0, 1). *)
Definition random : Rand Q :=
  bind draw (λ raw, pure (Qmake (raw mod 2 ^ 53) (2 ^ 53))).

(** A generator that hands out the given numbers and then zeros. *)
Definition scripted (draws : list N) : Rng := λ n, nth n draws 0%N.

End Random.

Declare Scope rand_scope.
Delimit Scope rand_scope with rand.
Notation "'let*' x ':=' e 'in' k" := (Random.bind e (λ x, k))
  (at level 10, x name, e at level 100, k at level 200, only parsing)
  : rand_scope.

(** ** Tools *)

Module Tools.
Import Text.

(** What the plugin reads of the item stack in the main hand: the id of its
    type, the pairs of [item_meta.enchants], the unbreakable flag, the damage
    taken and the durability of its type. *)
Record Tool := {
  type_id : string;
  enchants : list (string * Z);
  is_unbreakable : bool;
  damage : Z;
  max_durability : Z
}.

(** [ItemStack("minecraft:air", 1)]. *)
Definition air_stack : Tool :=
  {| type_id := "minecraft:air"; enchants := []; is_unbreakable := false;
     damage := 0; max_durability := 0 |}.

Definition set_damage (d : Z) (t : Tool) : Tool :=
  {| type_id := type_id t; enchants := enchants t;
     is_unbreakable := is_unbreakable t; damage := d;
     max_durability := max_durability t |}.

(** [get_item_type_id]. *)
Definition get_item_type_id (tool : Tool) (fallback : string) : string :=
  let item_id := lower (type_id tool) in
  if String.eqb item_id "" then fallback
  else if starts_with item_id "minecraft:" then item_id
  else "minecraft:" +:+ item_id.

(** [meta.get_enchant_level(key)] of the host: the level stored under the
    very key, 0 when there is none. *)
Definition host_enchant_level (tool : Tool) (key : string) : Z :=
  match list_find (λ kv, kv.1 = key) (enchants tool) with
  | Some (_, kv) => kv.2
  | None => 0
  end.

(** [get_enchantment_level]. *)
Definition get_enchantment_level (tool : option Tool) (enchantment : string) : Z :=
  match tool with
  | None => 0
  | Some tool =>
    let normalized := replace " " "_" (lower enchantment) in
    let aliases :=
      [normalized;
       match after_first ":" normalized with
       | Some short => short
       | None => "minecraft:" +:+ normalized
       end] in
    (* the dict comprehension: a later pair wins over an earlier one *)
    let enchant_map : gmap string Z :=
      list_to_map (reverse (prod_map lower id <$> enchants tool)) in
    match list_find (λ key, 0 < default 0 (enchant_map !! key)) aliases with
    | Some (_, key) => default 0 (enchant_map !! key)
    | None =>
      match list_find (λ key, 0 < host_enchant_level tool key) aliases with
      | Some (_, key) => host_enchant_level tool key
      | None => 0
      end
    end
  end.

(** [get_tool_traits]. *)
Definition get_tool_traits (tool : option Tool) : list string :=
  match tool with
  | None => []
  | Some tool =>
    let short_id := normalize_block_id (get_item_type_id tool "minecraft:air") in
    (if ends_with short_id "_pickaxe" then ["pickaxe"] else [])
    ++ (if ends_with short_id "_axe" then ["axe"] else [])
    ++ (if ends_with short_id "_shovel" then ["shovel"] else [])
    ++ (if ends_with short_id "_hoe" then ["hoe"] else [])
    ++ (if ends_with short_id "_sword" then ["sword"] else [])
    ++ (if String.eqb short_id "shears" then ["shears"] else [])
  end.

(** [required_tool_traits_for_block]. *)
Definition required_tool_traits_for_block (block_id : string)
    : option (list string) :=
  let short_id := normalize_block_id block_id in
  if ends_with short_id "_log" || ends_with short_id "_stem" then Some ["axe"]
  else if ends_with short_id "_leaves" then Some ["shears"; "hoe"; "axe"]
  else if ends_with short_id "_ore"
          || bool_decide (short_id ∈ ["ancient_debris"; "amethyst_cluster";
                                      "large_amethyst_bud"; "medium_amethyst_bud";
                                      "small_amethyst_bud"])
       then Some ["pickaxe"]
  else None.

(** The answer [is_proper_tool] computes on a cache miss. *)
Definition tool_fits (block_id : string) (tool : option Tool) : bool :=
  match required_tool_traits_for_block block_id with
  | None => true
  | Some required_traits =>
    bool_decide (Exists (λ t, t ∈ get_tool_traits tool) required_traits)
  end.

End Tools.

(** ** Reward Engine *)

Module Rewards.
Import Text Random Tools.
Local Open Scope rand_scope.

Definition Q_lt (x y : Q) : bool := (Qnum x * QDen y <? Qnum y * QDen x)%Z.
Definition Q_le (x y : Q) : bool := (Qnum x * QDen y <=? Qnum y * QDen x)%Z.

(** [get_auto_smelt_outputs]. *)
Definition get_auto_smelt_outputs : gmap string string :=
  list_to_map
    [ ("iron_ore", "minecraft:iron_ingot");
      ("deepslate_iron_ore", "minecraft:iron_ingot");
      ("gold_ore", "minecraft:gold_ingot");
      ("deepslate_gold_ore", "minecraft:gold_ingot");
      ("nether_gold_ore", "minecraft:gold_ingot");
      ("copper_ore", "minecraft:copper_ingot");
      ("deepslate_copper_ore", "minecraft:copper_ingot");
      ("ancient_debris", "minecraft:netherite_scrap") ].

(** [should_auto_smelt]. *)
Definition should_auto_smelt (c : Config) (block_id : string)
    (silk_touch_level fortune_level : Z) : bool :=
  if negb (auto_smelt_enabled c) then false
  else if bool_decide (0 < silk_touch_level) then false
  else if auto_smelt_require_fortune c && bool_decide (fortune_level ≤ 0)
  then false
  else
    let short_id := normalize_block_id block_id in
    if bool_decide (get_auto_smelt_outputs !! short_id = None) then false
    else if negb (bool_decide (auto_smelt_whitelist c = []))
            && bool_decide (short_id ∉ auto_smelt_whitelist c)
    then false
    else true.

(** [get_smelt_xp_value]. *)
Definition get_smelt_xp_value (block_id : string) : Q :=
  let short_id := normalize_block_id block_id in
  let smelt_xp_values : gmap string Q :=
    list_to_map
      [ ("iron_ore", 7 # 10); ("deepslate_iron_ore", 7 # 10);
        ("gold_ore", 1); ("deepslate_gold_ore", 1); ("nether_gold_ore", 1);
        ("copper_ore", 7 # 10); ("deepslate_copper_ore", 7 # 10);
        ("ancient_debris", 2) ]%Q in
  default 0%Q (smelt_xp_values !! short_id).

Definition lapis_ores : list string := ["lapis_ore"; "deepslate_lapis_ore"].

Definition redstone_ores : list string :=
  ["redstone_ore"; "deepslate_redstone_ore"; "lit_redstone_ore";
   "lit_deepslate_redstone_ore"].

(** The set [fortune_applicable] tests against. *)
Definition fortune_blocks : list string :=
  [ "coal_ore"; "deepslate_coal_ore";
    "iron_ore"; "deepslate_iron_ore";
    "copper_ore"; "deepslate_copper_ore";
    "gold_ore"; "deepslate_gold_ore";
    "redstone_ore"; "deepslate_redstone_ore"; "lit_redstone_ore";
    "lit_deepslate_redstone_ore";
    "lapis_ore"; "deepslate_lapis_ore";
    "diamond_ore"; "deepslate_diamond_ore";
    "emerald_ore"; "deepslate_emerald_ore";
    "quartz_ore"; "nether_quartz_ore";
    "nether_gold_ore" ].

(** The base count of [get_fortune_drop_amount]. *)
Definition base_drop_count (short_id : string) : Rand Z :=
  if bool_decide (short_id ∈ lapis_ores) then randint 4 9
  else if bool_decide (short_id ∈ redstone_ores) then randint 4 5
  else if String.eqb short_id "nether_gold_ore" then randint 2 6
  else pure 1.

(** [get_fortune_drop_amount]. *)
Definition get_fortune_drop_amount (block_id : string) (fortune_level : Z)
    : Rand Z :=
  let short_id := normalize_block_id block_id in
  let* base_count := base_drop_count short_id in
  let fortune_applicable := bool_decide (short_id ∈ fortune_blocks) in
  if bool_decide (fortune_level ≤ 0) || negb fortune_applicable
  then pure (Z.max 1 base_count)
  else
    let* bonus_roll := randint (-1) fortune_level in
    let bonus_roll := if bool_decide (bonus_roll < 0) then 0 else bonus_roll in
    pure (Z.max 1 (base_count * (bonus_roll + 1))).

(** [get_leaf_sapling_drop]. *)
Definition get_leaf_sapling_drop (block_id : string) : option string * Q :=
  let short_id := normalize_block_id block_id in
  let sapling_drops : gmap string (string * Q) :=
    list_to_map
      [ ("oak_leaves", ("minecraft:oak_sapling", 5 # 100));
        ("spruce_leaves", ("minecraft:spruce_sapling", 5 # 100));
        ("birch_leaves", ("minecraft:birch_sapling", 5 # 100));
        ("jungle_leaves", ("minecraft:jungle_sapling", 25 # 1000));
        ("acacia_leaves", ("minecraft:acacia_sapling", 5 # 100));
        ("dark_oak_leaves", ("minecraft:dark_oak_sapling", 25 # 1000));
        ("mangrove_leaves", ("minecraft:mangrove_propagule", 5 # 100));
        ("cherry_leaves", ("minecraft:cherry_sapling", 5 # 100)) ]%Q in
  match sapling_drops !! short_id with
  | Some (item, chance) => (Some item, chance)
  | None => (None, 0%Q)
  end.

(** [rewards[item] = rewards.get(item, 0) + n]. *)
Definition add_reward (item : string) (n : Z) (rewards : gmap string Z)
    : gmap string Z :=
  <[item := default 0 (rewards !! item) + n]> rewards.

(** [calculate_leaf_rewards]. *)
Definition calculate_leaf_rewards (block_id : string) (tool : option Tool)
    : Rand (gmap string Z) :=
  let short_id := normalize_block_id block_id in
  let silk_touch_level := get_enchantment_level tool "silk_touch" in
  let tool_traits := get_tool_traits tool in
  if bool_decide (0 < silk_touch_level) || bool_decide ("shears" ∈ tool_traits)
  then pure {[ "minecraft:" +:+ short_id := 1 ]}
  else
    let rewards : gmap string Z := ∅ in
    let* rewards :=
      match get_leaf_sapling_drop short_id with
      | (Some sapling_item, sapling_chance) =>
        if String.eqb sapling_item "" then pure rewards
        else
          let* r := random in
          pure (if Q_lt r sapling_chance
                then add_reward sapling_item 1 rewards else rewards)
      | (None, _) => pure rewards
      end in
    let* r := random in
    if Q_lt r (2 # 100)
    then
      let* sticks := randint 1 2 in
      pure (add_reward "minecraft:stick" sticks rewards)
    else pure rewards.

(** [get_ore_drop]. *)
Definition get_ore_drop (block_type : string) : string :=
  let block_id := normalize_block_id block_type in
  let ore_drops : gmap string string :=
    list_to_map
      [ ("coal_ore", "minecraft:coal"); ("deepslate_coal_ore", "minecraft:coal");
        ("iron_ore", "minecraft:raw_iron");
        ("deepslate_iron_ore", "minecraft:raw_iron");
        ("copper_ore", "minecraft:raw_copper");
        ("deepslate_copper_ore", "minecraft:raw_copper");
        ("gold_ore", "minecraft:raw_gold");
        ("deepslate_gold_ore", "minecraft:raw_gold");
        ("nether_gold_ore", "minecraft:gold_nugget");
        ("redstone_ore", "minecraft:redstone");
        ("deepslate_redstone_ore", "minecraft:redstone");
        ("lit_redstone_ore", "minecraft:redstone");
        ("lit_deepslate_redstone_ore", "minecraft:redstone");
        ("lapis_ore", "minecraft:lapis_lazuli");
        ("deepslate_lapis_ore", "minecraft:lapis_lazuli");
        ("diamond_ore", "minecraft:diamond");
        ("deepslate_diamond_ore", "minecraft:diamond");
        ("emerald_ore", "minecraft:emerald");
        ("deepslate_emerald_ore", "minecraft:emerald");
        ("quartz_ore", "minecraft:quartz");
        ("nether_quartz_ore", "minecraft:quartz");
        ("ancient_debris", "minecraft:ancient_debris");
        ("oak_log", "minecraft:oak_log"); ("birch_log", "minecraft:birch_log");
        ("spruce_log", "minecraft:spruce_log");
        ("jungle_log", "minecraft:jungle_log");
        ("acacia_log", "minecraft:acacia_log");
        ("dark_oak_log", "minecraft:dark_oak_log");
        ("crimson_stem", "minecraft:crimson_stem");
        ("warped_stem", "minecraft:warped_stem");
        ("mangrove_log", "minecraft:mangrove_log");
        ("cherry_log", "minecraft:cherry_log");
        ("oak_leaves", "minecraft:oak_leaves");
        ("spruce_leaves", "minecraft:spruce_leaves");
        ("birch_leaves", "minecraft:birch_leaves");
        ("jungle_leaves", "minecraft:jungle_leaves");
        ("acacia_leaves", "minecraft:acacia_leaves");
        ("dark_oak_leaves", "minecraft:dark_oak_leaves");
        ("mangrove_leaves", "minecraft:mangrove_leaves");
        ("cherry_leaves", "minecraft:cherry_leaves") ] in
  default ("minecraft:" +:+ block_id) (ore_drops !! block_id).

(** [calculate_ore_xp]. *)
Definition calculate_ore_xp (block_type : string) : Z :=
  let block_id := normalize_block_id block_type in
  let xp_values : gmap string Z :=
    list_to_map
      [ ("coal_ore", 1); ("deepslate_coal_ore", 1);
        ("iron_ore", 1); ("deepslate_iron_ore", 1);
        ("copper_ore", 1); ("deepslate_copper_ore", 1);
        ("gold_ore", 1); ("deepslate_gold_ore", 1);
        ("redstone_ore", 2); ("lit_redstone_ore", 2);
        ("deepslate_redstone_ore", 2); ("lit_deepslate_redstone_ore", 2);
        ("lapis_ore", 3); ("deepslate_lapis_ore", 3);
        ("diamond_ore", 4); ("deepslate_diamond_ore", 4);
        ("emerald_ore", 5); ("deepslate_emerald_ore", 5);
        ("quartz_ore", 2); ("nether_quartz_ore", 2);
        ("nether_gold_ore", 1); ("ancient_debris", 2) ] in
  default 0 (xp_values !! block_id).

(** [calculate_block_rewards]: the drops and the experience. *)
Definition calculate_block_rewards (c : Config) (block_type : string)
    (tool : option Tool) : Rand (gmap string Z * Q) :=
  let short_id := normalize_block_id block_type in
  if ends_with short_id "_leaves"
  then
    let* drops := calculate_leaf_rewards short_id tool in
    pure (drops, 0%Q)
  else
    let silk_touch_level := get_enchantment_level tool "silk_touch" in
    let fortune_level := get_enchantment_level tool "fortune" in
    if bool_decide (0 < silk_touch_level)
    then
      let silk_touch_overrides : gmap string string :=
        list_to_map [ ("lit_redstone_ore", "redstone_ore");
                      ("lit_deepslate_redstone_ore", "deepslate_redstone_ore") ] in
      let silk_block := default short_id (silk_touch_overrides !! short_id) in
      let drop_item := "minecraft:" +:+ silk_block in
      pure ({[ drop_item := 1 ]}, 0%Q)
    else
      let auto_smelt_applied :=
        should_auto_smelt c short_id silk_touch_level fortune_level in
      let drop_item :=
        if auto_smelt_applied
        then default (get_ore_drop short_id) (get_auto_smelt_outputs !! short_id)
        else get_ore_drop short_id in
      let* drop_count := get_fortune_drop_amount short_id fortune_level in
      let xp := inject_Z (calculate_ore_xp short_id) in
      let xp :=
        if auto_smelt_applied && auto_smelt_give_xp c
        then (xp + get_smelt_xp_value short_id * auto_smelt_xp_multiplier c
                   * inject_Z drop_count)%Q
        else xp in
      pure ({[ drop_item := drop_count ]}, xp).

End Rewards.

(** ** Tool Durability Model *)

Module Durability.
Import Text Random Tools Rewards.
Local Open Scope rand_scope.

(** What [apply_tool_durability] does to the main hand: nothing, or it puts
    an item there (the worn tool, or air once the tool broke). *)
Inductive HandEffect := Keep | Put (item : Tool).

(** Python's [int(x)] of a number: the fraction is cut off. *)
Definition py_int (x : Q) : Z := Z.quot (Qnum x) (QDen x).

(** The [for _ in range(damage_rolls)] loop of the unbreaking branch. *)
Fixpoint unbreaking_loop (rolls : nat) (consume_chance : Q) (applied : Z)
    : Rand Z :=
  match rolls with
  | O => pure applied
  | S rolls =>
    let* r := random in
    unbreaking_loop rolls consume_chance
      (if Q_le r consume_chance then applied + 1 else applied)
  end.

(** The damage points that are left of [successful_breaks] breaks: the
    stochastic rounding of [successful_breaks * multiplier], then the
    unbreaking rolls. [None] stands for the [return] taken when the first
    count is not positive. *)
Definition surviving_damage (c : Config) (tool : Tool) (successful_breaks : Z)
    : Rand (option Z) :=
  let base_damage := (inject_Z successful_breaks * durability_multiplier c)%Q in
  let damage_rolls := py_int base_damage in
  let* r := random in
  let damage_rolls :=
    if Q_lt r (base_damage - inject_Z damage_rolls)%Q
    then damage_rolls + 1 else damage_rolls in
  if bool_decide (damage_rolls ≤ 0) then pure None
  else
    let unbreaking_level := get_enchantment_level (Some tool) "unbreaking" in
    if respect_unbreaking c && bool_decide (0 < unbreaking_level)
    then
      let consume_chance := (1 / inject_Z (unbreaking_level + 1))%Q in
      let* applied := unbreaking_loop (Z.to_nat damage_rolls) consume_chance 0 in
      pure (Some applied)
    else pure (Some damage_rolls).

(** [apply_tool_durability]. *)
Definition apply_tool_durability (c : Config) (tool : option Tool)
    (successful_breaks : Z) : Rand HandEffect :=
  match tool with
  | None => pure Keep
  | Some t =>
    if bool_decide (successful_breaks ≤ 0) || Q_le (durability_multiplier c) 0
    then pure Keep
    else if is_unbreakable t then pure Keep
    else if bool_decide (max_durability t ≤ 0) then pure Keep
    else
      let* rolls := surviving_damage c t successful_breaks in
      match rolls with
      | None => pure Keep
      | Some damage_rolls =>
        if bool_decide (damage_rolls ≤ 0) then pure Keep
        else
          let current_damage := damage t in
          let new_damage := current_damage + damage_rolls in
          if bool_decide (max_durability t ≤ new_damage)
          then
            if break_on_exceed c then pure (Put air_stack)
            else pure (Put (set_damage (max_durability t - 1) t))
          else pure (Put (set_damage new_damage t))
      end
  end.

(** The durability an item has left. *)
Definition remaining_durability (t : Tool) : Z := max_durability t - damage t.

End Durability.

(** ** The plugin: its per-player state, the gate and the break handler *)

Module Engine.
Import Text Random Tools Discovery.

(** *** The mutable attributes of the plugin *)

Record Plugin := {
  last_vein_mine : gmap string Z;
  processing_vein : gset string;
  last_error_message : gmap string Z;
  last_cooldown_message : gmap string Z;
  daily_vein_count : gmap string Z;
  daily_block_count : gmap string Z;
  minute_vein_count : gmap string (list Z);
  blocked_players : gmap string Z;
  tool_validation_cache : gmap string bool;
  neighbor_offsets : option (list (Z * Z * Z));
  disabled_players : gset string
}.

Definition set_last_vein_mine (v : gmap string Z) (p : Plugin) : Plugin :=
  {| last_vein_mine := v;
     processing_vein := processing_vein p;
     last_error_message := last_error_message p;
     last_cooldown_message := last_cooldown_message p;
     daily_vein_count := daily_vein_count p;
     daily_block_count := daily_block_count p;
     minute_vein_count := minute_vein_count p;
     blocked_players := blocked_players p;
     tool_validation_cache := tool_validation_cache p;
     neighbor_offsets := neighbor_offsets p;
     disabled_players := disabled_players p |}.

Definition set_processing_vein (v : gset string) (p : Plugin) : Plugin :=
  {| last_vein_mine := last_vein_mine p;
     processing_vein := v;
     last_error_message := last_error_message p;
     last_cooldown_message := last_cooldown_message p;
     daily_vein_count := daily_vein_count p;
     daily_block_count := daily_block_count p;
     minute_vein_count := minute_vein_count p;
     blocked_players := blocked_players p;
     tool_validation_cache := tool_validation_cache p;
     neighbor_offsets := neighbor_offsets p;
     disabled_players := disabled_players p |}.

Definition set_last_error_message (v : gmap string Z) (p : Plugin) : Plugin :=
  {| last_vein_mine := last_vein_mine p;
     processing_vein := processing_vein p;
     last_error_message := v;
     last_cooldown_message := last_cooldown_message p;
     daily_vein_count := daily_vein_count p;
     daily_block_count := daily_block_count p;
     minute_vein_count := minute_vein_count p;
     blocked_players := blocked_players p;
     tool_validation_cache := tool_validation_cache p;
     neighbor_offsets := neighbor_offsets p;
     disabled_players := disabled_players p |}.

Definition set_last_cooldown_message (v : gmap string Z) (p : Plugin) : Plugin :=
  {| last_vein_mine := last_vein_mine p;
     processing_vein := processing_vein p;
     last_error_message := last_error_message p;
     last_cooldown_message := v;
     daily_vein_count := daily_vein_count p;
     daily_block_count := daily_block_count p;
     minute_vein_count := minute_vein_count p;
     blocked_players := blocked_players p;
     tool_validation_cache := tool_validation_cache p;
     neighbor_offsets := neighbor_offsets p;
     disabled_players := disabled_players p |}.

Definition set_daily_vein_count (v : gmap string Z) (p : Plugin) : Plugin :=
  {| last_vein_mine := last_vein_mine p;
     processing_vein := processing_vein p;
     last_error_message := last_error_message p;
     last_cooldown_message := last_cooldown_message p;
     daily_vein_count := v;
     daily_block_count := daily_block_count p;
     minute_vein_count := minute_vein_count p;
     blocked_players := blocked_players p;
     tool_validation_cache := tool_validation_cache p;
     neighbor_offsets := neighbor_offsets p;
     disabled_players := disabled_players p |}.

Definition set_daily_block_count (v : gmap string Z) (p : Plugin) : Plugin :=
  {| last_vein_mine := last_vein_mine p;
     processing_vein := processing_vein p;
     last_error_message := last_error_message p;
     last_cooldown_message := last_cooldown_message p;
     daily_vein_count := daily_vein_count p;
     daily_block_count := v;
     minute_vein_count := minute_vein_count p;
     blocked_players := blocked_players p;
     tool_validation_cache := tool_validation_cache p;
     neighbor_offsets := neighbor_offsets p;
     disabled_players := disabled_players p |}.

Definition set_minute_vein_count (v : gmap string (list Z)) (p : Plugin) : Plugin :=
  {| last_vein_mine := last_vein_mine p;
     processing_vein := processing_vein p;
     last_error_message := last_error_message p;
     last_cooldown_message := last_cooldown_message p;
     daily_vein_count := daily_vein_count p;
     daily_block_count := daily_block_count p;
     minute_vein_count := v;
     blocked_players := blocked_players p;
     tool_validation_cache := tool_validation_cache p;
     neighbor_offsets := neighbor_offsets p;
     disabled_players := disabled_players p |}.

Definition set_blocked_players (v : gmap string Z) (p : Plugin) : Plugin :=
  {| last_vein_mine := last_vein_mine p;
     processing_vein := processing_vein p;
     last_error_message := last_error_message p;
     last_cooldown_message := last_cooldown_message p;
     daily_vein_count := daily_vein_count p;
     daily_block_count := daily_block_count p;
     minute_vein_count := minute_vein_count p;
     blocked_players := v;
     tool_validation_cache := tool_validation_cache p;
     neighbor_offsets := neighbor_offsets p;
     disabled_players := disabled_players p |}.

Definition set_tool_validation_cache (v : gmap string bool) (p : Plugin) : Plugin :=
  {| last_vein_mine := last_vein_mine p;
     processing_vein := processing_vein p;
     last_error_message := last_error_message p;
     last_cooldown_message := last_cooldown_message p;
     daily_vein_count := daily_vein_count p;
     daily_block_count := daily_block_count p;
     minute_vein_count := minute_vein_count p;
     blocked_players := blocked_players p;
     tool_validation_cache := v;
     neighbor_offsets := neighbor_offsets p;
     disabled_players := disabled_players p |}.

Definition set_neighbor_offsets (v : option (list (Z * Z * Z))) (p : Plugin) : Plugin :=
  {| last_vein_mine := last_vein_mine p;
     processing_vein := processing_vein p;
     last_error_message := last_error_message p;
     last_cooldown_message := last_cooldown_message p;
     daily_vein_count := daily_vein_count p;
     daily_block_count := daily_block_count p;
     minute_vein_count := minute_vein_count p;
     blocked_players := blocked_players p;
     tool_validation_cache := tool_validation_cache p;
     neighbor_offsets := v;
     disabled_players := disabled_players p |}.

Definition fresh_plugin : Plugin :=
  {| last_vein_mine := ∅; processing_vein := ∅; last_error_message := ∅;
     last_cooldown_message := ∅; daily_vein_count := ∅;
     daily_block_count := ∅; minute_vein_count := ∅; blocked_players := ∅;
     tool_validation_cache := ∅; neighbor_offsets := None;
     disabled_players := ∅ |}.

(** *** The Abuse/Rate Gate

    Each method takes the reading of [int(time.time() * 1000)] it makes. *)

(** [is_player_blocked]. *)
Definition is_player_blocked (player_id : string) (current_time : Z)
    (p : Plugin) : bool * Plugin :=
  match blocked_players p !! player_id with
  | None => (false, p)
  | Some unblock_time =>
    if bool_decide (unblock_time ≤ current_time)
    then (false, set_blocked_players (delete player_id (blocked_players p)) p)
    else (true, p)
  end.

(** [block_player_temporarily]. *)
Definition block_player_temporarily (c : Config) (player_id : string)
    (current_time : Z) (p : Plugin) : Plugin :=
  set_blocked_players
    (<[player_id := current_time + temporary_block_duration c * 60 * 1000]>
       (blocked_players p)) p.

(** The entries of the rate window that survive the pruning. *)
Definition recent (current_time : Z) (stamps : list Z) : list Z :=
  filter (λ t, current_time - t < 60000) stamps.

(** [check_rate_limits]: [true] if the player may go on. *)
Definition check_rate_limits (c : Config) (player_id : string)
    (current_time : Z) (p : Plugin) : bool * Plugin :=
  if bool_decide (max_veins_per_minute c ≤ 0) then (true, p)
  else
    let kept :=
      recent current_time (default [] (minute_vein_count p !! player_id)) in
    let p := set_minute_vein_count
               (<[player_id := kept]> (minute_vein_count p)) p in
    if bool_decide (max_veins_per_minute c ≤ Z.of_nat (length kept))
    then (false, p)
    else (true, p).

(** [check_daily_limits]: [true] if the player may go on. *)
Definition check_daily_limits (c : Config) (player_id : string)
    (block_count : Z) (p : Plugin) : bool :=
  if negb (enable_limits c) then true
  else
    let vein_count := default 0 (daily_vein_count p !! player_id) in
    let blocks_count := default 0 (daily_block_count p !! player_id) in
    if bool_decide (max_veins_per_day c ≤ vein_count) then false
    else if bool_decide (max_blocks_per_day c < blocks_count + block_count)
    then false
    else true.

(** [record_vein_usage]. *)
Definition record_vein_usage (c : Config) (player_id : string)
    (block_count : Z) (current_time : Z) (p : Plugin) : Plugin :=
  let p := set_minute_vein_count
             (<[player_id :=
                  default [] (minute_vein_count p !! player_id) ++ [current_time]]>
                (minute_vein_count p)) p in
  if enable_limits c
  then
    let p := set_daily_vein_count
               (<[player_id := default 0 (daily_vein_count p !! player_id) + 1]>
                  (daily_vein_count p)) p in
    set_daily_block_count
      (<[player_id :=
           default 0 (daily_block_count p !! player_id) + block_count]>
         (daily_block_count p)) p
  else p.

(** [is_proper_tool], with its cache. *)
Definition is_proper_tool (block_id : string) (tool : option Tool)
    (p : Plugin) : bool * Plugin :=
  let tool_key :=
    match tool with
    | Some t => get_item_type_id t "minecraft:air"
    | None => "hand"
    end in
  let cache_key := block_id +:+ ":" +:+ tool_key in
  match tool_validation_cache p !! cache_key with
  | Some cached => (cached, p)
  | None =>
    let is_valid := tool_fits block_id tool in
    (is_valid,
     set_tool_validation_cache
       (<[cache_key := is_valid]> (tool_validation_cache p)) p)
  end.

(** *** The host *)

(** What reaches the player's screen. *)
Inductive Shown :=
  | Notice (message_key : string)
  | Tip (blocks xp : Z)
  | ErrorNotice.

(** The part of the game the handler can change: the blocks of the
    dimension, the player's main hand, items and experience, the cancelled
    flag of the event, what the player was shown, and what the statistics
    tracker was told. *)
Record Host := {
  world : Dimension;
  main_hand : option Tool;
  inventory : gmap string Z;
  experience : Z;
  is_cancelled : bool;
  shown : list Shown;
  recorded : list (string * Z)
}.

Definition set_is_cancelled (v : bool) (h : Host) : Host :=
  {| world := world h; main_hand := main_hand h; inventory := inventory h;
     experience := experience h; is_cancelled := v; shown := shown h;
     recorded := recorded h |}.

Definition show (what : Shown) (h : Host) : Host :=
  {| world := world h; main_hand := main_hand h; inventory := inventory h;
     experience := experience h; is_cancelled := is_cancelled h;
     shown := shown h ++ [what]; recorded := recorded h |}.

Definition record_vein_mine (player_id : string) (blocks : Z) (h : Host) : Host :=
  {| world := world h; main_hand := main_hand h; inventory := inventory h;
     experience := experience h; is_cancelled := is_cancelled h;
     shown := shown h; recorded := recorded h ++ [(player_id, blocks)] |}.

(** The player of the event. *)
Record Player := {
  unique_id : string;
  has_permission : string → bool;
  is_sneaking : bool;
  level_name : string
}.

Record Event := {
  event_player : option Player;
  event_block : option Block
}.

(** The calls into the host that the handler makes and that may raise. *)
Inductive HostCall :=
  | CallSendMessage (message_key : string)
  | CallMainHand
  | CallRecordStats
  | CallSendTip
  | CallErrorNotice.

(** The readings of the clock, one for each place that reads it. *)
Record Clock := {
  at_blocked_check : Z;
  at_rate_check : Z;
  at_blocking : Z;
  at_cooldown_check : Z;
  at_usage : Z;
  at_finish : Z;
  at_error : Z
}.

(** What the surroundings answer during one invocation. *)
Record Env := {
  clock : Clock;
  raises : HostCall → bool
}.

(** [process_vein_mining] drives the host (blocks, items, experience, tool
    wear, effects) and hands back [successful_breaks] and [xp_gained], or
    raises with the host as far as it got. It touches no attribute of the
    plugin. The handler is embedded over any such processor. *)
Definition Processor : Type :=
  Host → list Block → option Tool → Host * (string + Z * Z).

(** *** The handler as a program with early returns and exceptions *)

(** The places where [on_block_break] ends. *)
Inductive Exit :=
  | ExitCancelled | ExitInvalidEvent
  | ExitBlocked | ExitNoPermission | ExitToggledOff | ExitRateLimited
  | ExitBusy | ExitCooldown | ExitDisabledWorld | ExitActivation
  | ExitNotVeinBlock | ExitNoBlockPermission
  | ExitWrongTool | ExitInvalidVein | ExitAbnormalVein | ExitDailyLimit
  | ExitVeinTooSmall      (* the vein is shorter than [min_vein_size] *)
  | ExitNotProcessed      (* longer than [max_blocks]: only the notice *)
  | ExitMined             (* [process_vein_mining] ran *)
  | ExitErrorHandled.     (* the [except] clause ran to its end *)

(** The plugin and the host. *)
Record Sys := {
  plugin : Plugin;
  host : Host
}.

Inductive Step (A : Type) :=
  | Next (a : A)
  | Return (e : Exit)
  | Raise (message : string).
Arguments Next {A} a.
Arguments Return {A} e.
Arguments Raise {A} message.

Definition Act (A : Type) : Type := Sys → Step A * Sys.

Definition pure {A} (a : A) : Act A := λ s, (Next a, s).

Definition bind {A B} (m : Act A) (k : A → Act B) : Act B :=
  λ s, match m s with
       | (Next a, s') => k a s'
       | (Return e, s') => (Return e, s')
       | (Raise x, s') => (Raise x, s')
       end.

Definition exit {A} (e : Exit) : Act A := λ s, (Return e, s).

Definition on_plugin {A} (f : Plugin → A * Plugin) : Act A :=
  λ s, let '(a, p) := f (plugin s) in
       (Next a, {| plugin := p; host := host s |}).

Definition read_plugin : Act Plugin := on_plugin (λ p, (p, p)).

Definition update_plugin (f : Plugin → Plugin) : Act unit :=
  on_plugin (λ p, (tt, f p)).

Definition read_host : Act Host := λ s, (Next (host s), s).

Definition update_host (f : Host → Host) : Act unit :=
  λ s, (Next tt, {| plugin := plugin s; host := f (host s) |}).

(** A call into the host that raises when the surroundings say so. *)
Definition host_call (env : Env) (call : HostCall) : Act unit :=
  λ s, if raises env call then (Raise "host", s) else (Next tt, s).

(** [try: body except Exception: handler]. *)
Definition try_except {A} (body : Act A) (handler : string → Act A) : Act A :=
  λ s, match body s with
       | (Raise x, s') => handler x s'
       | other => other
       end.

(** [try: body finally: final], for a [final] that cannot raise. *)
Definition try_finally {A} (body : Act A) (final : Plugin → Plugin) : Act A :=
  λ s, let '(r, s') := body s in
       (r, {| plugin := final (plugin s'); host := host s' |}).

End Engine.

Declare Scope act_scope.
Delimit Scope act_scope with act.
Notation "'let*' x ':=' e 'in' k" := (Engine.bind e (λ x, k))
  (at level 10, x name, e at level 100, k at level 200, only parsing)
  : act_scope.
Notation "e ';;' k" := (Engine.bind e (λ _, k))
  (at level 100, k at level 200, right associativity, only parsing)
  : act_scope.


(** ** The break handler *)

Module Handler.
Import Text Tools Discovery Engine.
Local Open Scope act_scope.

(** [send_message] for a key of [self.messages]. *)
Definition send_message (env : Env) (message_key : string) : Act unit :=
  host_call env (CallSendMessage message_key) ;;
  update_host (show (Notice message_key)).

(** [find_vein] as the handler calls it: on the dimension of the player,
    with the cached offsets, which it builds when there are none. *)
Definition find_vein_cached (c : Config) (start : Block) : Act (list Block) :=
  let* p := read_plugin in
  let neighbors := cached_neighbors c (neighbor_offsets p) in
  update_plugin (set_neighbor_offsets (Some neighbors)) ;;
  let* h := read_host in
  pure (find_vein c neighbors (world h) start).

Definition run_processor (process : Processor) (vein : list Block)
    (tool : option Tool) : Act (Z * Z) :=
  λ s, let '(h, r) := process (host s) vein tool in
       let s' := {| plugin := plugin s; host := h |} in
       match r with
       | inl x => (Raise x, s')
       | inr summary => (Next summary, s')
       end.

Definition activation_ok (c : Config) (player : Player) : bool :=
  if String.eqb (activation_mode c) "always" then true
  else if String.eqb (activation_mode c) "sneak" then is_sneaking player
  else if String.eqb (activation_mode c) "stand" then negb (is_sneaking player)
  else false.

(** The body of the [try] statement. *)
Definition mine (c : Config) (process : Processor) (env : Env)
    (player : Player) (block : Block) : Act unit :=
  let player_id := unique_id player in
  let block_id := block_type block in
  host_call env CallMainHand ;;
  let* h := read_host in
  let tool := main_hand h in
  (if require_correct_tool c
   then
     let* proper := on_plugin (is_proper_tool block_id tool) in
     if proper then pure tt
     else send_message env "wrong-tool" ;; exit ExitWrongTool
   else pure tt) ;;
  let* vein := find_vein_cached c block in
  if bool_decide (vein = []) then exit ExitInvalidVein
  else if bool_decide (Z.of_nat (length vein) < min_vein_size c)
  then exit ExitVeinTooSmall
  else
    let actual_size := Z.of_nat (length vein) in
    if bool_decide (max_blocks c * 2 < actual_size) then exit ExitAbnormalVein
    else
      let* p := read_plugin in
      if negb (check_daily_limits c player_id
                 (Z.min actual_size (max_blocks c)) p)
      then send_message env "limit-reached" ;; exit ExitDailyLimit
      else
        (if bool_decide (max_blocks c ≤ actual_size)
            && bool_decide (0 < max_blocks c)
         then send_message env "vein-too-large" else pure tt) ;;
        let* processed :=
          if bool_decide (actual_size ≤ max_blocks c)
          then
            update_host (set_is_cancelled true) ;;
            let* summary := run_processor process vein tool in
            let '(successful_breaks, xp_gained) := summary in
            (if bool_decide (0 < successful_breaks)
             then
               update_plugin (record_vein_usage c player_id successful_breaks
                                (at_usage (clock env))) ;;
               (if has_stats_tracker c
                then host_call env CallRecordStats ;;
                     update_host (record_vein_mine player_id successful_breaks)
                else pure tt) ;;
               host_call env CallSendTip ;;
               update_host (show (Tip successful_breaks xp_gained))
             else pure tt) ;;
            pure true
          else pure false in
        update_plugin (λ p, set_last_vein_mine
                              (<[player_id := at_finish (clock env)]>
                                 (last_vein_mine p)) p) ;;
        exit (if processed : bool then ExitMined else ExitNotProcessed).

(** The [except Exception] clause. *)
Definition on_error (env : Env) (player_id : string) : Act unit :=
  let current_time := at_error (clock env) in
  let* p := read_plugin in
  let last_error := default 0 (last_error_message p !! player_id) in
  (if bool_decide (5000 < current_time - last_error)
   then
     host_call env CallErrorNotice ;;
     update_host (show ErrorNotice) ;;
     update_plugin (λ p, set_last_error_message
                           (<[player_id := current_time]>
                              (last_error_message p)) p)
   else pure tt) ;;
  exit ExitErrorHandled.

(** From "Mark player as processing" to the end of the handler. *)
Definition guarded_mine (c : Config) (process : Processor) (env : Env)
    (player : Player) (block : Block) : Act unit :=
  let player_id := unique_id player in
  update_plugin (λ p, set_processing_vein ({[player_id]} ∪ processing_vein p) p) ;;
  try_finally
    (try_except (mine c process env player block)
                (λ _, on_error env player_id))
    (λ p, set_processing_vein (processing_vein p ∖ {[player_id]}) p).

(** The checks of the handler up to "Mark player as processing". *)
Definition admit_break (c : Config) (env : Env) (player : Player)
    (block : Block) : Act unit :=
  let player_id := unique_id player in
  let* blocked :=
    on_plugin (is_player_blocked player_id (at_blocked_check (clock env))) in
  if blocked : bool then exit ExitBlocked
  else if negb (has_permission player "veinminer.use") then exit ExitNoPermission
  else
    let* p := read_plugin in
    if bool_decide (player_id ∈ disabled_players p) then exit ExitToggledOff
    else
      let* within :=
        on_plugin (check_rate_limits c player_id (at_rate_check (clock env))) in
      if negb within
      then
        update_plugin (block_player_temporarily c player_id
                         (at_blocking (clock env))) ;;
        send_message env "limit-reached" ;;
        exit ExitRateLimited
      else
        let* p := read_plugin in
        if bool_decide (player_id ∈ processing_vein p) then exit ExitBusy
        else
          let current_time := at_cooldown_check (clock env) in
          let last_mine := default 0 (last_vein_mine p !! player_id) in
          if bool_decide (current_time - last_mine < cooldown_ms c)
          then
            let last_notice :=
              default 0 (last_cooldown_message p !! player_id) in
            (if bool_decide (1000 < current_time - last_notice)
             then
               send_message env "cooldown-active" ;;
               update_plugin (λ p, set_last_cooldown_message
                                     (<[player_id := current_time]>
                                        (last_cooldown_message p)) p)
             else pure tt) ;;
            exit ExitCooldown
          else if bool_decide (level_name player ∈ disabled_worlds c)
          then exit ExitDisabledWorld
          else if negb (activation_ok c player) then exit ExitActivation
          else
            let block_id := block_type block in
            if bool_decide (block_id ∉ vein_blocks c) then exit ExitNotVeinBlock
            else if per_block_permissions c
                    && negb (has_permission player
                               ("veinminer.blocks."
                                +:+ replace "minecraft:" "" block_id))
            then send_message env "no-permission" ;; exit ExitNoBlockPermission
            else pure tt.

(** [on_block_break]. *)
Definition on_block_break (c : Config) (process : Processor) (env : Env)
    (event : Event) : Act unit :=
  let* h := read_host in
  if is_cancelled h then exit ExitCancelled
  else
    match event_player event, event_block event with
    | Some player, Some block =>
      admit_break c env player block ;;
      guarded_mine c process env player block
    | _, _ => exit ExitInvalidEvent
    end.

(** A processor for the examples: it clears every block of the vein, hands
    one item of the block's id to the player for each, and wears nothing. *)
Definition clear_all : Processor :=
  λ h vein tool,
    ({| world := λ pos, if bool_decide (pos ∈ block_pos <$> vein)
                        then Some "minecraft:air" else world h pos;
        main_hand := main_hand h;
        inventory := foldr (λ b inv, <[block_type b :=
                                         default 0 (inv !! block_type b) + 1]> inv)
                           (inventory h) vein;
        experience := experience h;
        is_cancelled := is_cancelled h;
        shown := shown h;
        recorded := recorded h |},
     inr (Z.of_nat (length vein), 0)).

End Handler.


(** ** Sample values for the examples *)

Module Samples.
Import Tools Engine.

(** The usages recorded one after the other, each of [block_count] blocks. *)
Definition record_usages (c : Config) (player_id : string) (block_count : Z)
    (times : list Z) (p : Plugin) : Plugin :=
  foldl (λ p t, record_vein_usage c player_id block_count t p) p times.

(** A plugin that holds one temporary block, until time 5000. *)
Definition blocked_until_5000 : Plugin :=
  set_blocked_players {[ "steve" := 5000 ]} fresh_plugin.

(** A pickaxe with Fortune III. *)
Definition fortune_pickaxe : Tool :=
  {| type_id := "minecraft:diamond_pickaxe"; enchants := [("fortune", 3)];
     is_unbreakable := false; damage := 0; max_durability := 1561 |}.

(** A pickaxe with Silk Touch. *)
Definition silk_pickaxe : Tool :=
  {| type_id := "minecraft:diamond_pickaxe"; enchants := [("silk_touch", 1)];
     is_unbreakable := false; damage := 0; max_durability := 1561 |}.

(** A pickaxe one break away from its end. *)
Definition worn_pickaxe : Tool :=
  {| type_id := "minecraft:iron_pickaxe"; enchants := [];
     is_unbreakable := false; damage := 249; max_durability := 250 |}.

End Samples.

(** ** Loading the configuration *)

Module Loading.
Import Text Rewards.

(** The entries of the configuration file that [load_config] turns into the
    attributes of [Config]. A key that is missing is [None]; a key that is
    present holds a value of the type its default has. *)
Record RawConfig := {
  raw_max_blocks : option Z;
  raw_min_vein_size : option Z;
  raw_cooldown_ms : option Z;
  raw_activation_mode : option string;
  raw_per_block_permissions : option bool;
  raw_require_correct_tool : option bool;
  raw_max_reach_distance : option Z;
  raw_auto_smelt_enabled : option bool;
  raw_auto_smelt_require_fortune : option bool;
  raw_auto_smelt_whitelist : list string;
  raw_auto_smelt_give_xp : option bool;
  raw_auto_smelt_xp_multiplier : option Q;
  raw_durability_multiplier : option Q;
  raw_respect_unbreaking : option bool;
  raw_break_on_exceed : option bool;
  raw_mining_pattern : option string;
  raw_pattern_radius : option Z;
  raw_include_diagonals : option bool;
  raw_vertical_range : option Z;
  raw_horizontal_range : option Z;
  raw_enable_limits : option bool;
  raw_max_veins_per_day : option Z;
  raw_max_blocks_per_day : option Z;
  raw_max_veins_per_minute : option Z;
  raw_temporary_block_duration : option Z;
  raw_disabled_worlds : list string
}.

(** [str.strip()] is needed only to tell whether anything but blanks is
    left. *)
Definition is_blank (s : string) : bool :=
  forallb (λ a, bool_decide (a ∈ [" "; "009"; "010"; "011"; "012"; "013";
                                  "028"; "029"; "030"; "031"]%char))
          (list_ascii_of_string s).

(** The validation of [max-blocks]. *)
Definition load_max_blocks (raw : option Z) : Z :=
  let max_blocks := default DEFAULT_MAX_BLOCKS raw in
  if bool_decide (max_blocks = -1) then UNLIMITED_MAX_BLOCKS
  else if bool_decide (max_blocks < 1)
          || bool_decide (UNLIMITED_MAX_BLOCKS < max_blocks)
  then DEFAULT_MAX_BLOCKS
  else max_blocks.

(** The clamps of the pattern radius and of the two ranges. *)
Definition load_radius (raw : option Z) : Z :=
  let r := default 1 raw in
  let r := if bool_decide (r < 1) then 1 else r in
  if bool_decide (6 < r) then 6 else r.

Definition load_range (raw : option Z) : Z :=
  let r := default 4 raw in
  let r := if bool_decide (r < 1) then 1 else r in
  if bool_decide (16 < r) then 16 else r.

(** [value if value >= low else fallback], the shape of most checks. *)
Definition at_least (low fallback : Z) (raw : option Z) : Z :=
  let v := default fallback raw in
  if bool_decide (v < low) then fallback else v.

Definition load_pattern (raw : option string) : string :=
  let pattern := lower (default "adjacent" raw) in
  if bool_decide (pattern ∈ ["adjacent"; "cube"; "sphere"; "vertical";
                             "horizontal"])
  then pattern else "adjacent".

Definition load_activation_mode (raw : option string) : string :=
  let mode := lower (default "sneak" raw) in
  if bool_decide (mode ∈ ["sneak"; "stand"; "always"]) then mode else "sneak".

Definition load_multiplier (fallback : Q) (raw : option Q) : Q :=
  let m := default fallback raw in
  if Q_lt m 0 then fallback else m.

(** The part of [load_config] that sets the attributes of [Config]; the
    vein blocks are those [load_vein_blocks] gives. *)
Definition load_config (raw : RawConfig) (blocks : list string)
    (tracker : bool) : Config := {|
  max_blocks := load_max_blocks (raw_max_blocks raw);
  min_vein_size := at_least 1 2 (raw_min_vein_size raw);
  cooldown_ms := at_least 0 100 (raw_cooldown_ms raw);
  activation_mode := load_activation_mode (raw_activation_mode raw);
  per_block_permissions := default false (raw_per_block_permissions raw);
  require_correct_tool := default true (raw_require_correct_tool raw);
  max_reach_distance := at_least 1 100 (raw_max_reach_distance raw);
  auto_smelt_enabled := default false (raw_auto_smelt_enabled raw);
  auto_smelt_require_fortune := default false (raw_auto_smelt_require_fortune raw);
  auto_smelt_whitelist :=
    normalize_block_id <$>
      filter (λ entry, is_blank entry = false) (raw_auto_smelt_whitelist raw);
  auto_smelt_give_xp := default true (raw_auto_smelt_give_xp raw);
  auto_smelt_xp_multiplier :=
    load_multiplier (1 # 2) (raw_auto_smelt_xp_multiplier raw);
  durability_multiplier := load_multiplier 1 (raw_durability_multiplier raw);
  respect_unbreaking := default true (raw_respect_unbreaking raw);
  break_on_exceed := default true (raw_break_on_exceed raw);
  mining_pattern := load_pattern (raw_mining_pattern raw);
  pattern_radius := load_radius (raw_pattern_radius raw);
  include_diagonals := default true (raw_include_diagonals raw);
  vertical_range := load_range (raw_vertical_range raw);
  horizontal_range := load_range (raw_horizontal_range raw);
  enable_limits := default false (raw_enable_limits raw);
  max_veins_per_day := at_least 0 1000 (raw_max_veins_per_day raw);
  max_blocks_per_day := at_least 0 10000 (raw_max_blocks_per_day raw);
  max_veins_per_minute := at_least 0 60 (raw_max_veins_per_minute raw);
  temporary_block_duration := at_least 1 5 (raw_temporary_block_duration raw);
  disabled_worlds := raw_disabled_worlds raw;
  vein_blocks := blocks;
  has_stats_tracker := tracker
|}.

(** A configuration file with no entry at all. *)
Definition empty_raw : RawConfig := {|
  raw_max_blocks := None; raw_min_vein_size := None; raw_cooldown_ms := None;
  raw_activation_mode := None; raw_per_block_permissions := None;
  raw_require_correct_tool := None; raw_max_reach_distance := None;
  raw_auto_smelt_enabled := None; raw_auto_smelt_require_fortune := None;
  raw_auto_smelt_whitelist := []; raw_auto_smelt_give_xp := None;
  raw_auto_smelt_xp_multiplier := None; raw_durability_multiplier := None;
  raw_respect_unbreaking := None; raw_break_on_exceed := None;
  raw_mining_pattern := None; raw_pattern_radius := None;
  raw_include_diagonals := None; raw_vertical_range := None;
  raw_horizontal_range := None; raw_enable_limits := None;
  raw_max_veins_per_day := None; raw_max_blocks_per_day := None;
  raw_max_veins_per_minute := None; raw_temporary_block_duration := None;
  raw_disabled_worlds := []
|}.

End Loading.

(** ** The vein-mineable blocks *)

Module VeinBlocks.
Import Text Tools.

(** [str.upper()] on the ASCII letters. *)
Definition upper_char (a : ascii) : ascii :=
  let n := nat_of_ascii a in
  if (97 <=? n)%nat && (n <=? 122)%nat then ascii_of_nat (n - 32) else a.

Fixpoint upper (s : string) : string :=
  match s with
  | EmptyString => EmptyString
  | String a rest => String (upper_char a) (upper rest)
  end.

(** [self.configured_blocks] as [load_config] fills it from the pairs of the
    [blocks] section: the names in upper case, a later pair over an earlier. *)
Definition configured_blocks (blocks_config : list (string * bool))
    : gmap string bool :=
  foldl (λ m kv, <[upper kv.1 := kv.2]> m) ∅ blocks_config.

(** [is_block_enabled] on the names it is given: the first name that is
    configured decides. *)
Fixpoint is_block_enabled (configured : gmap string bool)
    (block_names : list string) : bool :=
  match block_names with
  | [] => true
  | block_name :: rest =>
    match configured !! upper block_name with
    | Some enabled => enabled
    | None => is_block_enabled configured rest
    end
  end.

Definition ore_types : list (string * string) :=
  [ ("COAL_ORE", "minecraft:coal_ore");
    ("IRON_ORE", "minecraft:iron_ore");
    ("GOLD_ORE", "minecraft:gold_ore");
    ("DIAMOND_ORE", "minecraft:diamond_ore");
    ("EMERALD_ORE", "minecraft:emerald_ore");
    ("LAPIS_ORE", "minecraft:lapis_ore");
    ("COPPER_ORE", "minecraft:copper_ore");
    ("DEEPSLATE_COAL_ORE", "minecraft:deepslate_coal_ore");
    ("DEEPSLATE_IRON_ORE", "minecraft:deepslate_iron_ore");
    ("DEEPSLATE_GOLD_ORE", "minecraft:deepslate_gold_ore");
    ("DEEPSLATE_DIAMOND_ORE", "minecraft:deepslate_diamond_ore");
    ("DEEPSLATE_EMERALD_ORE", "minecraft:deepslate_emerald_ore");
    ("DEEPSLATE_LAPIS_ORE", "minecraft:deepslate_lapis_ore");
    ("DEEPSLATE_COPPER_ORE", "minecraft:deepslate_copper_ore");
    ("QUARTZ_ORE", "minecraft:quartz_ore");
    ("QUARTZ_ORE", "minecraft:nether_quartz_ore");
    ("NETHER_GOLD_ORE", "minecraft:nether_gold_ore") ].

Definition log_types : list (string * string * string) :=
  [ ("OAK_LOG", "minecraft:oak_log", "LOG");
    ("SPRUCE_LOG", "minecraft:spruce_log", "LOG");
    ("BIRCH_LOG", "minecraft:birch_log", "LOG");
    ("JUNGLE_LOG", "minecraft:jungle_log", "LOG");
    ("ACACIA_LOG", "minecraft:acacia_log", "LOG2");
    ("DARK_OAK_LOG", "minecraft:dark_oak_log", "LOG2");
    ("MANGROVE_LOG", "minecraft:mangrove_log", "MANGROVE_LOG");
    ("CHERRY_LOG", "minecraft:cherry_log", "CHERRY_LOG");
    ("CRIMSON_STEM", "minecraft:crimson_stem", "CRIMSON_STEM");
    ("WARPED_STEM", "minecraft:warped_stem", "WARPED_STEM") ].

Definition leaves_types : list (string * string * string) :=
  [ ("OAK_LEAVES", "minecraft:oak_leaves", "LEAVES");
    ("SPRUCE_LEAVES", "minecraft:spruce_leaves", "LEAVES");
    ("BIRCH_LEAVES", "minecraft:birch_leaves", "LEAVES");
    ("JUNGLE_LEAVES", "minecraft:jungle_leaves", "LEAVES");
    ("ACACIA_LEAVES", "minecraft:acacia_leaves", "LEAVES2");
    ("DARK_OAK_LEAVES", "minecraft:dark_oak_leaves", "LEAVES2");
    ("MANGROVE_LEAVES", "minecraft:mangrove_leaves", "MANGROVE_LEAVES");
    ("CHERRY_LEAVES", "minecraft:cherry_leaves", "CHERRY_LEAVES") ].

(** The blocks added under [if is_block_enabled(names)]. *)
Definition enabled_blocks (configured : gmap string bool)
    (names blocks : list string) : list string :=
  if is_block_enabled configured names then blocks else [].

(** [load_vein_blocks]: the ids in the order they are added to the set. *)
Definition load_vein_blocks (configured : gmap string bool)
    (ores_enabled logs_enabled leaves_enabled : bool) : list string :=
  (if ores_enabled
   then
     (ore_types ≫= λ '(config_name, block_id),
        enabled_blocks configured [config_name] [block_id])
     ++ enabled_blocks configured ["REDSTONE_ORE"]
          ["minecraft:redstone_ore"; "minecraft:lit_redstone_ore"]
     ++ enabled_blocks configured ["DEEPSLATE_REDSTONE_ORE"]
          ["minecraft:deepslate_redstone_ore";
           "minecraft:lit_deepslate_redstone_ore"]
     ++ enabled_blocks configured ["ANCIENT_DEBRIS"] ["minecraft:ancient_debris"]
     ++ enabled_blocks configured ["AMETHYST_CLUSTER"]
          ["minecraft:amethyst_cluster"; "minecraft:large_amethyst_bud";
           "minecraft:medium_amethyst_bud"; "minecraft:small_amethyst_bud"]
   else [])
  ++ (if logs_enabled
      then log_types ≫= λ '(config_name, block_id, legacy_name),
             enabled_blocks configured [config_name; legacy_name] [block_id]
      else [])
  ++ (if leaves_enabled
      then leaves_types ≫= λ '(config_name, block_id, legacy_name),
             enabled_blocks configured [config_name; legacy_name] [block_id]
      else []).

End VeinBlocks.

(** ** The update checker's comparison of versions *)

Module Version.

(** The loop of [is_newer_version] over the parts of the two versions, from
    position [i] on for [rounds] positions. *)
Fixpoint compare_parts (current_parts latest_parts : list Z) (i rounds : nat)
    : bool :=
  match rounds with
  | O => false
  | S rounds =>
    let current_part := default 0 (current_parts !! i) in
    let latest_part := default 0 (latest_parts !! i) in
    if bool_decide (latest_part > current_part) then true
    else if bool_decide (latest_part < current_part) then false
    else compare_parts current_parts latest_parts (S i) rounds
  end.

(** [is_newer_version]. [parts] stands for
    [[int(p) for p in version.split('.')]], [None] when that raises. *)
Definition is_newer_version (parts : string → option (list Z))
    (current latest : string) : bool :=
  match parts current, parts latest with
  | Some current_parts, Some latest_parts =>
    let max_length := Nat.max (length current_parts) (length latest_parts) in
    compare_parts current_parts latest_parts 0 max_length
  | _, _ => false
  end.

(** The part of a version at a position, zero beyond its end. *)
Definition part (v : list Z) (i : nat) : Z := default 0 (v !! i).

(** [latest] is ahead of [current]: at the first position where they differ
    (a missing part counting as zero) [latest] is the larger. *)
Definition ahead (current latest : list Z) : Prop :=
  ∃ i, part current i < part latest i
       ∧ ∀ j, (j < i)%nat → part current j = part latest j.

End Version.

(** ** Dropping item stacks *)

Module Drops.
Import Text.

(** The commands [drop_item_stack] dispatches. *)
Inductive ServerCommand :=
  | Give (player_name item_id : string) (stack_amount : Z)
  | Summon (x y z : Z) (item_id : string) (stack_amount : Z).

Definition stack_amount_of (cmd : ServerCommand) : Z :=
  match cmd with
  | Give _ _ n => n
  | Summon _ _ _ _ n => n
  end.

Definition is_give (cmd : ServerCommand) : bool :=
  match cmd with Give _ _ _ => true | Summon _ _ _ _ _ => false end.

(** The [while remaining > 0] loop: the commands it dispatches, in order.
    [answers i] is what the host answers to the command dispatched as
    number [i], counted from [asked]. Each round takes at least one item off
    [remaining], so [remaining] rounds are enough.
    [dispatch_command] is taken to return and not to raise. *)
Fixpoint drop_loop (answers : nat → bool) (player_name : option string)
    (x y z : Z) (item_id : string) (rounds : nat) (remaining : Z)
    (asked : nat) : list ServerCommand :=
  match rounds with
  | O => []
  | S rounds =>
    if bool_decide (remaining > 0)
    then
      let stack_amount := Z.min 64 remaining in
      let summon := Summon x y z item_id stack_amount in
      let continue := drop_loop answers player_name x y z item_id rounds
                                (remaining - stack_amount) in
      match player_name with
      | Some name =>
        Give name item_id stack_amount ::
        (if answers asked then continue (S asked)
         else summon :: continue (S (S asked)))
      | None => summon :: continue (S asked)
      end
    else []
  end.

(** [drop_item_stack]: the commands it dispatches, in order. *)
Definition drop_item_stack (answers : nat → bool) (x y z : Z)
    (item_id : string) (amount : Z) (player_name : option string)
    : list ServerCommand :=
  if bool_decide (amount ≤ 0) then []
  else
    let namespaced_item_id :=
      if starts_with item_id "minecraft:" then item_id
      else "minecraft:" +:+ item_id in
    drop_loop answers player_name x y z namespaced_item_id
              (Z.to_nat amount) amount 0.

(** The command tried first for each stack: [give] when there is a player,
    [summon] otherwise. *)
Definition first_tries (player_name : option string) (cmds : list ServerCommand)
    : list ServerCommand :=
  filter (λ cmd, is_give cmd = bool_decide (is_Some player_name)) cmds.

Definition total (amounts : list Z) : Z := foldr Z.add 0 amounts.

End Drops.

(** ** Statistics *)

Module Stats.

(** [PlayerStats]. *)
Record PlayerStats := {
  player_name : string;
  total_veins : Z;
  total_blocks : Z;
  largest_vein : Z;
  last_mined : string
}.

(** [PlayerStats(name)]. *)
Definition new_stats (name : string) : PlayerStats :=
  {| player_name := name; total_veins := 0; total_blocks := 0;
     largest_vein := 0; last_mined := "" |}.

(** The attributes of [StatisticsTracker] that [record_vein_mine] reads and
    writes, the [needs_save] flag and the backend apart. *)
Record Tracker := {
  enabled : bool;
  milestones_enabled : bool;
  persistence_enabled : bool;
  milestone_thresholds : list Z;
  player_stats : gmap string PlayerStats;
  achieved_milestones : gmap string (gset Z)
}.

Definition set_stats (v : gmap string PlayerStats) (t : Tracker) : Tracker :=
  {| enabled := enabled t; milestones_enabled := milestones_enabled t;
     persistence_enabled := persistence_enabled t;
     milestone_thresholds := milestone_thresholds t;
     player_stats := v; achieved_milestones := achieved_milestones t |}.

Definition set_achieved (v : gmap string (gset Z)) (t : Tracker) : Tracker :=
  {| enabled := enabled t; milestones_enabled := milestones_enabled t;
     persistence_enabled := persistence_enabled t;
     milestone_thresholds := milestone_thresholds t;
     player_stats := player_stats t; achieved_milestones := v |}.

(** [ensure_milestones_loaded]. [stored uuid] is what the backend holds for
    the player; [None] when the read leaves the entry unset. *)
Definition ensure_milestones_loaded (stored : string → option (gset Z))
    (uuid : string) (t : Tracker) : Tracker :=
  match achieved_milestones t !! uuid with
  | Some _ => t
  | None =>
    if negb (persistence_enabled t) then t
    else
      match stored uuid with
      | Some milestones =>
        set_achieved (<[uuid := milestones]> (achieved_milestones t)) t
      | None => t
      end
  end.

(** The loop of [check_milestones]: the set of the player and the
    thresholds announced so far, the newest first. *)
Definition check_threshold (previous_blocks current_blocks : Z)
    (acc : gset Z * list Z) (threshold : Z) : gset Z * list Z :=
  if bool_decide (previous_blocks < threshold)
     && bool_decide (threshold ≤ current_blocks)
  then
    if bool_decide (threshold ∈ acc.1) then acc
    else ({[threshold]} ∪ acc.1, threshold :: acc.2)
  else acc.

(** [check_milestones]: the tracker afterwards and the thresholds
    announced, in order. Sending the announcement is taken not to raise;
    the threshold is added to the set before it is sent. *)
Definition check_milestones (uuid : string) (previous_blocks current_blocks : Z)
    (t : Tracker) : Tracker * list Z :=
  let achieved := default ∅ (achieved_milestones t !! uuid) in
  let '(achieved, announced) :=
    foldl (check_threshold previous_blocks current_blocks) (achieved, [])
          (milestone_thresholds t) in
  (set_achieved (<[uuid := achieved]> (achieved_milestones t)) t,
   reverse announced).

(** [record_vein_mine]; [now] is [datetime.now().isoformat()]. *)
Definition record_vein_mine (stored : string → option (gset Z))
    (uuid name : string) (block_count : Z) (now : string) (t : Tracker)
    : Tracker * list Z :=
  if negb (enabled t) then (t, [])
  else
    let stats := default (new_stats name) (player_stats t !! uuid) in
    let t := ensure_milestones_loaded stored uuid t in
    let previous_blocks := total_blocks stats in
    let stats :=
      {| player_name := name;
         total_veins := total_veins stats + 1;
         total_blocks := total_blocks stats + block_count;
         largest_vein := if bool_decide (largest_vein stats < block_count)
                         then block_count else largest_vein stats;
         last_mined := now |} in
    let t := set_stats (<[uuid := stats]> (player_stats t)) t in
    if milestones_enabled t
    then check_milestones uuid previous_blocks (total_blocks stats) t
    else (t, []).

(** A run of recordings for one player, each with its block count and its
    reading of the clock; the announcements of all of them, in order. *)
Fixpoint record_all (stored : string → option (gset Z)) (uuid name : string)
    (events : list (Z * string)) (t : Tracker) : Tracker * list Z :=
  match events with
  | [] => (t, [])
  | (block_count, now) :: events =>
    let '(t, first) := record_vein_mine stored uuid name block_count now t in
    let '(t, rest) := record_all stored uuid name events t in
    (t, first ++ rest)
  end.

(** The blocks of a run of recordings, and the largest vein after it. *)
Definition blocks_in (events : list (Z * string)) : Z :=
  foldr (λ e n, e.1 + n) 0 events.

Definition largest_in (start : Z) (events : list (Z * string)) : Z :=
  foldl (λ m e, Z.max m e.1) start events.

(** The statistics of a player as [get_stats] gives them. *)
Definition get_stats (uuid name : string) (t : Tracker) : PlayerStats :=
  default (new_stats name) (player_stats t !! uuid).

(** A tracker with nothing recorded and the milestones of the default
    configuration. *)
Definition plain_tracker : Tracker :=
  {| enabled := true; milestones_enabled := true; persistence_enabled := false;
     milestone_thresholds := [100; 500; 1000; 5000; 10000];
     player_stats := ∅; achieved_milestones := ∅ |}.

(** What is known of the player's milestones when a recording starts: the
    set in memory, or else the one the backend holds. *)
Definition known_milestones (stored : string → option (gset Z))
    (uuid : string) (t : Tracker) : gset Z :=
  default ∅ (achieved_milestones (ensure_milestones_loaded stored uuid t)
             !! uuid).

End Stats.

(** ** Housekeeping: reload, cache cleanup, daily reset *)

Module Maintenance.
Import Engine.

(** What [reload_configuration] does to the attributes of the plugin. *)
Definition reload_configuration (p : Plugin) : Plugin :=
  {| last_vein_mine := ∅;
     processing_vein := ∅;
     last_error_message := ∅;
     last_cooldown_message := ∅;
     daily_vein_count := daily_vein_count p;
     daily_block_count := daily_block_count p;
     minute_vein_count := minute_vein_count p;
     blocked_players := blocked_players p;
     tool_validation_cache := ∅;
     neighbor_offsets := None;
     disabled_players := disabled_players p |}.

Definition MAX_CACHE_SIZE : nat := 1000.

(** The entries that are not older than five minutes. *)
Definition fresh_entries (current_time : Z) (m : gmap string Z) : gmap string Z :=
  filter (λ kv, ¬ current_time - kv.2 > 300000) m.

(** [cleanup_cache], the task scheduled every 30 minutes. *)
Definition cleanup_cache (current_time : Z) (p : Plugin) : Plugin :=
  {| last_vein_mine := fresh_entries current_time (last_vein_mine p);
     processing_vein := processing_vein p;
     last_error_message := fresh_entries current_time (last_error_message p);
     last_cooldown_message :=
       fresh_entries current_time (last_cooldown_message p);
     daily_vein_count := daily_vein_count p;
     daily_block_count := daily_block_count p;
     minute_vein_count := minute_vein_count p;
     blocked_players := blocked_players p;
     tool_validation_cache :=
       if bool_decide (MAX_CACHE_SIZE < size (tool_validation_cache p))%nat
       then ∅ else tool_validation_cache p;
     neighbor_offsets := neighbor_offsets p;
     disabled_players := disabled_players p |}.

(** [reset_daily_limits], the task scheduled every 24 hours. *)
Definition reset_daily_limits (p : Plugin) : Plugin :=
  set_daily_block_count ∅ (set_daily_vein_count ∅ p).

(** The cooldown test of [on_block_break]. *)
Definition on_cooldown (c : Config) (player_id : string) (current_time : Z)
    (p : Plugin) : bool :=
  bool_decide (current_time - default 0 (last_vein_mine p !! player_id)
               < cooldown_ms c).

End Maintenance.

(** ** The [/veinminer] command *)

Module Command.
Import Text Engine Maintenance.

(** Who sends the command: [sender_id] is its [unique_id], which only a
    player has. *)
Record Sender := {
  sender_id : option string;
  sender_permission : string → bool
}.

(** What the sender is told. *)
Inductive Reply :=
  | NoCommandPermission
  | DetailedHelp
  | NoReloadPermission
  | PlayersOnly
  | NoStatsPermission
  | FormattedStats
  | NoTogglePermission
  | AlreadyEnabled
  | AlreadyDisabled
  | NoChainPermission
  | NoStatusPermission
  | Status (is_enabled : bool)
  | UnknownSubcommand (subcommand : string)
  | Message (message_key : string)     (* [plugin.send_message] *)
  | ErrorOccurred.                     (* the [except] clause *)

Definition set_disabled_players (v : gset string) (p : Plugin) : Plugin :=
  {| last_vein_mine := last_vein_mine p;
     processing_vein := processing_vein p;
     last_error_message := last_error_message p;
     last_cooldown_message := last_cooldown_message p;
     daily_vein_count := daily_vein_count p;
     daily_block_count := daily_block_count p;
     minute_vein_count := minute_vein_count p;
     blocked_players := blocked_players p;
     tool_validation_cache := tool_validation_cache p;
     neighbor_offsets := neighbor_offsets p;
     disabled_players := v |}.

(** The guards shared by the subcommands of a player. *)
Definition as_player (sender : Sender) (permission : string) (denied : Reply)
    (st : Config * Plugin)
    (k : string → (Config * Plugin) * list Reply)
    : (Config * Plugin) * list Reply :=
  match sender_id sender with
  | None => (st, [PlayersOnly])
  | Some uuid =>
    if negb (sender_permission sender permission) then (st, [denied])
    else k uuid
  end.

(** [handle_command]: the configuration and the plugin afterwards, and the
    replies. [fresh] is the configuration that [load_config] and
    [load_vein_blocks] read at a reload. The plugin has no attribute
    [chain_mining_enabled], so reading it raises, and the [except] clause
    answers. The calls to [has_permission], [send_message] and
    [reload_configuration] are taken not to raise; every change of
    [disabled_players] precedes the reply.
    [get_stats] may add an empty entry to the tracker, which is no part of
    this state. *)
Definition handle_command (fresh : Config) (sender : Sender)
    (args : list string) (st : Config * Plugin)
    : (Config * Plugin) * list Reply :=
  if negb (sender_permission sender "veinminer.command")
  then (st, [NoCommandPermission])
  else
    match args with
    | [] => (st, [DetailedHelp])
    | arg :: _ =>
      let subcommand := lower arg in
      let p := st.2 in
      if bool_decide (subcommand ∈ ["help"; "?"]) then (st, [DetailedHelp])
      else if bool_decide (subcommand ∈ ["reload"; "rl"]) then
        if negb (sender_permission sender "veinminer.reload")
        then (st, [NoReloadPermission])
        else ((fresh, reload_configuration p), [Message "reload-success"])
      else if bool_decide (subcommand ∈ ["stats"; "statistics"]) then
        as_player sender "veinminer.stats" NoStatsPermission st
          (λ _, (st, [FormattedStats]))
      else if bool_decide (subcommand ∈ ["toggle"; "t"]) then
        as_player sender "veinminer.toggle" NoTogglePermission st (λ uuid,
          if bool_decide (uuid ∈ disabled_players p)
          then ((st.1, set_disabled_players (disabled_players p ∖ {[uuid]}) p),
                [Message "toggle-enabled"])
          else ((st.1, set_disabled_players ({[uuid]} ∪ disabled_players p) p),
                [Message "toggle-disabled"]))
      else if bool_decide (subcommand ∈ ["on"; "enable"]) then
        as_player sender "veinminer.toggle" NoTogglePermission st (λ uuid,
          if bool_decide (uuid ∉ disabled_players p)
          then (st, [AlreadyEnabled])
          else ((st.1, set_disabled_players (disabled_players p ∖ {[uuid]}) p),
                [Message "toggle-enabled"]))
      else if bool_decide (subcommand ∈ ["off"; "disable"]) then
        as_player sender "veinminer.toggle" NoTogglePermission st (λ uuid,
          if bool_decide (uuid ∈ disabled_players p)
          then (st, [AlreadyDisabled])
          else ((st.1, set_disabled_players ({[uuid]} ∪ disabled_players p) p),
                [Message "toggle-disabled"]))
      else if bool_decide (subcommand ∈ ["chain"]) then
        as_player sender "veinminer.chain" NoChainPermission st
          (λ _, (st, [ErrorOccurred]))
      else if bool_decide (subcommand ∈ ["status"; "info"]) then
        as_player sender "veinminer.toggle" NoStatusPermission st (λ uuid,
          (st, [Status (bool_decide (uuid ∉ disabled_players p))]))
      else (st, [UnknownSubcommand subcommand])
    end.

(** A player who holds every permission. *)
Definition operator (uuid : string) : Sender :=
  {| sender_id := Some uuid; sender_permission := λ _, true |}.

End Command.

(** ** Outcomes of the handler *)

Module Outcome.
Import Engine.

(** What holds of the outcome of running [m] from [s]. *)
Definition post {A} (m : Act A) (s : Sys) (Q : Step A → Sys → Prop) : Prop :=
  Q (m s).1 (m s).2.

(** The host but for what the player was shown. *)
Definition same_game (h h' : Host) : Prop :=
  world h' = world h ∧ main_hand h' = main_hand h ∧
  inventory h' = inventory h ∧ experience h' = experience h ∧
  is_cancelled h' = is_cancelled h ∧ recorded h' = recorded h.

(** The quotas and the toggles of the plugin. *)
Definition same_quotas (p p' : Plugin) : Prop :=
  daily_vein_count p' = daily_vein_count p ∧
  daily_block_count p' = daily_block_count p ∧
  disabled_players p' = disabled_players p.

End Outcome.

(** ** Scenes for the examples of the handler *)

Module Scenes.
Import Tools Discovery Engine Handler Samples.

(** A sneaking player who holds every permission. *)
Definition steve : Player :=
  {| unique_id := "steve"; has_permission := λ _, true; is_sneaking := true;
     level_name := "world" |}.

(** Surroundings in which every clock reading is [t] and no call raises. *)
Definition calm (t : Z) : Env :=
  {| clock := {| at_blocked_check := t; at_rate_check := t; at_blocking := t;
                 at_cooldown_check := t; at_usage := t; at_finish := t;
                 at_error := t |};
     raises := λ _, false |}.

(** The row of iron ore, and the player with a pickaxe in hand. *)
Definition iron_site : Host :=
  {| world := iron_row_world; main_hand := Some fortune_pickaxe;
     inventory := ∅; experience := 0; is_cancelled := false; shown := [];
     recorded := [] |}.

Definition at_rest (p : Plugin) : Sys :=
  {| plugin := p; host := iron_site |}.

Definition iron_break : Event :=
  {| event_player := Some steve; event_block := Some iron_start |}.

(** One vein a minute, five minutes of block. *)
Definition strict : Config := with_anti_abuse default_config 1 5 100.

End Scenes.

(** * Properties *)

(** ** Neighbor Pattern Builder *)

Module NeighborsFacts.
Import Neighbors.

Lemma elem_of_py_range lo hi k : k ∈ py_range lo hi ↔ lo ≤ k < hi.
Proof. unfold py_range. rewrite elem_of_seqZ. lia. Qed.

Lemma NoDup_py_range lo hi : NoDup (py_range lo hi).
Proof. apply NoDup_seqZ. Qed.

Lemma elem_of_guard {A} (b : bool) (x y : A) :
  y ∈ (if b then [x] else []) ↔ b = true ∧ y = x.
Proof.
  destruct b.
  - rewrite list_elem_of_singleton. split; [by intros -> | by intros [_ ->]].
  - split; [by intros ?%not_elem_of_nil | by intros [? _]].
Qed.

Lemma NoDup_guard {A} (b : bool) (x : A) : NoDup (if b then [x] else []).
Proof. destruct b; [apply NoDup_singleton | apply NoDup_nil_2]. Qed.

Lemma elem_of_cube_loop r keep dx dy dz :
  (dx, dy, dz) ∈ cube_loop r keep
  ↔ in_box r (dx, dy, dz) ∧ keep dx dy dz = true.
Proof.
  unfold cube_loop, in_box. split.
  - intros (x & (y & (z & Hz & Hin)%list_elem_of_bind & Hy)%list_elem_of_bind & Hx)%list_elem_of_bind.
    apply elem_of_guard in Hz as [Hk [= -> -> ->]].
    apply elem_of_py_range in Hx, Hy, Hin. split; [lia | done].
  - intros [(? & ? & ?) Hk].
    apply list_elem_of_bind. exists dx. split; [|apply elem_of_py_range; lia].
    apply list_elem_of_bind. exists dy. split; [|apply elem_of_py_range; lia].
    apply list_elem_of_bind. exists dz. split; [|apply elem_of_py_range; lia].
    rewrite Hk. apply list_elem_of_singleton. done.
Qed.

Lemma NoDup_cube_loop r keep : NoDup (cube_loop r keep).
Proof.
  unfold cube_loop.
  apply NoDup_bind; [| |apply NoDup_py_range].
  - intros x1 x2 [[a b] c] _ _ H1 H2.
    apply list_elem_of_bind in H1 as (y1 & (z1 & [_ [= -> _ _]]%elem_of_guard & _)%list_elem_of_bind & _).
    apply list_elem_of_bind in H2 as (y2 & (z2 & [_ [= -> _ _]]%elem_of_guard & _)%list_elem_of_bind & _).
    done.
  - intros x _. apply NoDup_bind; [| |apply NoDup_py_range].
    + intros y1 y2 [[a b] c] _ _ H1 H2.
      apply list_elem_of_bind in H1 as (z1 & [_ [= _ -> _]]%elem_of_guard & _).
      apply list_elem_of_bind in H2 as (z2 & [_ [= _ -> _]]%elem_of_guard & _).
      done.
    + intros y _. apply NoDup_bind; [| |apply NoDup_py_range].
      * intros z1 z2 [[a b] c] _ _ [_ [= _ _ ->]]%elem_of_guard [_ [= _ _ ->]]%elem_of_guard.
        done.
      * intros z _. apply NoDup_guard.
Qed.

Lemma pattern_cases c :
  valid_pattern_config c →
  mining_pattern c = "adjacent" ∨ mining_pattern c = "cube"
  ∨ mining_pattern c = "sphere" ∨ mining_pattern c = "vertical"
  ∨ mining_pattern c = "horizontal".
Proof.
  intros [Hp _]. repeat (apply elem_of_cons in Hp as [Hp|Hp]; [tauto|]).
  by apply not_elem_of_nil in Hp.
Qed.

Lemma is_origin_false dx dy dz :
  negb (is_origin dx dy dz) = true ↔ (dx, dy, dz) ≠ (0, 0, 0).
Proof.
  unfold is_origin. rewrite negb_true_iff, !andb_false_iff, !bool_decide_eq_false.
  split; [intros H [= -> -> ->]; tauto|].
  intros H. destruct (decide (dx = 0)) as [->|]; [|tauto].
  destruct (decide (dy = 0)) as [->|]; [|tauto].
  destruct (decide (dz = 0)) as [->|]; tauto.
Qed.

(** Before the cap, the loops produce exactly the offsets of the rule. *)
Lemma elem_of_uncapped_offsets c o :
  valid_pattern_config c → o ∈ uncapped_offsets c ↔ pattern_rule c o.
Proof.
  intros Hv. destruct o as [[dx dy] dz].
  unfold uncapped_offsets, pattern_rule.
  destruct (pattern_cases c Hv) as [E|[E|[E|[E|E]]]]; rewrite E; simpl.
  - rewrite elem_of_cube_loop, andb_true_iff, is_origin_false.
    unfold in_box, NEIGHBOR_RANGE. destruct (include_diagonals c); simpl.
    + split; intros ?; destruct_and?; split_and?; done.
    + rewrite negb_true_iff, bool_decide_eq_false.
      split; intros ?; destruct_and?; split_and?; try done.
      * intros _. lia.
      * match goal with H : false = false → _ |- _ => specialize (H eq_refl) end.
        lia.
  - rewrite elem_of_cube_loop, is_origin_false. unfold in_box. tauto.
  - rewrite elem_of_cube_loop, andb_true_iff, is_origin_false, bool_decide_eq_true.
    unfold in_box. tauto.
  - rewrite list_elem_of_bind. split.
    + intros (y & [Hy [= -> -> ->]]%elem_of_guard & Hr).
      apply bool_decide_eq_true in Hy. apply elem_of_py_range in Hr.
      split; [intros [=]; done|]. simpl. lia.
    + simpl. intros (Hne & -> & -> & ?). exists dy. split.
      * apply elem_of_guard. split; [|done]. apply bool_decide_eq_true.
        intros ->. done.
      * apply elem_of_py_range. lia.
  - rewrite list_elem_of_bind. unfold in_box. simpl. split.
    + intros (x & (z & Hz & Hzr)%list_elem_of_bind & Hxr).
      apply elem_of_py_range in Hzr, Hxr.
      destruct (bool_decide (x = 0) && bool_decide (z = 0)) eqn:E0;
        [by apply not_elem_of_nil in Hz|].
      apply andb_false_iff in E0. rewrite !bool_decide_eq_false in E0.
      destruct (negb (include_diagonals c) && bool_decide (Z.abs x + Z.abs z ≠ 1)) eqn:E1;
        [by apply not_elem_of_nil in Hz|].
      apply list_elem_of_singleton in Hz as [= -> -> ->].
      split; [intros [=]; tauto|]. split; [done|]. split; [lia|].
      intros Hd. rewrite Hd in E1. simpl in E1.
      apply bool_decide_eq_false in E1. lia.
    + intros (Hne & -> & ? & Hd). exists dx. split; [|apply elem_of_py_range; lia].
      apply list_elem_of_bind. exists dz. split; [|apply elem_of_py_range; lia].
      assert (bool_decide (dx = 0) && bool_decide (dz = 0) = false) as ->.
      { apply andb_false_iff. rewrite !bool_decide_eq_false.
        destruct (decide (dx = 0)) as [->|]; [right|tauto]. intros ->. done. }
      destruct (include_diagonals c); simpl; [apply list_elem_of_singleton; done|].
      rewrite bool_decide_eq_false_2; [apply list_elem_of_singleton; done|].
      specialize (Hd eq_refl). lia.
Qed.

Lemma NoDup_uncapped_offsets c : NoDup (uncapped_offsets c).
Proof.
  unfold uncapped_offsets.
  repeat (match goal with |- NoDup (if ?b then _ else _) => destruct b end);
    try apply NoDup_cube_loop.
  - apply NoDup_bind; [| |apply NoDup_py_range].
    + intros y1 y2 [[a b] d] _ _ [_ [= _ -> _]]%elem_of_guard [_ [= _ -> _]]%elem_of_guard.
      done.
    + intros y _. apply NoDup_guard.
  - assert (∀ x z o, o ∈ (if bool_decide (x = 0) && bool_decide (z = 0) then []
        else if negb (include_diagonals c) && bool_decide (Z.abs x + Z.abs z ≠ 1)
             then [] else [(x, 0, z)]) → o = (x, 0, z)) as Hin.
    { intros x z o. repeat case_match; rewrite ?list_elem_of_singleton; try done;
        by intros ?%not_elem_of_nil. }
    apply NoDup_bind; [| |apply NoDup_py_range].
    + intros x1 x2 o _ _ (z1 & ->%Hin & _)%list_elem_of_bind (z2 & [= -> _]%Hin & _)%list_elem_of_bind.
      done.
    + intros x _. apply NoDup_bind; [| |apply NoDup_py_range].
      * intros z1 z2 o _ _ ->%Hin [= ->]%Hin. done.
      * intros z _. repeat case_match; try apply NoDup_nil_2. apply NoDup_singleton.
Qed.

Lemma Z_interval_ind (P : Z → Prop) lo hi :
  Forall P (seqZ lo (hi - lo + 1)) → ∀ x, lo ≤ x ≤ hi → P x.
Proof. rewrite Forall_seqZ. intros H x ?. apply H. lia. Qed.

Ltac by_interval x lo hi fin :=
  let H := fresh in
  assert (H : lo ≤ x ≤ hi) by lia; revert H;
  generalize x; apply Z_interval_ind;
  repeat (first [apply Forall_nil_2 | apply Forall_cons_2]); fin.

Ltac by_length := apply Nat.leb_le; vm_compute; reflexivity.

(** When the pattern fits, the cap cuts nothing. *)
Lemma uncapped_length_fits c :
  valid_pattern_config c → fits_cap c → (length (uncapped_offsets c) ≤ 512)%nat.
Proof.
  intros Hv Hf. pose proof (pattern_cases c Hv) as Hp.
  destruct Hv as (_ & Hr & Hvr & Hhr). unfold fits_cap in Hf.
  unfold uncapped_offsets.
  destruct Hp as [E | [E | [E | [E | E]]]]; rewrite E in *; simpl in *.
  - destruct (include_diagonals c); by_length.
  - by_interval (pattern_radius c) 1 3 by_length.
  - by_interval (pattern_radius c) 1 4 by_length.
  - by_interval (vertical_range c) 1 16 by_length.
  - destruct (include_diagonals c); simpl.
    + destruct Hf as [?|?]; [done|]. by_interval (horizontal_range c) 1 10 by_length.
    + by_interval (horizontal_range c) 1 16 by_length.
Qed.

(** When it does not fit, the last offset of the loops is cut. *)
Lemma uncapped_overflow c :
  valid_pattern_config c → ¬ fits_cap c →
  ∃ o, pattern_rule c o ∧ o ∉ take 512 (uncapped_offsets c).
Proof.
  intros Hv Hf. pose proof (pattern_cases c Hv) as Hp.
  destruct Hv as (_ & Hr & Hvr & Hhr).
  unfold fits_cap in Hf. unfold pattern_rule, uncapped_offsets.
  destruct Hp as [E | [E | [E | [E | E]]]]; rewrite E in *; simpl in *;
    try tauto.
  - exists (pattern_radius c, pattern_radius c, pattern_radius c).
    split; [split; [intros [=]; lia | unfold in_box; lia]|].
    apply (bool_decide_eq_false _).
    by_interval (pattern_radius c) 4 6 ltac:(vm_compute; reflexivity).
  - exists (pattern_radius c, 0, 0).
    split; [split; [intros [=]; lia | unfold in_box, norm_sq; split; lia]|].
    apply (bool_decide_eq_false _).
    by_interval (pattern_radius c) 5 6 ltac:(vm_compute; reflexivity).
  - destruct (include_diagonals c) eqn:Ed; [|tauto]. simpl.
    exists (horizontal_range c, 0, horizontal_range c).
    split; [split; [intros [=]; lia | unfold in_box; simpl; split_and?; try lia; done]|].
    apply (bool_decide_eq_false _).
    by_interval (horizontal_range c) 11 16 ltac:(vm_compute; reflexivity).
Qed.

Lemma build_neighbor_offsets_take c :
  build_neighbor_offsets c = take 512 (uncapped_offsets c).
Proof.
  unfold build_neighbor_offsets. case_bool_decide; [done|].
  symmetry. apply take_ge. lia.
Qed.

(** C8 (amended). For every valid configuration the offsets contain no zero
    offset and no duplicate, are at most 512, and each of them obeys the rule
    of the configured pattern. They are all of the rule's offsets exactly
    when the pattern has at most 512 of them: always for [adjacent] and
    [vertical], for [cube] up to radius 3, for [sphere] up to radius 4, and
    for [horizontal] without diagonals or up to range 10; otherwise the cap
    keeps the first 512 in loop order and drops the rest: the output is the
    first 512 entries of the list the loops build, which holds each offset
    of the rule once and nothing else. *)
Theorem build_neighbor_offsets_rule_up_to_cap c :
  valid_pattern_config c →
  ((0, 0, 0) ∉ build_neighbor_offsets c)
  ∧ NoDup (build_neighbor_offsets c)
  ∧ (length (build_neighbor_offsets c) ≤ 512)%nat
  ∧ (∃ cut, uncapped_offsets c = build_neighbor_offsets c ++ cut)
  ∧ (∀ o, o ∈ build_neighbor_offsets c → pattern_rule c o)
  ∧ (fits_cap c ↔ ∀ o, pattern_rule c o → o ∈ build_neighbor_offsets c)
  ∧ build_neighbor_offsets c = take 512 (uncapped_offsets c)
  ∧ NoDup (uncapped_offsets c)
  ∧ (∀ o, o ∈ uncapped_offsets c ↔ pattern_rule c o).
Proof.
  intros Hv.
  assert (build_neighbor_offsets c = take 512 (uncapped_offsets c)) as Htake
    by apply build_neighbor_offsets_take.
  rewrite Htake.
  assert (∀ o, o ∈ take 512 (uncapped_offsets c) → pattern_rule c o) as Hsound.
  { intros o Ho%subseteq_take. by apply elem_of_uncapped_offsets. }
  split_and!; [.. |done|apply NoDup_uncapped_offsets
              |intros o; by apply elem_of_uncapped_offsets].
  - intros H%Hsound. by destruct H as [H _].
  - eapply sublist_NoDup; [apply NoDup_uncapped_offsets | apply sublist_take].
  - rewrite length_take. lia.
  - exists (drop 512 (uncapped_offsets c)). by rewrite take_drop.
  - done.
  - split.
    + intros Hf o Ho. rewrite take_ge by (by apply uncapped_length_fits).
      by apply elem_of_uncapped_offsets.
    + intros Hall. destruct (decide (fits_cap c)) as [|Hn]; [done|].
      destruct (uncapped_overflow c Hv Hn) as (o & Ho & Hout).
      by apply Hall in Ho.
Qed.

Lemma build_neighbor_offsets_rule_up_to_cap_witness :
  valid_pattern_config sphere5
  ∧ NoDup (build_neighbor_offsets sphere5)
  ∧ (length (build_neighbor_offsets sphere5) ≤ 512)%nat.
Proof.
  assert (valid_pattern_config sphere5) as Hv.
  { split; [|simpl; lia]. simpl. rewrite !elem_of_cons. tauto. }
  split; [exact Hv|].
  destruct (build_neighbor_offsets_rule_up_to_cap sphere5 Hv)
    as (_ & Hnd & Hlen & _).
  split; [exact Hnd | exact Hlen].
Defined.

(** C8 as stated fails for the sphere of radius 5: its rule has 514 offsets,
    and [(5, 0, 0)], the last one the loops produce, is cut by the cap. *)
Lemma sphere5_misses_rule_offset :
  valid_pattern_config sphere5
  ∧ ¬ (∀ o, o ∈ build_neighbor_offsets sphere5 ↔ pattern_rule sphere5 o).
Proof.
  split.
  - split; [|simpl; lia]. simpl. rewrite !elem_of_cons. tauto.
  - intros H. specialize (H (5, 0, 0)).
    assert (pattern_rule sphere5 (5, 0, 0)) as Hr.
    { split; [done|]. simpl. lia. }
    apply H in Hr. revert Hr.
    apply (bool_decide_eq_false_1 _). vm_compute. reflexivity.
Qed.

End NeighborsFacts.

(** ** Vein Discovery *)

Module DiscoveryFacts.
Import Discovery.

Section Search.
Context (c : Config) (neighbors : list (Z * Z * Z)) (dim : Dimension)
        (start : Block).

Abbreviation type := (block_type start).
Abbreviation origin := (block_pos start).
Abbreviation loop := (search_loop c neighbors dim start).

(** *** Termination: the iteration counter bounds the number of rounds *)

Lemma search_loop_total fuel s :
  (Z.to_nat (max_iterations c - iterations s) < fuel)%nat →
  is_Some (loop fuel s).
Proof.
  revert s. induction fuel as [|fuel IH]; intros s Hfuel; [lia|].
  simpl. destruct (queue s) as [|cur rest]; [by eexists|].
  case_bool_decide; simpl; [|by eexists].
  case_bool_decide; [by eexists|].
  assert (∀ q vis v, is_Some (loop fuel
    {| queue := q; visited := vis; vein := v; iterations := iterations s + 1 |}))
    as Hnext.
  { intros. apply IH. simpl. lia. }
  case_bool_decide; [apply Hnext|].
  destruct (dim cur) as [t|]; [|apply Hnext].
  destruct (String.eqb t type); simpl; [|apply Hnext].
  case_bool_decide; [by eexists|].
  destruct (foldl _ _ _). apply Hnext.
Qed.

Lemma find_vein_returns :
  search_loop c neighbors dim start (search_fuel c) (initial_search start)
  = Some (find_vein c neighbors dim start).
Proof.
  unfold find_vein.
  destruct (search_loop_total (search_fuel c) (initial_search start)) as [v ->];
    [|done].
  unfold search_fuel. simpl. rewrite Z.sub_0_r. lia.
Qed.

(** *** One pass over the neighbor offsets *)

Lemma visit_neighbor_spec cur vis q d :
  ∃ new, visit_neighbor dim type cur (vis, q) d
         = ((if outside_world_height (shift cur d) then ∅ else {[shift cur d]}) ∪ vis,
            q ++ new)
    ∧ new = (if outside_world_height (shift cur d) then []
             else if bool_decide (shift cur d ∈ vis) then []
             else if bool_decide (dim (shift cur d) = Some type)
                  then [shift cur d] else []).
Proof.
  unfold visit_neighbor. simpl.
  destruct (outside_world_height (shift cur d)).
  { exists []. rewrite app_nil_r, (left_id_L ∅ (∪)). done. }
  case_bool_decide as Hvis.
  { exists []. rewrite app_nil_r. split; [|done]. f_equal. set_solver. }
  destruct (dim (shift cur d)) as [t|] eqn:Hd.
  - destruct (String.eqb t type) eqn:Ht.
    + apply String.eqb_eq in Ht as ->. rewrite bool_decide_eq_true_2 by done.
      by eexists.
    + apply String.eqb_neq in Ht. rewrite bool_decide_eq_false_2 by congruence.
      exists []. by rewrite app_nil_r.
  - rewrite bool_decide_eq_false_2 by done. exists []. by rewrite app_nil_r.
Qed.

Lemma visit_fold cur ds vis q :
  ∃ new,
    foldl (visit_neighbor dim type cur) (vis, q) ds
    = (list_to_set (filter (λ p, outside_world_height p = false) (shift cur <$> ds)) ∪ vis,
       q ++ new)
    ∧ NoDup new
    ∧ (∀ p, p ∈ new ↔
         (p ∉ vis) ∧ dim p = Some type ∧ outside_world_height p = false
         ∧ ∃ d, d ∈ ds ∧ p = shift cur d).
Proof.
  revert vis q. induction ds as [|d ds IH]; intros vis q.
  { exists []. simpl. rewrite app_nil_r.
    rewrite (left_id_L ∅ (∪)). split_and!; [done|apply NoDup_nil_2|].
    intros p. split; [by intros ?%not_elem_of_nil|].
    intros (_ & _ & _ & d & ?%not_elem_of_nil & _). done. }
  cbn [foldl]. destruct (visit_neighbor_spec cur vis q d) as (new1 & -> & Hnew1).
  destruct (IH ((if outside_world_height (shift cur d) then ∅ else {[shift cur d]}) ∪ vis)
               (q ++ new1)) as (new2 & -> & Hnd2 & Hin2).
  exists (new1 ++ new2). split_and!.
  - rewrite <-(assoc_L (++)). f_equal. rewrite fmap_cons, filter_cons.
    destruct (outside_world_height (shift cur d)) eqn:Ho.
    + rewrite decide_False by done. set_solver.
    + rewrite decide_True by done. rewrite list_to_set_cons. set_solver.
  - apply NoDup_app. split_and!; [|  |done].
    + subst new1. repeat case_match; try apply NoDup_nil_2. apply NoDup_singleton.
    + intros p Hp1 Hp2. apply Hin2 in Hp2 as (Hnot & _).
      subst new1. repeat case_match; try by apply not_elem_of_nil in Hp1.
      apply list_elem_of_singleton in Hp1 as ->. set_solver.
  - intros p. rewrite elem_of_app, Hin2. subst new1. split.
    + intros [Hp|(Hnot & Hd & Ho & d' & Hd' & ->)].
      * repeat case_match; try by apply not_elem_of_nil in Hp.
        apply list_elem_of_singleton in Hp as ->.
        repeat match goal with H : bool_decide _ = _ |- _ =>
          first [apply bool_decide_eq_true in H | apply bool_decide_eq_false in H] end.
        split_and!; try done. exists d. split; [left|done].
      * split_and!; try done; [set_solver|]. exists d'. split; [by right|done].
    + intros (Hnot & Hd & Ho & d' & Hd' & ->).
      apply elem_of_cons in Hd' as [->|Hd'].
      * left. rewrite Ho, bool_decide_eq_false_2, bool_decide_eq_true_2 by done.
        by apply list_elem_of_singleton.
      * destruct (decide (shift cur d' = shift cur d)) as [Heq|Hne].
        -- left. rewrite <-Heq, Ho, bool_decide_eq_false_2, bool_decide_eq_true_2 by done.
           by apply list_elem_of_singleton.
        -- right. split_and!; try done; [|by exists d'].
           destruct (outside_world_height (shift cur d)); set_solver.
Qed.

(** *** The bounds of the vein *)

Lemma outside_world_height_false p :
  outside_world_height p = false ↔ within_world_height p.
Proof.
  unfold outside_world_height, within_world_height.
  rewrite orb_false_iff, !bool_decide_eq_false. lia.
Qed.

Lemma initial_search_inv : search_inv c dim start (initial_search start).
Proof.
  split; simpl.
  - intros p ->%list_elem_of_singleton. set_solver.
  - apply NoDup_singleton.
  - apply Forall_singleton. by left.
  - apply Forall_nil_2.
  - lia.
Qed.

Lemma skip_inv s cur rest it :
  queue s = cur :: rest → search_inv c dim start s →
  search_inv c dim start
    {| queue := rest; visited := visited s; vein := vein s; iterations := it |}.
Proof.
  intros Hq [Hvis Hnd Hqu Hve Hsz]. rewrite Hq in *. split; simpl; try done.
  - intros p Hp. apply Hvis. rewrite elem_of_app in *.
    destruct Hp as [?|?]; [by left | right; by right].
  - apply NoDup_app in Hnd as (? & Hdisj & [_ ?]%NoDup_cons).
    apply NoDup_app. split_and!; try done.
    intros p Hp Hr. apply (Hdisj p Hp). by right.
  - by apply Forall_cons in Hqu as [_ ?].
Qed.

Lemma added_block_sound s cur rest t :
  queue s = cur :: rest → search_inv c dim start s →
  ¬ dist_sq origin cur > max_reach_distance c * max_reach_distance c →
  dim cur = Some t → String.eqb t type = true →
  sound_block c dim start {| block_type := t; block_pos := cur |}.
Proof.
  intros Hq [_ _ Hqu _ _] Hdist Hdim ->%String.eqb_eq. rewrite Hq in Hqu.
  apply Forall_cons in Hqu as [Hcur _].
  unfold sound_block, within_reach. simpl. split_and!; done.
Qed.

Lemma expand_inv s cur rest t it new :
  queue s = cur :: rest → search_inv c dim start s →
  sound_block c dim start {| block_type := t; block_pos := cur |} →
  Z.of_nat (length (vein s ++ [{| block_type := t; block_pos := cur |}]))
    < max_blocks c →
  NoDup new →
  (∀ p, p ∈ new ↔ (p ∉ visited s) ∧ dim p = Some type
                  ∧ outside_world_height p = false
                  ∧ ∃ d, d ∈ neighbors ∧ p = shift cur d) →
  search_inv c dim start
    {| queue := rest ++ new;
       visited := list_to_set (filter (λ p, outside_world_height p = false)
                                      (shift cur <$> neighbors)) ∪ visited s;
       vein := vein s ++ [{| block_type := t; block_pos := cur |}];
       iterations := it |}.
Proof.
  intros Hq [Hvis Hnd Hqu Hve Hsz] Hsound Hlen Hndn Hnew. rewrite Hq in *.
  assert (∀ p, p ∈ ((block_pos <$> vein s ++ [{| block_type := t; block_pos := cur |}])
                    ++ rest ++ new)
               ↔ p ∈ ((block_pos <$> vein s) ++ cur :: rest) ∨ p ∈ new) as Hmem.
  { intros p. rewrite fmap_app. simpl.
    rewrite !elem_of_app, !elem_of_cons, elem_of_nil. tauto. }
  split; simpl.
  - intros p [Hp|Hp]%Hmem; [set_solver|].
    apply Hnew in Hp as (_ & _ & Ho & d & Hd & ->).
    apply elem_of_union_l, elem_of_list_to_set, list_elem_of_filter.
    split; [done|]. by apply list_elem_of_fmap_2.
  - rewrite fmap_app. simpl. rewrite <-(assoc_L (++)). simpl.
    rewrite (assoc_L (++) _ (cur :: rest) new) .
    apply NoDup_app. split_and!; try done.
    intros p Hp Hn. apply Hnew in Hn as (Hnot & _). by apply Hvis in Hp.
  - apply Forall_app. split; [by apply Forall_cons in Hqu as [_ ?]|].
    apply Forall_forall. intros p (_ & _ & Ho & _)%Hnew. right.
    by apply outside_world_height_false.
  - apply Forall_app. split; [done|]. by apply Forall_singleton.
  - lia.
Qed.

Lemma search_loop_bounds fuel s v :
  search_inv c dim start s → loop fuel s = Some v →
  Forall (sound_block c dim start) v
  ∧ NoDup (block_pos <$> v)
  ∧ Z.of_nat (length v) ≤ Z.max 0 (max_blocks c).
Proof.
  revert s. induction fuel as [|fuel IH]; intros s Hinv; [done|].
  assert (Forall (sound_block c dim start) (vein s)
          ∧ NoDup (block_pos <$> vein s)
          ∧ Z.of_nat (length (vein s)) ≤ Z.max 0 (max_blocks c)) as Hnow.
  { destruct Hinv as [_ Hnd _ ? ?]. split_and!; try done.
    by apply NoDup_app in Hnd as [? _]. }
  simpl. destruct (queue s) as [|cur rest] eqn:Hq; [by intros [= <-]|].
  case_bool_decide as Hlt; simpl; [|by intros [= <-]].
  case_bool_decide; [by intros [= <-]|].
  pose proof (skip_inv s cur rest (iterations s + 1) Hq Hinv) as Hskip.
  case_bool_decide as Hdist; [by apply IH|].
  destruct (dim cur) as [t|] eqn:Hdim; [|by apply IH].
  destruct (String.eqb t type) eqn:Ht; simpl; [|by apply IH].
  pose proof (added_block_sound s cur rest t Hq Hinv Hdist Hdim Ht) as Hsound.
  case_bool_decide as Hfull.
  - intros [= <-]. destruct Hnow as (? & ? & ?). split_and!.
    + apply Forall_app. split; [done|]. by apply Forall_singleton.
    + destruct Hinv as [_ Hnd _ _ _]. rewrite Hq in Hnd.
      rewrite fmap_app. simpl.
      apply NoDup_app in Hnd as (? & Hdisj & _).
      apply NoDup_app. split_and!; [done| |apply NoDup_singleton].
      intros p Hp ->%list_elem_of_singleton. apply (Hdisj cur Hp). by left.
    + rewrite length_app. simpl. lia.
  - destruct (visit_fold cur neighbors (visited s) rest) as (new & -> & Hnd & Hnew).
    apply IH. apply expand_inv; try done. lia.
Qed.

(** *** Nothing outside the component enters the vein *)

Abbreviation conn := (connected neighbors dim start).

Lemma connected_type p : conn p → dim p = Some type.
Proof. by destruct 1. Qed.

Lemma initial_conn_inv : conn_inv neighbors dim start (initial_search start).
Proof.
  split; simpl; [apply Forall_nil_2|].
  apply Forall_singleton. intros ?. by apply connected_start.
Qed.

Lemma search_loop_connected fuel s v :
  conn_inv neighbors dim start s → loop fuel s = Some v →
  Forall conn (block_pos <$> v).
Proof.
  revert s. induction fuel as [|fuel IH]; intros s [Hv Hq]; [done|].
  simpl. destruct (queue s) as [|cur rest] eqn:Eq; [by intros [= <-]|].
  apply Forall_cons in Hq as [Hcur Hrest].
  case_bool_decide; simpl; [|by intros [= <-]].
  case_bool_decide; [by intros [= <-]|].
  assert (conn_inv neighbors dim start
    {| queue := rest; visited := visited s; vein := vein s;
       iterations := iterations s + 1 |}) as Hskip by done.
  case_bool_decide; [by apply IH|].
  destruct (dim cur) as [t|] eqn:Hdim; [|by apply IH].
  destruct (String.eqb t type) eqn:Ht; simpl; [|by apply IH].
  apply String.eqb_eq in Ht as ->. specialize (Hcur eq_refl).
  assert (Forall conn (block_pos <$> vein s ++ [{| block_type := type; block_pos := cur |}]))
    as Hv'.
  { rewrite fmap_app. apply Forall_app. split; [done|]. by apply Forall_singleton. }
  case_bool_decide; [by intros [= <-]|].
  destruct (visit_fold cur neighbors (visited s) rest) as (new & -> & _ & Hnew).
  apply IH. split; simpl; [done|].
  apply Forall_app. split; [done|].
  apply Forall_forall. intros p (_ & _ & _ & d & Hd & ->)%Hnew Hp.
  by apply connected_step.
Qed.

(** *** Every member of a component within the limits enters the vein *)

Section Complete.
Context (comp : list (Z * Z * Z)).
Hypothesis comp_connected : ∀ p, p ∈ comp ↔ conn p.
Hypothesis comp_size : Z.of_nat (length comp) ≤ max_blocks c.
Hypothesis comp_limits :
  ∀ p, conn p → within_reach c origin p ∧ (p = origin ∨ within_world_height p).

Lemma vein_filled (l : list (Z * Z * Z)) p :
  NoDup l → Forall conn l → max_blocks c ≤ Z.of_nat (length l) →
  conn p → p ∈ l.
Proof.
  intros Hnd Hall Hlen Hp.
  assert (l ⊆+ comp) as Hsub.
  { apply NoDup_submseteq; [done|]. intros q Hq. apply comp_connected.
    by apply (proj1 (Forall_forall _ _) Hall). }
  apply submseteq_length_Permutation in Hsub; [|lia].
  rewrite Hsub. by apply comp_connected.
Qed.

Lemma initial_full_inv :
  dim origin = Some type → full_inv c neighbors dim start (initial_search start).
Proof.
  intros Hd. split; simpl.
  - apply initial_search_inv.
  - apply Forall_singleton. by apply connected_start.
  - intros p ->%elem_of_singleton _. by apply list_elem_of_singleton.
  - intros p d ?%elem_of_nil. done.
  - by apply elem_of_singleton.
  - done.
Qed.

Lemma search_loop_complete fuel s v :
  full_inv c neighbors dim start s → loop fuel s = Some v →
  ∀ p, conn p → p ∈ block_pos <$> v.
Proof.
  revert s. induction fuel as [|fuel IH]; intros s Hinv; [done|].
  destruct Hinv as [Hbase Hconn Hseen Hclosed Horigin Hiter].
  pose proof (inv_nodup _ _ _ _ Hbase) as Hnd.
  simpl. destruct (queue s) as [|cur rest] eqn:Eq.
  { (* the queue ran empty: the vein is closed under the offsets *)
    intros [= <-] p Hp. rewrite app_nil_r in Hseen.
    induction Hp as [Hd|p d Hp IHp Hd Hdim]; [by apply Hseen|].
    apply Hseen; [|done]. by apply (Hclosed p d). }
  apply Forall_app in Hconn as [Hcv Hcq].
  apply Forall_cons in Hcq as [Hcur Hcrest].
  apply NoDup_app in Hnd as (Hndv & Hdisj & [Hcur_rest Hndr]%NoDup_cons).
  case_bool_decide as Hlt; simpl.
  2:{ (* the vein is full: it holds as many positions as the component *)
    intros [= <-] p Hp. apply vein_filled; try done.
    rewrite length_fmap. lia. }
  case_bool_decide as Hit.
  { (* the iteration cap cannot strike: every round so far added a block *)
    unfold max_iterations in Hit. lia. }
  case_bool_decide as Hdist.
  { destruct (comp_limits cur Hcur) as [Hr _]. unfold within_reach in Hr. lia. }
  rewrite (connected_type cur Hcur), String.eqb_refl. simpl.
  assert (NoDup (block_pos <$> vein s ++ [{| block_type := type; block_pos := cur |}]))
    as Hndv'.
  { rewrite fmap_app. apply NoDup_app. split_and!; [done| |apply NoDup_singleton].
    intros q Hq ->%list_elem_of_singleton. apply (Hdisj cur Hq). by left. }
  assert (Forall conn (block_pos <$> vein s ++ [{| block_type := type; block_pos := cur |}]))
    as Hcv'.
  { rewrite fmap_app. apply Forall_app. split; [done|]. by apply Forall_singleton. }
  case_bool_decide as Hfull.
  { intros [= <-] p Hp. apply vein_filled; try done. by rewrite length_fmap. }
  destruct (visit_fold cur neighbors (visited s) rest) as (new & -> & Hndn & Hnew).
  assert (sound_block c dim start {| block_type := type; block_pos := cur |})
    as Hsound.
  { apply (added_block_sound s cur rest); try done;
      [by apply connected_type | apply String.eqb_refl]. }
  apply IH. split; simpl.
  - apply expand_inv; try done. lia.
  - rewrite fmap_app, <-(assoc_L (++)). simpl.
    apply Forall_app. split; [done|]. apply Forall_cons. split; [done|].
    apply Forall_app. split; [done|].
    apply Forall_forall. intros p (_ & Hd & _ & d & ? & ->)%Hnew.
    by apply connected_step.
  - intros p Hp Hd.
    assert (p ∈ ((block_pos <$> vein s) ++ cur :: rest) ∨ p ∈ new) as Hcase.
    { destruct (decide (p ∈ visited s)) as [Hv|Hv]; [left; by apply Hseen|].
      right. apply Hnew. split_and!; try done.
      - apply elem_of_union in Hp as [Hp|Hp]; [|done].
        apply elem_of_list_to_set, list_elem_of_filter in Hp as [? _]. done.
      - apply elem_of_union in Hp as [Hp|Hp]; [|done].
        apply elem_of_list_to_set, list_elem_of_filter in Hp as [_ Hp].
        apply list_elem_of_fmap in Hp as (d & -> & ?). by exists d. }
    rewrite fmap_app. simpl. revert Hcase.
    rewrite !elem_of_app, !elem_of_cons, elem_of_nil. tauto.
  - intros p d Hp Hd Hdim. rewrite fmap_app in Hp. simpl in Hp.
    apply elem_of_app in Hp as [Hp | ->%list_elem_of_singleton].
    + apply elem_of_union_r. by apply (Hclosed p d).
    + assert (conn (shift cur d)) as Hc by (by apply connected_step).
      destruct (comp_limits _ Hc) as [_ [->|Hh]]; [by apply elem_of_union_r|].
      apply elem_of_union_l, elem_of_list_to_set, list_elem_of_filter.
      split; [by apply outside_world_height_false|].
      by apply list_elem_of_fmap_2.
  - by apply elem_of_union_r.
  - rewrite length_app. simpl. lia.
Qed.

End Complete.
End Search.

(** C2 (amended). Whatever the configuration, the offsets, the world and the
    start block: the vein has at most [max_blocks] members (none when
    [max_blocks] is not positive; [load_config] keeps it in 1..4096), holds
    every position once, and every member is a block of the start block's
    type whose squared distance from the start is at most
    [max_reach_distance] squared. Every member other than the start block lies
    within the world's vertical bounds; the start block is taken as the host
    hands it over, its height is not looked at. *)
Theorem find_vein_bounds c neighbors dim start :
  Z.of_nat (length (find_vein c neighbors dim start)) ≤ Z.max 0 (max_blocks c)
  ∧ NoDup (block_pos <$> find_vein c neighbors dim start)
  ∧ ∀ b, b ∈ find_vein c neighbors dim start →
      block_type b = block_type start
      ∧ dist_sq (block_pos start) (block_pos b)
          ≤ max_reach_distance c * max_reach_distance c
      ∧ (block_pos b = block_pos start ∨ within_world_height (block_pos b)).
Proof.
  destruct (search_loop_bounds c neighbors dim start _ _ _
              (initial_search_inv c dim start)
              (find_vein_returns c neighbors dim start)) as (Hall & Hnd & Hlen).
  split_and!; try done.
  intros b Hb. rewrite Forall_forall in Hall.
  destruct (Hall b Hb) as (? & _ & ? & ?). done.
Qed.

(** C2 as stated fails for a start block above the vertical bound: it is
    returned as a member of the vein although its height is 400. *)
Lemma find_vein_keeps_start_outside_world_height :
  find_vein default_config (Neighbors.build_neighbor_offsets default_config)
            high_world high_start = [high_start]
  ∧ ¬ within_world_height (block_pos high_start).
Proof.
  split; [vm_compute; reflexivity|].
  unfold within_world_height, MAX_WORLD_HEIGHT. simpl. lia.
Qed.


Lemma dimension_of_type blocks p t :
  dimension_of blocks p = Some t → t ≠ "minecraft:air" → (p, t) ∈ blocks.
Proof.
  unfold dimension_of. intros Hd Hair.
  destruct (list_find _ blocks) as [[i [q t']]|] eqn:Hf; simplify_eq/=.
  apply list_find_Some in Hf as (Hi & Hq & _). simpl in Hq. subst.
  by eapply list_elem_of_lookup_2.
Qed.

Lemma iron_row_component neighbors p :
  (1, 0, 0) ∈ neighbors →
  p ∈ iron_row ↔ connected neighbors iron_row_world iron_start p.
Proof.
  intros Hn.
  assert (connected neighbors iron_row_world iron_start (0, 0, 0)) as H0.
  { by apply connected_start. }
  assert (connected neighbors iron_row_world iron_start (1, 0, 0)) as H1.
  { by apply (connected_step _ _ _ (0, 0, 0) (1, 0, 0)). }
  assert (connected neighbors iron_row_world iron_start (2, 0, 0)) as H2.
  { by apply (connected_step _ _ _ (1, 0, 0) (1, 0, 0)). }
  split.
  - unfold iron_row. rewrite !elem_of_cons, elem_of_nil.
    intros [->|[->|[->|[]]]]; done.
  - intros Hc%connected_type%dimension_of_type; [|done].
    apply list_elem_of_fmap in Hc as (q & Heq & Hq). by simplify_eq.
Qed.



End DiscoveryFacts.

Module ToolsFacts.
Import Text Tools Engine Samples.

Lemma lower_char_idemp a : lower_char (lower_char a) = lower_char a.
Proof. destruct a as [[] [] [] [] [] [] [] []]; vm_compute; reflexivity. Qed.

Lemma lower_idemp s : lower (lower s) = lower s.
Proof. induction s as [|a s IH]; simpl; [done|]. by rewrite lower_char_idemp, IH. Qed.

(** X1. A leading namespace does not matter to [normalize_block_id], and its
    result is in lower case. *)
Theorem normalize_block_id_namespace block_id :
  normalize_block_id ("minecraft:" +:+ block_id) = normalize_block_id block_id
  ∧ lower (normalize_block_id block_id) = normalize_block_id block_id.
Proof.
  unfold normalize_block_id. split.
  - simpl. destruct block_id; reflexivity.
  - destruct (String.eqb block_id ""); [done|]. apply lower_idemp.
Qed.

(** The id of an item is in lower case and carries the namespace, unless it
    is the fallback. *)
Lemma get_item_type_id_namespaced tool fallback :
  get_item_type_id tool fallback = fallback
  ∨ (starts_with (get_item_type_id tool fallback) "minecraft:" = true
     ∧ lower (get_item_type_id tool fallback) = get_item_type_id tool fallback).
Proof.
  unfold get_item_type_id. destruct (String.eqb _ ""); [by left|]. right.
  destruct (starts_with (lower (type_id tool)) "minecraft:") eqn:E.
  - split; [done|]. apply lower_idemp.
  - split; [unfold starts_with; simpl; by destruct (lower (type_id tool))|].
    change (lower ("minecraft:" +:+ lower (type_id tool)))
      with ("minecraft:" +:+ lower (lower (type_id tool))).
    by rewrite lower_idemp.
Qed.

(** X2. A level reported for an enchantment is never negative, and a positive
    one is the level of an entry of the tool. *)
Theorem get_enchantment_level_sound tool enchantment :
  0 ≤ get_enchantment_level tool enchantment
  ∧ (0 < get_enchantment_level tool enchantment →
     ∃ t key, tool = Some t
       ∧ (key, get_enchantment_level tool enchantment) ∈ enchants t).
Proof.
  unfold get_enchantment_level. destruct tool as [t|]; [|split; [done|lia]].
  set (aliases := [_; _]).
  set (m := list_to_map _ : gmap string Z).
  destruct (list_find (λ key, 0 < default 0 (m !! key)) aliases)
    as [[i key]|] eqn:E1.
  - apply list_find_Some in E1 as (_ & Hpos & _).
    split; [lia|]. intros _. destruct (m !! key) as [v|] eqn:Hm; [|simpl in Hpos; lia].
    simpl. subst m. apply elem_of_list_to_map_2 in Hm.
    apply elem_of_reverse, list_elem_of_fmap in Hm as ([k v'] & [= -> ->] & Hin).
    by exists t, k.
  - destruct (list_find (λ key, 0 < host_enchant_level t key) aliases)
      as [[i key]|] eqn:E2; [|split; [done|lia]].
    apply list_find_Some in E2 as (_ & Hpos & _).
    split; [lia|]. intros _. unfold host_enchant_level in *.
    destruct (list_find (λ kv, kv.1 = key) (enchants t)) as [[j [k v]]|] eqn:E3;
      [|lia].
    apply list_find_Some in E3 as (Hj & _ & _). simpl.
    exists t, k. split; [done|]. by eapply list_elem_of_lookup_2.
Qed.

(** The empty hand fits exactly the blocks that ask for no tool. *)
Lemma empty_hand_fits block_id :
  tool_fits block_id None = true ↔ required_tool_traits_for_block block_id = None.
Proof.
  unfold tool_fits. destruct (required_tool_traits_for_block block_id) as [req|].
  - split; [|done]. intros H%bool_decide_eq_true. exfalso.
    apply Exists_exists in H as (tr & _ & Hin). simpl in Hin.
    by apply not_elem_of_nil in Hin.
  - done.
Qed.

(** X3. [is_proper_tool] keeps its answers in the cache under the key
    ["block_id:tool_key"]. When the key is not cached, it computes the tool
    check, returns it and stores it under the key, changing no other entry;
    when the key is cached, it returns the cached value and changes
    nothing. In both cases the answer is afterwards the value held under
    the key, asking again gives the same answer and leaves the cache
    alone, and the cache has only grown. *)
Theorem is_proper_tool_cached block_id tool p :
  let tool_key :=
    match tool with
    | Some t => get_item_type_id t "minecraft:air"
    | None => "hand"
    end in
  let cache_key := block_id +:+ ":" +:+ tool_key in
  let first := is_proper_tool block_id tool p in
  (tool_validation_cache p = ∅ → first.1 = tool_fits block_id tool)
  ∧ is_proper_tool block_id tool first.2 = first
  ∧ tool_validation_cache p ⊆ tool_validation_cache first.2
  ∧ tool_validation_cache first.2 !! cache_key = Some first.1
  ∧ (tool_validation_cache p !! cache_key = None →
     first.1 = tool_fits block_id tool
     ∧ tool_validation_cache first.2
       = <[cache_key := tool_fits block_id tool]> (tool_validation_cache p))
  ∧ (∀ cached, tool_validation_cache p !! cache_key = Some cached →
     first = (cached, p)).
Proof.
  cbn zeta. unfold is_proper_tool. set (key := block_id +:+ _).
  destruct (tool_validation_cache p !! key) as [b|] eqn:Hk; simpl.
  - split_and!; [intros He; by rewrite He, lookup_empty in Hk| by rewrite Hk
                |done|done|done|by intros ? [= ->]].
  - rewrite lookup_insert_eq. split_and!; [done|done| |done|done|done].
    by apply insert_subseteq.
Qed.

End ToolsFacts.

Module GateFacts.
Import Engine Samples.

(** X4. A temporary block lasts until its unblock time and no longer: while
    the clock is before it, [is_player_blocked] answers yes and changes
    nothing; from the unblock time on it answers no and deletes the entry,
    so that every later call answers no as well. *)
Theorem is_player_blocked_until_expiry p player_id unblock_time now :
  blocked_players p !! player_id = Some unblock_time →
  (is_player_blocked player_id now p).1 = bool_decide (now < unblock_time)
  ∧ (now < unblock_time → (is_player_blocked player_id now p).2 = p)
  ∧ (unblock_time ≤ now →
       blocked_players (is_player_blocked player_id now p).2 !! player_id = None
       ∧ ∀ later,
           is_player_blocked player_id later (is_player_blocked player_id now p).2
           = (false, (is_player_blocked player_id now p).2)).
Proof.
  intros Hb. unfold is_player_blocked. rewrite Hb.
  case_bool_decide as Hle; simpl.
  - split_and!.
    + symmetry. apply bool_decide_eq_false. lia.
    + lia.
    + intros _. rewrite lookup_delete_eq. done.
  - split_and!.
    + symmetry. apply bool_decide_eq_true. lia.
    + done.
    + lia.
Qed.

Lemma is_player_blocked_until_expiry_witness :
  (is_player_blocked "steve" 4999 blocked_until_5000).1 = true
  ∧ (is_player_blocked "steve" 5000 blocked_until_5000).1 = false.
Proof.
  assert (blocked_players blocked_until_5000 !! "steve" = Some 5000) as H
    by (vm_compute; reflexivity).
  split.
  - rewrite (proj1 (is_player_blocked_until_expiry _ _ _ 4999 H)). reflexivity.
  - rewrite (proj1 (is_player_blocked_until_expiry _ _ _ 5000 H)). reflexivity.
Defined.

(** X5. After [block_player_temporarily] at [blocked_at], the player counts
    as blocked exactly while the clock is less than [blocked_at] plus
    [temporary_block_duration] minutes, and the answer for every other
    player is as before. *)
Theorem temporary_block_lasts c player_id blocked_at now p :
  (is_player_blocked player_id now
     (block_player_temporarily c player_id blocked_at p)).1
  = bool_decide (now < blocked_at + temporary_block_duration c * 60 * 1000)
  ∧ ∀ other, other ≠ player_id →
      (is_player_blocked other now
         (block_player_temporarily c player_id blocked_at p)).1
      = (is_player_blocked other now p).1.
Proof.
  unfold is_player_blocked, block_player_temporarily. simpl. split.
  - rewrite lookup_insert_eq. case_bool_decide; simpl; symmetry.
    + apply bool_decide_eq_false. lia.
    + apply bool_decide_eq_true. lia.
  - intros other Hne. rewrite lookup_insert_ne by done.
    destruct (blocked_players p !! other); [|done]. by case_bool_decide.
Qed.

Lemma recent_idemp now stamps : recent now (recent now stamps) = recent now stamps.
Proof.
  unfold recent. induction stamps as [|t l IH]; [done|].
  rewrite filter_cons. case_decide; [|done].
  rewrite filter_cons, decide_True by done. by rewrite IH.
Qed.

Lemma check_rate_limits_spec c player_id now p :
  let stamps := default [] (minute_vein_count p !! player_id) in
  let r := check_rate_limits c player_id now p in
  (max_veins_per_minute c ≤ 0 → r = (true, p))
  ∧ (0 < max_veins_per_minute c →
       r.1 = bool_decide (Z.of_nat (length (recent now stamps))
                          < max_veins_per_minute c)
       ∧ minute_vein_count r.2 !! player_id = Some (recent now stamps)
       ∧ (∀ other, other ≠ player_id →
            minute_vein_count r.2 !! other = minute_vein_count p !! other)
       ∧ blocked_players r.2 = blocked_players p
       ∧ check_rate_limits c player_id now r.2 = r).
Proof.
  intros stamps r. subst r. unfold check_rate_limits. split.
  - intros H. by rewrite bool_decide_eq_true_2.
  - intros H. rewrite bool_decide_eq_false_2 by lia. fold stamps.
    assert (∀ b : bool,
      (if b then (false, set_minute_vein_count
                           (<[player_id := recent now stamps]> (minute_vein_count p)) p)
       else (true, set_minute_vein_count
                     (<[player_id := recent now stamps]> (minute_vein_count p)) p))
      = (negb b, set_minute_vein_count
                   (<[player_id := recent now stamps]> (minute_vein_count p)) p))
      as Hif by (by intros []).
    rewrite Hif. cbn [fst snd]. split_and!.
    + case_bool_decide; simpl; symmetry.
      * apply bool_decide_eq_false. lia.
      * apply bool_decide_eq_true. lia.
    + simpl. by rewrite lookup_insert_eq.
    + intros other Hne. simpl. by rewrite lookup_insert_ne.
    + done.
    + simpl. rewrite lookup_insert_eq. simpl. rewrite recent_idemp.
      rewrite insert_insert_eq. rewrite Hif. done.
Qed.

(** X6. With [max-veins-per-minute] zero or less, [check_rate_limits] lets
    everyone through and changes nothing. Otherwise it lets the player
    through exactly if fewer than that many of the player's recorded usages
    are less than 60 s old; it keeps just those usages for the player,
    leaves the windows of the other players and the temporary blocks
    alone, and a second call at the same time gives the same answer and
    state. *)
Theorem check_rate_limits_window c player_id now p :
  let stamps := default [] (minute_vein_count p !! player_id) in
  let r := check_rate_limits c player_id now p in
  (max_veins_per_minute c ≤ 0 → r = (true, p))
  ∧ (0 < max_veins_per_minute c →
       r.1 = bool_decide (Z.of_nat (length (recent now stamps))
                          < max_veins_per_minute c)
       ∧ minute_vein_count r.2 !! player_id = Some (recent now stamps)
       ∧ (∀ other, other ≠ player_id →
            minute_vein_count r.2 !! other = minute_vein_count p !! other)
       ∧ blocked_players r.2 = blocked_players p
       ∧ check_rate_limits c player_id now r.2 = r).
Proof. exact (check_rate_limits_spec c player_id now p). Qed.

Lemma record_vein_usage_stamps c player_id n t p :
  minute_vein_count (record_vein_usage c player_id n t p) !! player_id
  = Some (default [] (minute_vein_count p !! player_id) ++ [t]).
Proof.
  unfold record_vein_usage. destruct (enable_limits c); simpl;
    by rewrite lookup_insert_eq.
Qed.

Lemma record_usages_stamps c player_id n times p :
  default [] (minute_vein_count (record_usages c player_id n times p) !! player_id)
  = default [] (minute_vein_count p !! player_id) ++ times.
Proof.
  unfold record_usages. revert p.
  induction times as [|t times IH]; intros p; simpl.
  - by rewrite app_nil_r.
  - rewrite IH, record_vein_usage_stamps. simpl. by rewrite <-(assoc_L (++)).
Qed.

Lemma recent_all now stamps :
  Forall (λ t, now - t < 60000) stamps → recent now stamps = stamps.
Proof.
  unfold recent. induction 1 as [|t l Ht _ IH]; [done|].
  rewrite filter_cons, decide_True by done. by rewrite IH.
Qed.

Lemma recent_app now l k : recent now (l ++ k) = recent now l ++ recent now k.
Proof. apply filter_app. Qed.

(** X7. With a positive [max-veins-per-minute]: once a player has recorded
    that many veins within the last 60 s, [check_rate_limits] rejects the
    player; a player with no older usages and fewer veins than that within
    the last 60 s is let through. *)
Theorem burst_is_rate_limited c player_id block_count times now p :
  0 < max_veins_per_minute c →
  Forall (λ t, now - t < 60000) times →
  (max_veins_per_minute c ≤ Z.of_nat (length times) →
     (check_rate_limits c player_id now
        (record_usages c player_id block_count times p)).1 = false)
  ∧ (minute_vein_count p !! player_id = None →
     Z.of_nat (length times) < max_veins_per_minute c →
     (check_rate_limits c player_id now
        (record_usages c player_id block_count times p)).1 = true).
Proof.
  intros Hmax Hall.
  pose proof (check_rate_limits_spec c player_id now
                (record_usages c player_id block_count times p)) as [_ Hw].
  destruct (Hw Hmax) as (-> & _). rewrite record_usages_stamps, recent_app.
  rewrite (recent_all now times Hall), length_app. split.
  - intros Hlen. apply bool_decide_eq_false. lia.
  - intros -> Hlen. apply bool_decide_eq_true. simpl. lia.
Qed.

Lemma burst_is_rate_limited_witness :
  (check_rate_limits default_config "steve" 60500
     (record_usages default_config "steve" 5
        ((λ i, 1000 * i) <$> seqZ 1 60) fresh_plugin)).1 = false.
Proof.
  apply (burst_is_rate_limited default_config "steve" 5
           ((λ i, 1000 * i) <$> seqZ 1 60) 60500 fresh_plugin).
  - vm_compute. reflexivity.
  - apply Forall_fmap, Forall_seqZ. intros i Hi. simpl. lia.
  - vm_compute. discriminate.
Defined.

(** X8. With the daily limits enabled, a usage that is recorded after
    [check_daily_limits] let it through, with no more blocks than were
    checked, adds one vein and its blocks to the player's counters, keeps
    both counters within [max-veins-per-day] and [max-blocks-per-day], and
    touches the counters of no other player. *)
Theorem daily_quota_respected c player_id checked_blocks recorded now p :
  enable_limits c = true →
  check_daily_limits c player_id checked_blocks p = true →
  recorded ≤ checked_blocks →
  let p' := record_vein_usage c player_id recorded now p in
  default 0 (daily_vein_count p' !! player_id)
    = default 0 (daily_vein_count p !! player_id) + 1
  ∧ default 0 (daily_vein_count p' !! player_id) ≤ max_veins_per_day c
  ∧ default 0 (daily_block_count p' !! player_id)
    = default 0 (daily_block_count p !! player_id) + recorded
  ∧ default 0 (daily_block_count p' !! player_id) ≤ max_blocks_per_day c
  ∧ ∀ other, other ≠ player_id →
      daily_vein_count p' !! other = daily_vein_count p !! other
      ∧ daily_block_count p' !! other = daily_block_count p !! other.
Proof.
  intros He Hc Hr. unfold check_daily_limits in Hc. rewrite He in Hc.
  simpl in Hc. repeat case_bool_decide; try done.
  unfold record_vein_usage. rewrite He. simpl.
  rewrite !lookup_insert_eq. simpl. split_and!; try lia.
  intros other Hne. by rewrite !lookup_insert_ne.
Qed.

Lemma daily_quota_respected_witness :
  default 0 (daily_block_count
               (record_vein_usage (with_daily_limits default_config true 2 100)
                  "steve" 40 7 fresh_plugin) !! "steve") ≤ 100.
Proof.
  apply (daily_quota_respected (with_daily_limits default_config true 2 100)
           "steve" 64 40 7 fresh_plugin); [reflexivity| vm_compute; reflexivity | lia].
Defined.

Lemma daily_limits_off c player_id block_count now p :
  enable_limits c = false →
  check_daily_limits c player_id block_count p = true
  ∧ daily_vein_count (record_vein_usage c player_id block_count now p)
    = daily_vein_count p
  ∧ daily_block_count (record_vein_usage c player_id block_count now p)
    = daily_block_count p.
Proof.
  intros He. unfold check_daily_limits, record_vein_usage. by rewrite He.
Qed.

End GateFacts.

Module RewardsFacts.
Import Text Random Tools Rewards Samples.

Lemma randint_range a b g : a ≤ b → a ≤ (randint a b g).1 ≤ b.
Proof.
  intros Hab. unfold randint, bind, draw, pure. simpl.
  pose proof (Z.mod_pos_bound (Z.of_N (g O)) (b - a + 1)). lia.
Qed.

(** Every number of the range comes out of some generator. *)
Lemma randint_onto a b v :
  a ≤ v ≤ b → ∀ g, (randint a b (λ n, match n with O => Z.to_N (v - a) | S n => g n end)).1 = v.
Proof.
  intros Hv g. unfold randint, bind, draw, pure. simpl.
  rewrite Z2N.id by lia. rewrite Z.mod_small by lia. lia.
Qed.

Lemma base_drop_count_range key g :
  (key ∈ lapis_ores → 4 ≤ (base_drop_count key g).1 ≤ 9)
  ∧ (key ∈ redstone_ores → 4 ≤ (base_drop_count key g).1 ≤ 5)
  ∧ (key = "nether_gold_ore" → 2 ≤ (base_drop_count key g).1 ≤ 6)
  ∧ (key ∉ lapis_ores → key ∉ redstone_ores → key ≠ "nether_gold_ore" →
     base_drop_count key g = (1, g)).
Proof.
  unfold base_drop_count. split_and!.
  - intros H. rewrite bool_decide_eq_true_2 by done. by apply randint_range.
  - intros H. assert (key ∉ lapis_ores) as Hl.
    { intros Hl. revert H. unfold lapis_ores, redstone_ores in *.
      rewrite !elem_of_cons, elem_of_nil in *. 
      destruct Hl as [->|[->|[]]]; intros [?|[?|[?|[?|[]]]]]; done. }
    rewrite bool_decide_eq_false_2, bool_decide_eq_true_2 by done.
    by apply randint_range.
  - intros ->. rewrite bool_decide_eq_false_2, bool_decide_eq_false_2.
    + rewrite String.eqb_refl. by apply randint_range.
    + unfold redstone_ores. rewrite !elem_of_cons, elem_of_nil.
      intros [?|[?|[?|[?|[]]]]]; done.
    + unfold lapis_ores. rewrite !elem_of_cons, elem_of_nil.
      intros [?|[?|[]]]; done.
  - intros ? ? Hn. rewrite !bool_decide_eq_false_2 by done.
    apply String.eqb_neq in Hn. by rewrite Hn.
Qed.

Lemma base_drop_count_pos key g : 1 ≤ (base_drop_count key g).1.
Proof.
  unfold base_drop_count. repeat case_match; try done.
  all: match goal with |- _ ≤ (randint ?a ?b _).1 =>
         pose proof (randint_range a b g ltac:(lia)); lia end.
Qed.

(** X9. The number of items a block drops when it is no leaf block and the
    tool has no silk touch. The base count is 4 to 9 for lapis, 4 to 5 for
    redstone, 2 to 6 for nether gold ore and 1 otherwise. For a block that
    fortune applies to and a positive fortune level, a roll between -1 and
    the level is drawn, negative rolls count as 0, and the count is the
    base times the roll plus one; otherwise it is the base. It is at least
    1, and it is the one entry of the drops of [calculate_block_rewards]. *)
Theorem drop_count_formula c block_type tool g :
  let short_id := normalize_block_id block_type in
  let fortune_level := get_enchantment_level tool "fortune" in
  let key := normalize_block_id short_id in
  let base := base_drop_count key g in
  let roll := randint (-1) fortune_level base.2 in
  let bonus_roll := Z.max 0 roll.1 in
  let with_fortune :=
    bool_decide (key ∈ fortune_blocks) && bool_decide (0 < fortune_level) in
  let drop_count :=
    if with_fortune then Z.max 1 (base.1 * (bonus_roll + 1))
    else Z.max 1 base.1 in
  ends_with short_id "_leaves" = false →
  get_enchantment_level tool "silk_touch" ≤ 0 →
  (∃ drop_item,
     (calculate_block_rewards c block_type tool g).1.1 = {[ drop_item := drop_count ]})
  ∧ get_fortune_drop_amount short_id fortune_level g
    = (drop_count, if with_fortune then roll.2 else base.2)
  ∧ (key ∈ lapis_ores → 4 ≤ base.1 ≤ 9)
  ∧ (key ∈ redstone_ores → 4 ≤ base.1 ≤ 5)
  ∧ (key = "nether_gold_ore" → 2 ≤ base.1 ≤ 6)
  ∧ (key ∉ lapis_ores → key ∉ redstone_ores → key ≠ "nether_gold_ore" →
     base.1 = 1)
  ∧ (with_fortune = true → -1 ≤ roll.1 ≤ fortune_level)
  ∧ 1 ≤ drop_count.
Proof.
  intros short_id fortune_level key base roll bonus_roll with_fortune drop_count
    Hleaf Hsilk.
  assert (get_fortune_drop_amount short_id fortune_level g
          = (drop_count, if with_fortune then roll.2 else base.2)) as Hamount.
  { unfold get_fortune_drop_amount, bind, pure. fold key. fold base.
    subst drop_count with_fortune bonus_roll roll.
    destruct base as [b g1] eqn:Hb. cbn [fst snd].
    case_bool_decide as Hf; cbn [orb].
    { rewrite (bool_decide_eq_false_2 (0 < fortune_level)) by lia.
      by rewrite andb_false_r. }
    rewrite (bool_decide_eq_true_2 (0 < fortune_level)) by lia.
    rewrite andb_true_r.
    destruct (bool_decide (key ∈ fortune_blocks)); cbn [negb]; [|done].
    destruct (randint (-1) fortune_level g1) as [r g2]. cbn [fst snd].
    case_bool_decide; do 3 f_equal; lia. }
  pose proof (base_drop_count_range key g) as (Hl & Hr & Hn & Ho).
  split_and!; try done.
  - unfold calculate_block_rewards. fold short_id. rewrite Hleaf.
    rewrite bool_decide_eq_false_2 by lia.
    unfold bind, pure. fold fortune_level. rewrite Hamount. simpl. by eexists.
  - intros ? ? ?. fold base in Ho. rewrite Ho; done.
  - intros [_ Hf%bool_decide_eq_true]%andb_true_iff.
    apply randint_range. lia.
  - subst drop_count. destruct with_fortune; lia.
Qed.

Lemma drop_count_formula_witness :
  (get_fortune_drop_amount "coal_ore" 3 (scripted [3%N])).1 = 3.
Proof.
  exact (f_equal fst
    (proj1 (proj2 (drop_count_formula default_config "minecraft:coal_ore"
                     (Some fortune_pickaxe) (scripted [3%N]) eq_refl
                     ltac:(vm_compute; discriminate))))).
Defined.

(** X10. The drop count never exceeds nine times the fortune level plus one. *)
Theorem drop_count_bounds block_id fortune_level g :
  1 ≤ (get_fortune_drop_amount block_id fortune_level g).1
      ≤ 9 * (Z.max 0 fortune_level + 1).
Proof.
  unfold get_fortune_drop_amount, Random.bind, Random.pure.
  set (key := normalize_block_id block_id).
  pose proof (base_drop_count_pos key g) as Hpos.
  assert ((base_drop_count key g).1 ≤ 9) as Hle.
  { unfold base_drop_count. repeat case_match; try (simpl; lia).
    all: match goal with |- (randint ?a ?b _).1 ≤ _ =>
           pose proof (randint_range a b g ltac:(lia)); lia end. }
  destruct (base_drop_count key g) as [b g1]. cbn [fst snd] in *.
  destruct (_ || _) eqn:Hc; cbn [fst]; [lia|].
  apply orb_false_iff in Hc as [Hf%bool_decide_eq_false _].
  pose proof (randint_range (-1) fortune_level g1 ltac:(lia)) as Hr.
  destruct (randint (-1) fortune_level g1) as [r g2]. cbn [fst snd] in *.
  case_bool_decide; nia.
Qed.

(** X11. With silk touch, a block that is no leaf block drops itself, once,
    with no experience and without any draw; a lit redstone ore drops the
    unlit one. *)
Theorem silk_touch_drops_block c block_type tool g :
  ends_with (normalize_block_id block_type) "_leaves" = false →
  0 < get_enchantment_level tool "silk_touch" →
  ∃ item,
    calculate_block_rewards c block_type tool g = ({[ item := 1 ]}, 0%Q, g)
    ∧ item = "minecraft:" +:+
        (if String.eqb (normalize_block_id block_type) "lit_redstone_ore"
         then "redstone_ore"
         else if String.eqb (normalize_block_id block_type)
                            "lit_deepslate_redstone_ore"
         then "deepslate_redstone_ore"
         else normalize_block_id block_type).
Proof.
  intros Hleaf Hsilk. unfold calculate_block_rewards. rewrite Hleaf.
  rewrite bool_decide_eq_true_2 by done. unfold Random.pure.
  eexists. split; [reflexivity|]. f_equal.
  set (short := normalize_block_id block_type).
  destruct (String.eqb short "lit_redstone_ore") eqn:E1.
  { apply String.eqb_eq in E1. rewrite E1. reflexivity. }
  destruct (String.eqb short "lit_deepslate_redstone_ore") eqn:E2.
  { apply String.eqb_eq in E2. rewrite E2. reflexivity. }
  apply String.eqb_neq in E1, E2.
  rewrite !list_to_map_cons, list_to_map_nil. simpl.
  rewrite lookup_insert_ne by done. rewrite lookup_insert_ne by done.
  by rewrite lookup_empty.
Qed.

Lemma calculate_ore_xp_range block_type : 0 ≤ calculate_ore_xp block_type ≤ 5.
Proof.
  unfold calculate_ore_xp. set (m := list_to_map _ : gmap string Z).
  destruct (m !! normalize_block_id block_type) as [v|] eqn:E; [|simpl; lia].
  subst m. apply elem_of_list_to_map_2 in E. simpl.
  repeat (apply elem_of_cons in E as [[= _ ->]|E]; [lia|]).
  by apply elem_of_nil in E.
Qed.

Lemma get_smelt_xp_value_nonneg block_id : (0 <= get_smelt_xp_value block_id)%Q.
Proof.
  unfold get_smelt_xp_value. set (m := list_to_map _ : gmap string Q).
  destruct (m !! normalize_block_id block_id) as [v|] eqn:E; [|done].
  subst m. apply elem_of_list_to_map_2 in E. simpl.
  repeat (apply elem_of_cons in E as [[= _ ->]|E]; [done|]).
  by apply elem_of_nil in E.
Qed.

Lemma get_fortune_drop_amount_pos block_id fortune_level g :
  1 ≤ (get_fortune_drop_amount block_id fortune_level g).1.
Proof.
  unfold get_fortune_drop_amount, Random.bind, Random.pure.
  destruct (base_drop_count _ g) as [b g1]. cbn [fst snd].
  destruct (_ || _); cbn [fst]; [lia|].
  destruct (randint (-1) fortune_level g1) as [r g2]. cbn [fst snd]. lia.
Qed.


Lemma sapling_is_no_stick key item chance :
  get_leaf_sapling_drop key = (Some item, chance) →
  item ≠ "minecraft:stick" ∧ item ≠ "".
Proof.
  unfold get_leaf_sapling_drop. set (m := list_to_map _ : gmap string (string * Q)).
  destruct (m !! normalize_block_id key) as [[i ch]|] eqn:E; [|done].
  intros [= <- <-]. subst m. apply elem_of_list_to_map_2 in E.
  repeat (apply elem_of_cons in E as [[= _ -> _]|E]; [done|]).
  by apply elem_of_nil in E.
Qed.

(** X13. What leaves drop. With silk touch or shears a leaf block drops
    itself, once. Otherwise it drops at most one sapling of its own kind and
    at most two sticks, and nothing else. Leaves give no experience. *)
Theorem leaves_drop_rule c block_type tool g :
  let short_id := normalize_block_id block_type in
  let key := normalize_block_id short_id in
  let cut := bool_decide (0 < get_enchantment_level tool "silk_touch")
             || bool_decide ("shears" ∈ get_tool_traits tool) in
  let r := (calculate_block_rewards c block_type tool g).1 in
  ends_with short_id "_leaves" = true →
  r.2 = 0%Q ∧
  (cut = true → r.1 = {[ "minecraft:" +:+ key := 1 ]}) ∧
  (cut = false →
   ∀ item n, r.1 !! item = Some n →
     (item = "minecraft:stick" ∧ 1 ≤ n ≤ 2)
     ∨ (n = 1 ∧ ∃ chance, get_leaf_sapling_drop key = (Some item, chance))).
Proof.
  cbn zeta. intros Hleaf.
  unfold calculate_block_rewards, Random.bind, Random.pure. rewrite Hleaf.
  set (short_id := normalize_block_id block_type) in *.
  destruct (calculate_leaf_rewards short_id tool g) as [d g0] eqn:E.
  cbn [fst snd]. split; [done|].
  unfold calculate_leaf_rewards, Random.bind, Random.pure in E.
  destruct (_ || _) eqn:Hcut.
  { injection E as <- _. split; [done|]. intros [=]. }
  split; [intros [=]|]. intros _ item n.
  assert (Hsticks : ∀ g', 1 ≤ (randint 1 2 g').1 ≤ 2).
  { intros g'. unfold randint, Random.bind, Random.draw, Random.pure. cbn.
    pose proof (Z.mod_pos_bound (Z.of_N (g' O)) (2 - 1 + 1)). lia. }
  destruct (get_leaf_sapling_drop (normalize_block_id short_id))
    as [[sapling|] chance] eqn:Hs.
  - destruct (sapling_is_no_stick _ _ _ Hs) as [Hns Hne].
    apply String.eqb_neq in Hne. rewrite Hne in E.
    destruct (random g) as [r1 g1]. cbn [fst snd] in E.
    destruct (random g1) as [r2 g2]. cbn [fst snd] in E.
    specialize (Hsticks g2).
    destruct (Q_lt r1 chance), (Q_lt r2 (2 # 100));
      try destruct (randint 1 2 g2) as [k g3]; cbn [fst snd] in *;
      injection E as <- _; unfold add_reward; intros Hl.
    + apply lookup_insert_Some in Hl as [[<- <-]|[? Hl]].
      * rewrite lookup_insert_ne by done. rewrite lookup_empty. simpl. left. split; [done|lia].
      * apply lookup_insert_Some in Hl as [[<- <-]|[? Hl]]; [|done].
        rewrite lookup_empty. right. split; [done|]. by eexists.
    + apply lookup_insert_Some in Hl as [[<- <-]|[? Hl]]; [|done].
      rewrite lookup_empty. right. split; [done|]. by eexists.
    + apply lookup_insert_Some in Hl as [[<- <-]|[? Hl]]; [|done].
      rewrite lookup_empty. simpl. left. split; [done|lia].
    + done.
  - destruct (random g) as [r2 g2]. cbn [fst snd] in E.
    specialize (Hsticks g2).
    destruct (Q_lt r2 (2 # 100));
      try destruct (randint 1 2 g2) as [k g3]; cbn [fst snd] in *;
      injection E as <- _; unfold add_reward; intros Hl; [|done].
    apply lookup_insert_Some in Hl as [[<- <-]|[? Hl]]; [|done].
    rewrite lookup_empty. simpl. left. split; [done|lia].
Qed.

Lemma leaves_drop_rule_witness :
  (calculate_block_rewards default_config "minecraft:oak_leaves"
     (Some fortune_pickaxe) (scripted [])).1.2 = 0%Q.
Proof.
  apply (leaves_drop_rule default_config "minecraft:oak_leaves"
           (Some fortune_pickaxe) (scripted [])).
  vm_compute. reflexivity.
Defined.

Lemma silk_touch_drops_block_witness :
  ∃ item,
    calculate_block_rewards default_config "minecraft:lit_redstone_ore"
      (Some silk_pickaxe) (scripted [])
    = ({[ item := 1 ]}, 0%Q, scripted [])
    ∧ item = "minecraft:redstone_ore".
Proof.
  apply (silk_touch_drops_block default_config
           "minecraft:lit_redstone_ore" (Some silk_pickaxe) (scripted []));
    vm_compute; reflexivity.
Defined.

End RewardsFacts.

Module DurabilityFacts.
Import Text Random Tools Rewards Durability Samples.

Lemma Q_le_spec x y : Q_le x y = true ↔ (x <= y)%Q.
Proof. unfold Q_le, Qle. apply Z.leb_le. Qed.



Lemma unbreaking_loop_bounds rolls chance applied g :
  applied ≤ (unbreaking_loop rolls chance applied g).1
          ≤ applied + Z.of_nat rolls.
Proof.
  revert applied g. induction rolls as [|n IH]; intros applied g.
  - simpl. lia.
  - cbn [unbreaking_loop]. unfold Random.bind.
    destruct (random g) as [r g1].
    destruct (Q_le r chance);
      match goal with |- _ ≤ (unbreaking_loop _ _ ?a ?g').1 ≤ _ =>
        specialize (IH a g') end; lia.
Qed.



End DurabilityFacts.

Module LoadingFacts.
Import Text Rewards Loading Neighbors.

Lemma at_least_ok low fallback raw : low ≤ fallback → low ≤ at_least low fallback raw.
Proof. unfold at_least. intros. case_bool_decide; lia. Qed.

Lemma at_least_keeps low fallback v : low ≤ v → at_least low fallback (Some v) = v.
Proof. unfold at_least. intros. simpl. by rewrite bool_decide_eq_false_2 by lia. Qed.


End LoadingFacts.

Module VeinBlocksFacts.
Import Text Tools VeinBlocks.

Lemma load_all : load_vein_blocks ∅ true true true = all_vein_blocks.
Proof. vm_compute. reflexivity. Qed.

Lemma enabled_blocks_sub configured names blocks b :
  b ∈ enabled_blocks configured names blocks → b ∈ blocks.
Proof. unfold enabled_blocks. case_match; [done|]. by intros ?%not_elem_of_nil. Qed.

Lemma load_vein_blocks_known configured ores logs leaves b :
  b ∈ load_vein_blocks configured ores logs leaves → b ∈ all_vein_blocks.
Proof.
  rewrite <-load_all. unfold load_vein_blocks.
  rewrite !elem_of_app. intros [Ho|[Hl|Hv]].
  - left. destruct ores; [|by apply not_elem_of_nil in Ho].
    revert Ho. rewrite !elem_of_app.
    intros [H|[H|[H|[H|H]]]].
    + left. apply list_elem_of_bind in H as ([cfg id] & H & Hin).
      apply enabled_blocks_sub in H. apply list_elem_of_bind.
      exists (cfg, id). split; [|done]. done.
    + right; left. by apply enabled_blocks_sub in H.
    + right; right; left. by apply enabled_blocks_sub in H.
    + right; right; right; left. by apply enabled_blocks_sub in H.
    + right; right; right; right. by apply enabled_blocks_sub in H.
  - right; left. destruct logs; [|by apply not_elem_of_nil in Hl].
    apply list_elem_of_bind in Hl as ([[cfg id] leg] & H & Hin).
    apply enabled_blocks_sub in H. apply list_elem_of_bind.
    exists (cfg, id, leg). split; [|done]. done.
  - right; right. destruct leaves; [|by apply not_elem_of_nil in Hv].
    apply list_elem_of_bind in Hv as ([[cfg id] leg] & H & Hin).
    apply enabled_blocks_sub in H. apply list_elem_of_bind.
    exists (cfg, id, leg). split; [|done]. done.
Qed.

(** X17. Whatever is configured, [load_vein_blocks] yields only blocks of the 44
    known ids, all of them when nothing is configured; and every block it
    yields asks for a tool, so the empty hand never fits it. *)
Theorem load_vein_blocks_need_tools configured ores logs leaves :
  load_vein_blocks ∅ true true true = all_vein_blocks
  ∧ ∀ b, b ∈ load_vein_blocks configured ores logs leaves →
      b ∈ all_vein_blocks
      ∧ required_tool_traits_for_block b ≠ None
      ∧ tool_fits b None = false.
Proof.
  split; [apply load_all|]. intros b Hb%load_vein_blocks_known.
  split; [done|]. revert b Hb. apply Forall_forall.
  unfold all_vein_blocks.
  repeat (apply Forall_cons; split; [by vm_compute|]). apply Forall_nil_2.
Qed.

End VeinBlocksFacts.

Module VersionFacts.
Import Version.

Lemma compare_parts_spec cur lat rounds i :
  compare_parts cur lat i rounds = true
  ↔ ∃ k, (i ≤ k < i + rounds)%nat ∧ part cur k < part lat k
         ∧ ∀ j, (i ≤ j < k)%nat → part cur j = part lat j.
Proof.
  revert i. induction rounds as [|n IH]; intros i; simpl.
  - split; [done|]. intros (k & ? & _). lia.
  - fold (part cur i). fold (part lat i). case_bool_decide as Hgt.
    + split; [intros _|done]. exists i.
      split; [lia|]. split; [lia|]. intros j ?. lia.
    + case_bool_decide as Hlt.
      * split; [done|]. intros (k & Hk & Hk1 & Hk2).
        destruct (decide (k = i)) as [->|]; [lia|].
        specialize (Hk2 i ltac:(lia)). lia.
      * rewrite IH. split.
        -- intros (k & Hk & Hk1 & Hk2). exists k.
           split; [lia|]. split; [done|].
           intros j Hj. destruct (decide (j = i)) as [->|]; [lia|].
           apply Hk2. lia.
        -- intros (k & Hk & Hk1 & Hk2).
           destruct (decide (k = i)) as [->|]; [lia|].
           exists k. split; [lia|]. split; [done|].
           intros j Hj. apply Hk2. lia.
Qed.

Lemma part_beyond v i : (length v ≤ i)%nat → part v i = 0.
Proof. intros. unfold part. by rewrite lookup_ge_None_2. Qed.

Lemma newer_iff_ahead parts current latest cur lat :
  parts current = Some cur → parts latest = Some lat →
  is_newer_version parts current latest = true ↔ ahead cur lat.
Proof.
  intros Hc Hl. unfold is_newer_version. rewrite Hc, Hl.
  rewrite compare_parts_spec. unfold ahead. split.
  - intros (k & _ & Hk & Hj). exists k. split; [done|]. intros j ?. apply Hj. lia.
  - intros (k & Hk & Hj). exists k.
    split; [|split; [done|intros j ?; apply Hj; lia]].
    split; [lia|]. simpl.
    destruct (decide (k < Nat.max (length cur) (length lat))%nat); [done|].
    rewrite !part_beyond in Hk by lia. lia.
Qed.

(** X18. For versions whose parts are numbers, [is_newer_version] says whether
    the latest one is ahead at the first differing part, missing parts
    counting as zero. It is a strict order: no version is newer than itself
    (nor than itself with zeros appended), never both ways, and transitive.
    A version that does not parse is never newer and never outdated. *)
Theorem is_newer_version_strict_order parts :
  (∀ a b va vb, parts a = Some va → parts b = Some vb →
     (is_newer_version parts a b = true ↔ ahead va vb)
     ∧ ((∀ i, part va i = part vb i) → is_newer_version parts a b = false)
     ∧ (is_newer_version parts a b = true → is_newer_version parts b a = false))
  ∧ (∀ a b c, is_newer_version parts a b = true →
              is_newer_version parts b c = true →
              is_newer_version parts a c = true)
  ∧ (∀ a b, parts a = None ∨ parts b = None →
            is_newer_version parts a b = false).
Proof.
  split_and!.
  - intros a b va vb Ha Hb. split_and!.
    + by apply newer_iff_ahead.
    + intros Heq. apply not_true_is_false.
      rewrite (newer_iff_ahead parts a b va vb) by done.
      intros (i & Hi & _). rewrite Heq in Hi. lia.
    + rewrite (newer_iff_ahead parts a b va vb) by done.
      intros (i & Hi & Hlow). apply not_true_is_false.
      rewrite (newer_iff_ahead parts b a vb va) by done.
      intros (k & Hk & Hklow).
      destruct (Nat.lt_trichotomy i k) as [?|[->|?]].
      * specialize (Hklow i ltac:(lia)). lia.
      * lia.
      * specialize (Hlow k ltac:(lia)). lia.
  - intros a b c Hab Hbc.
    destruct (parts a) as [va|] eqn:Ha;
      [|by unfold is_newer_version in Hab; rewrite Ha in Hab].
    destruct (parts b) as [vb|] eqn:Hb;
      [|by unfold is_newer_version in Hab; rewrite Ha, Hb in Hab].
    destruct (parts c) as [vc|] eqn:Hc;
      [|by unfold is_newer_version in Hbc; rewrite Hb, Hc in Hbc].
    rewrite (newer_iff_ahead parts a b va vb) in Hab by done.
    rewrite (newer_iff_ahead parts b c vb vc) in Hbc by done.
    rewrite (newer_iff_ahead parts a c va vc) by done.
    destruct Hab as (i & Hi & Hilow). destruct Hbc as (k & Hk & Hklow).
    destruct (Nat.lt_trichotomy i k) as [?|[->|?]].
    + exists i. split; [rewrite <-(Hklow i) by lia; done|].
      intros j ?. rewrite Hilow, Hklow by lia. done.
    + exists k. split; [lia|]. intros j ?. rewrite Hilow, Hklow by lia. done.
    + exists k. split; [rewrite (Hilow k) by lia; done|].
      intros j ?. rewrite Hilow, Hklow by lia. done.
  - intros a b [H|H]; unfold is_newer_version; rewrite H; [done|].
    by destruct (parts a).
Qed.

End VersionFacts.

Module HandlerFacts.
Import Text Tools Discovery Engine Handler Outcome.

Lemma post_bind {A B} (m : Act A) (k : A → Act B) s Q :
  post m s (λ r s', match r with
                    | Next a => post (k a) s' Q
                    | Return e => Q (Return e) s'
                    | Raise x => Q (Raise x) s'
                    end) →
  post (bind m k) s Q.
Proof. unfold post, bind. by destruct (m s) as [[a|e|x] s']. Qed.

Lemma post_mono {A} (m : Act A) s (Q Q' : Step A → Sys → Prop) :
  post m s Q → (∀ r s', Q r s' → Q' r s') → post m s Q'.
Proof. unfold post. auto. Qed.

Lemma post_pure {A} (a : A) s Q : Q (Next a) s → post (pure a) s Q.
Proof. done. Qed.

Lemma post_exit {A} e s (Q : Step A → Sys → Prop) :
  Q (Return e) s → post (exit e) s Q.
Proof. done. Qed.

Lemma post_on_plugin {A} (f : Plugin → A * Plugin) s Q :
  (∀ a p', f (plugin s) = (a, p') →
     Q (Next a) {| plugin := p'; host := host s |}) →
  post (on_plugin f) s Q.
Proof. unfold post, on_plugin. destruct (f (plugin s)) eqn:E; intros H; by apply H. Qed.

Lemma post_read_plugin s Q : Q (Next (plugin s)) s → post read_plugin s Q.
Proof. unfold post, read_plugin, on_plugin. by destruct s. Qed.

Lemma post_update_plugin f s Q :
  Q (Next tt) {| plugin := f (plugin s); host := host s |} →
  post (update_plugin f) s Q.
Proof. done. Qed.

Lemma post_read_host s Q : Q (Next (host s)) s → post read_host s Q.
Proof. done. Qed.

Lemma post_update_host f s Q :
  Q (Next tt) {| plugin := plugin s; host := f (host s) |} →
  post (update_host f) s Q.
Proof. done. Qed.

Lemma post_host_call env call s Q :
  Q (Raise "host") s → Q (Next tt) s → post (host_call env call) s Q.
Proof. unfold post, host_call. by destruct (raises env call). Qed.

Lemma post_send_message env key s Q :
  Q (Raise "host") s →
  Q (Next tt) {| plugin := plugin s; host := show (Notice key) (host s) |} →
  post (send_message env key) s Q.
Proof.
  intros. unfold send_message. apply post_bind, post_host_call; [done|].
  by apply post_update_host.
Qed.

Lemma post_try_except {A} (body : Act A) handler s Q :
  post body s (λ r s', match r with
                       | Raise x => post (handler x) s' Q
                       | other => Q other s'
                       end) →
  post (try_except body handler) s Q.
Proof. unfold post, try_except. by destruct (body s) as [[a|e|x] s']. Qed.

Lemma post_try_finally {A} (body : Act A) final s Q :
  post body s (λ r s', Q r {| plugin := final (plugin s'); host := host s' |}) →
  post (try_finally body final) s Q.
Proof. unfold post, try_finally. by destruct (body s). Qed.

Lemma post_run_processor process vein tool s Q :
  (∀ h x, process (host s) vein tool = (h, inl x) →
     Q (Raise x) {| plugin := plugin s; host := h |}) →
  (∀ h summary, process (host s) vein tool = (h, inr summary) →
     Q (Next summary) {| plugin := plugin s; host := h |}) →
  post (run_processor process vein tool) s Q.
Proof.
  unfold post, run_processor. destruct (process (host s) vein tool) as [h [x|r]];
    simpl; auto.
Qed.

Ltac wp_step :=
  lazymatch goal with
  | |- post (bind _ _) _ _ => apply post_bind
  | |- post (pure _) _ _ => apply post_pure
  | |- post (exit _) _ _ => apply post_exit
  | |- post (on_plugin _) _ _ => apply post_on_plugin; intros ? ? ?
  | |- post read_plugin _ _ => apply post_read_plugin
  | |- post (update_plugin _) _ _ => apply post_update_plugin
  | |- post read_host _ _ => apply post_read_host
  | |- post (update_host _) _ _ => apply post_update_host
  | |- post (host_call _ _) _ _ => apply post_host_call
  | |- post (send_message _ _) _ _ => apply post_send_message
  | |- post (try_except _ _) _ _ => apply post_try_except
  | |- post (try_finally _ _) _ _ => apply post_try_finally
  | |- post (run_processor _ _ _) _ _ =>
      apply post_run_processor; [intros ? ? ?|intros ? [? ?] ?]
  | |- post (if bool_decide _ then _ else _) _ _ => case_bool_decide
  | |- post (if ?b then _ else _) _ _ => destruct b eqn:?
  | |- post (let '(_, _) := ?x in _) _ _ => destruct x eqn:?
  end; cbn beta iota zeta; cbn [plugin host] in *.

Ltac wp := repeat wp_step.

(** The attributes the gate methods leave alone. *)
Lemma is_player_blocked_frame id t p a p' :
  is_player_blocked id t p = (a, p') →
  processing_vein p' = processing_vein p ∧
  disabled_players p' = disabled_players p ∧
  daily_vein_count p' = daily_vein_count p ∧
  daily_block_count p' = daily_block_count p ∧
  minute_vein_count p' = minute_vein_count p ∧
  last_vein_mine p' = last_vein_mine p ∧
  neighbor_offsets p' = neighbor_offsets p ∧
  tool_validation_cache p' = tool_validation_cache p ∧
  (a = false → ∀ u, blocked_players p !! id = Some u → u ≤ t).
Proof.
  unfold is_player_blocked. destruct (blocked_players p !! id) eqn:E;
    [case_bool_decide|]; intros [= <- <-]; split_and!; try done.
  by intros _ u [= <-].
Qed.

Lemma check_rate_limits_frame c id t p a p' :
  check_rate_limits c id t p = (a, p') →
  processing_vein p' = processing_vein p ∧
  disabled_players p' = disabled_players p ∧
  daily_vein_count p' = daily_vein_count p ∧
  daily_block_count p' = daily_block_count p ∧
  blocked_players p' = blocked_players p ∧
  last_vein_mine p' = last_vein_mine p ∧
  neighbor_offsets p' = neighbor_offsets p ∧
  tool_validation_cache p' = tool_validation_cache p ∧
  (a = true → 0 < max_veins_per_minute c →
   Z.of_nat (length (recent t (default [] (minute_vein_count p !! id))))
   < max_veins_per_minute c).
Proof.
  unfold check_rate_limits. repeat case_bool_decide; intros [= <- <-];
    split_and!; try done; lia.
Qed.

Lemma is_proper_tool_frame b t p a p' :
  is_proper_tool b t p = (a, p') →
  processing_vein p' = processing_vein p ∧
  disabled_players p' = disabled_players p ∧
  daily_vein_count p' = daily_vein_count p ∧
  daily_block_count p' = daily_block_count p ∧
  minute_vein_count p' = minute_vein_count p ∧
  blocked_players p' = blocked_players p ∧
  last_vein_mine p' = last_vein_mine p ∧
  neighbor_offsets p' = neighbor_offsets p.
Proof.
  unfold is_proper_tool. destruct (tool_validation_cache p !! _);
    by intros [= <- <-].
Qed.

Lemma record_vein_usage_processing c id n t p :
  processing_vein (record_vein_usage c id n t p) = processing_vein p.
Proof. unfold record_vein_usage. by destruct (enable_limits c). Qed.

Lemma record_vein_usage_last_mine c id n t p :
  last_vein_mine (record_vein_usage c id n t p) = last_vein_mine p.
Proof. unfold record_vein_usage. by destruct (enable_limits c). Qed.

Ltac frames :=
  repeat match goal with
  | H : is_player_blocked _ _ _ = _ |- _ =>
      apply is_player_blocked_frame in H; destruct_and? H
  | H : check_rate_limits _ _ _ _ = _ |- _ =>
      apply check_rate_limits_frame in H; destruct_and? H
  | H : is_proper_tool _ _ _ = _ |- _ =>
      apply is_proper_tool_frame in H; destruct_and? H
  end.

(** [admit_break] keeps the processing flags, and lets through only a
    player who holds none. *)
Lemma admit_break_processing c env player block s :
  post (admit_break c env player block) s (λ r s',
    processing_vein (plugin s') = processing_vein (plugin s) ∧
    (∀ a, r = Next a → unique_id player ∉ processing_vein (plugin s))).
Proof.
  unfold admit_break. cbn zeta. wp; frames; cbn.
  all: split; [congruence|]; try done.
  all: intros _ _; congruence.
Qed.

Lemma mine_processing c process env player block s :
  post (mine c process env player block) s (λ r s',
    processing_vein (plugin s') = processing_vein (plugin s)).
Proof.
  unfold mine, find_vein_cached. cbn zeta. wp; frames; cbn;
    rewrite ?record_vein_usage_processing; cbn; congruence.
Qed.

Lemma on_error_processing env id s :
  post (on_error env id) s (λ r s',
    processing_vein (plugin s') = processing_vein (plugin s)).
Proof. unfold on_error. cbn zeta. wp; done. Qed.

(** X19. Whatever the outcome of [on_block_break] (an early return, a mined
    vein, an exception that the handler catches or one that escapes it), the
    set of players marked as processing is the same afterwards as before:
    the flag the handler sets for the player is always taken off again, and
    a flag that was already set is left alone. *)
Theorem on_block_break_restores_processing_flags
    c process env event (s : Sys) :
  processing_vein (plugin (on_block_break c process env event s).2)
  = processing_vein (plugin s).
Proof.
  change (post (on_block_break c process env event) s
            (λ _ s', processing_vein (plugin s') = processing_vein (plugin s))).
  unfold on_block_break. wp; try done.
  destruct (event_player event) as [player|]; [|by wp].
  destruct (event_block event) as [block|]; [|by wp].
  wp. eapply post_mono; [apply admit_break_processing|].
  intros [[]|e|x] s1 [Hs1 Hfree]; cbn; try done.
  specialize (Hfree tt eq_refl).
  unfold guarded_mine. cbn zeta. wp.
  eapply post_mono; [apply mine_processing|].
  intros [a|e|x] s2 Hs2; cbn in *.
  1,2: rewrite Hs2, Hs1; set_solver.
  eapply post_mono; [apply on_error_processing|].
  intros r s3 Hs3; cbn in *. rewrite Hs3, Hs2, Hs1. set_solver.
Qed.

Lemma block_player_temporarily_quotas c id t p :
  same_quotas p (block_player_temporarily c id t p).
Proof. done. Qed.

Ltac same_done :=
  repeat match goal with H : _ ∧ _ |- _ => destruct H end;
  unfold same_game, same_quotas in *; cbn in *; split_and?;
  first [done | congruence | intuition congruence].

Lemma admit_break_same c env player block s :
  post (admit_break c env player block) s (λ r s',
    same_game (host s) (host s') ∧ same_quotas (plugin s) (plugin s') ∧
    last_vein_mine (plugin s') = last_vein_mine (plugin s) ∧
    match r with
    | Return ExitMined | Return ExitErrorHandled | Return ExitNotProcessed =>
      False
    | _ => True
    end).
Proof.
  unfold admit_break. cbn zeta. wp; frames; same_done.
Qed.

Lemma mine_same c process env player block s :
  post (mine c process env player block) s (λ r s',
    match r with
    | Return ExitMined | Raise _ => True
    | Return ExitErrorHandled => False
    | Return e =>
      same_game (host s) (host s') ∧ same_quotas (plugin s) (plugin s') ∧
      (e ≠ ExitNotProcessed →
       last_vein_mine (plugin s') = last_vein_mine (plugin s))
    | Next _ => False
    end).
Proof.
  unfold mine, find_vein_cached. cbn zeta. wp; frames; try done; same_done.
Qed.

(** X21. Unless the handler ends with a processed vein or in its [except]
    clause, the game is as it was: the blocks of the dimension, the player's
    hand, items and experience are untouched, the event is not cancelled,
    nothing is reported to the statistics, the daily counters and the
    toggles are unchanged; and unless the vein was only too large to be
    processed, no cooldown starts. Only messages are shown. *)
Theorem on_block_break_rejection_changes_nothing
    c process env event (s : Sys) (e : Exit) :
  (on_block_break c process env event s).1 = Return e →
  e ≠ ExitMined →
  e ≠ ExitErrorHandled →
  let s' := (on_block_break c process env event s).2 in
  same_game (host s) (host s') ∧
  same_quotas (plugin s) (plugin s') ∧
  (e ≠ ExitNotProcessed →
   last_vein_mine (plugin s') = last_vein_mine (plugin s)).
Proof.
  cbn zeta.
  change (post (on_block_break c process env event) s
            (λ r s', r = Return e → e ≠ ExitMined → e ≠ ExitErrorHandled →
               same_game (host s) (host s') ∧
               same_quotas (plugin s) (plugin s') ∧
               (e ≠ ExitNotProcessed →
                last_vein_mine (plugin s') = last_vein_mine (plugin s)))).
  unfold on_block_break. wp; [done|].
  destruct (event_player event) as [player|]; [|by wp].
  destruct (event_block event) as [block|]; [|by wp].
  wp. eapply post_mono; [apply admit_break_same|].
  intros [[]|e1|x] s1 (Hg1&Hq1&Hl1&Hr1); cbn; try done.
  unfold guarded_mine. cbn zeta. wp.
  eapply post_mono; [apply mine_same|].
  intros [a|e2|x] s2 Hs2; cbn in *; [done| |].
  - intros [= ->] ? ?. destruct e; try done; same_done.
  - unfold on_error. cbn zeta. wp; cbn; intros [= <-]; done.
Qed.

End HandlerFacts.

Module AdmissionFacts.
Import Samples Scenes.
Import Text Tools Discovery Engine Handler Outcome HandlerFacts.

#[local] Arguments find_vein : simpl never.
#[local] Arguments cached_neighbors : simpl never.
#[local] Arguments recent : simpl never.
#[local] Arguments check_daily_limits : simpl never.
#[local] Arguments activation_ok : simpl never.

Lemma check_daily_limits_reads c id n p q :
  daily_vein_count p = daily_vein_count q →
  daily_block_count p = daily_block_count q →
  check_daily_limits c id n p = check_daily_limits c id n q.
Proof. unfold check_daily_limits. by intros -> ->. Qed.

Lemma on_block_break_rejection_changes_nothing_witness :
  same_game iron_site
    (host (on_block_break default_config clear_all (calm 1000) iron_break
             (at_rest blocked_until_5000)).2).
Proof.
  apply (on_block_break_rejection_changes_nothing default_config clear_all
           (calm 1000) iron_break (at_rest blocked_until_5000) ExitBlocked).
  - vm_compute. reflexivity.
  - discriminate.
  - discriminate.
Defined.

End AdmissionFacts.

Module DropsFacts.
Import Text Drops.

Lemma first_tries_cons player cmd cmds :
  first_tries player (cmd :: cmds)
  = if bool_decide (is_give cmd = bool_decide (is_Some player))
    then cmd :: first_tries player cmds else first_tries player cmds.
Proof.
  unfold first_tries. rewrite filter_cons. destruct (decide _) as [E|E].
  - by rewrite (bool_decide_eq_true_2 _ E).
  - by rewrite (bool_decide_eq_false_2 _ E).
Qed.

Lemma stacks_needed r :
  64 < r → (r + 63) / 64 = (r - 64 + 63) / 64 + 1.
Proof.
  intros. replace (r + 63) with (r - 64 + 63 + 1 * 64) by lia.
  by rewrite Z.div_add.
Qed.

Lemma drop_loop_spec answers player x y z item rounds remaining asked :
  remaining ≤ Z.of_nat rounds →
  let cmds := drop_loop answers player x y z item rounds remaining asked in
  Forall (λ cmd, 1 ≤ stack_amount_of cmd ≤ 64) cmds ∧
  total (stack_amount_of <$> first_tries player cmds) = Z.max 0 remaining ∧
  Z.of_nat (length (first_tries player cmds)) = (Z.max 0 remaining + 63) / 64.
Proof.
  cbn zeta. revert remaining asked.
  induction rounds as [|rounds IH]; intros remaining asked Hle.
  { cbn. split_and!; [constructor|lia|].
    replace (0 `max` remaining) with 0 by lia. done. }
  cbn [drop_loop]. case_bool_decide as Hpos; cbn zeta.
  2:{ cbn. split_and!; [constructor|lia|].
      replace (0 `max` remaining) with 0 by lia. done. }
  set (stack := 64 `min` remaining).
  assert (1 ≤ stack ≤ 64) by lia.
  assert (Hstep : (0 `max` remaining + 63) / 64
                  = (0 `max` (remaining - stack) + 63) / 64 + 1).
  { destruct (decide (remaining ≤ 64)).
    - replace (0 `max` (remaining - stack)) with 0 by lia.
      replace (0 `max` remaining) with remaining by lia.
      change ((0 + 63) / 64) with 0.
      symmetry. apply Z.div_unique with (r := remaining - 1); lia.
    - replace (0 `max` (remaining - stack)) with (remaining - 64) by lia.
      replace (0 `max` remaining) with remaining by lia.
      apply stacks_needed. lia. }
  destruct player as [name|].
  - destruct (answers asked).
    + destruct (IH (remaining - stack) (S asked)) as (Hall&Hsum&Hlen); [lia|].
      rewrite first_tries_cons. cbn [is_give].
      rewrite (bool_decide_eq_true_2 (is_Some (Some name))) by eauto.
      rewrite bool_decide_eq_true_2 by done.
      cbn [fmap list_fmap total foldr length stack_amount_of].
      split_and!; [by constructor| |].
      * unfold total in Hsum. cbn in Hsum |- *. lia.
      * rewrite Nat2Z.inj_succ. lia.
    + destruct (IH (remaining - stack) (S (S asked))) as (Hall&Hsum&Hlen);
        [lia|].
      rewrite !first_tries_cons. cbn [is_give].
      rewrite (bool_decide_eq_true_2 (is_Some (Some name))) by eauto.
      rewrite bool_decide_eq_true_2 by done.
      rewrite bool_decide_eq_false_2 by done.
      cbn [fmap list_fmap total foldr length stack_amount_of].
      split_and!; [by do 2 (constructor; [done|])| |].
      * unfold total in Hsum. cbn in Hsum |- *. lia.
      * rewrite Nat2Z.inj_succ. lia.
  - destruct (IH (remaining - stack) (S asked)) as (Hall&Hsum&Hlen); [lia|].
    rewrite first_tries_cons. cbn [is_give].
    rewrite (bool_decide_eq_false_2 (is_Some None)) by (by intros [? ?]).
    rewrite bool_decide_eq_true_2 by done.
    cbn [fmap list_fmap total foldr length stack_amount_of].
    split_and!; [by constructor| |].
    + unfold total in Hsum. cbn in Hsum |- *. lia.
    + rewrite Nat2Z.inj_succ. lia.
Qed.

(** X24. [drop_item_stack] hands out exactly [amount] items in stacks of at
    most 64: every command it dispatches carries between 1 and 64 items,
    the commands tried first for each stack ([give] when there is a player,
    [summon] otherwise) carry [amount] items in all, and there are
    [ceil(amount / 64)] of them. For an amount of zero or less it
    dispatches nothing. *)
Theorem drop_item_stack_splits_into_stacks
    answers x y z item_id amount player :
  let cmds := drop_item_stack answers x y z item_id amount player in
  Forall (λ cmd, 1 ≤ stack_amount_of cmd ≤ 64) cmds ∧
  total (stack_amount_of <$> first_tries player cmds) = Z.max 0 amount ∧
  Z.of_nat (length (first_tries player cmds)) = (Z.max 0 amount + 63) / 64 ∧
  (amount ≤ 0 → cmds = []).
Proof.
  cbn zeta. unfold drop_item_stack. case_bool_decide.
  - split_and!; [constructor|cbn; lia| |done].
    replace (0 `max` amount) with 0 by lia. done.
  - pose proof (drop_loop_spec answers player x y z
                  (if starts_with item_id "minecraft:" then item_id
                   else "minecraft:" +:+ item_id)
                  (Z.to_nat amount) amount 0) as Hspec.
    cbn zeta in Hspec. destruct Hspec as (?&?&?); [lia|].
    split_and!; done.
Qed.

End DropsFacts.

Module StatsFacts.
Import Stats.

Lemma check_fold prev cur thresholds acc :
  let r := foldl (check_threshold prev cur) acc thresholds in
  ∃ new, r.2 = new ++ acc.2 ∧ r.1 = list_to_set new ∪ acc.1 ∧ NoDup new ∧
         ∀ x, x ∈ new → x ∈ thresholds ∧ (x ∉ acc.1) ∧ prev < x ≤ cur.
Proof.
  cbn zeta. revert acc. induction thresholds as [|th ths IH]; intros acc.
  { exists []. cbn. split_and!; [done|set_solver|constructor|set_solver]. }
  cbn [foldl].
  destruct (IH (check_threshold prev cur acc th)) as (new&H2&H1&Hnd&Hin).
  unfold check_threshold in *.
  destruct (bool_decide (prev < th) && bool_decide (th ≤ cur)) eqn:Hpass.
  - apply andb_true_iff in Hpass as [Hlo Hhi].
    apply bool_decide_eq_true_1 in Hlo, Hhi.
    case_bool_decide as Hknown.
    + exists new. split_and!; try done. intros x Hx.
      destruct (Hin x Hx) as (?&?&?). set_solver.
    + cbn in *. exists (new ++ [th]). split_and!.
      * by rewrite <- app_assoc.
      * rewrite H1. set_solver.
      * apply NoDup_app. split_and!; [done| |apply NoDup_singleton].
        intros x Hx. destruct (Hin x Hx) as (?&?&?). set_solver.
      * intros x [Hx| ->%list_elem_of_singleton]%elem_of_app.
        -- destruct (Hin x Hx) as (?&?&?). set_solver.
        -- split_and!; [set_solver|done|lia|lia].
  - exists new. split_and!; try done. intros x Hx.
    destruct (Hin x Hx) as (?&?&?). set_solver.
Qed.

Lemma check_milestones_spec uuid prev cur t :
  let r := check_milestones uuid prev cur t in
  NoDup r.2 ∧
  (∀ x, x ∈ r.2 → x ∈ milestone_thresholds t ∧
                  x ∉ default ∅ (achieved_milestones t !! uuid)) ∧
  achieved_milestones r.1 !! uuid
  = Some (list_to_set r.2 ∪ default ∅ (achieved_milestones t !! uuid)) ∧
  milestone_thresholds r.1 = milestone_thresholds t ∧
  enabled r.1 = enabled t ∧
  milestones_enabled r.1 = milestones_enabled t ∧
  persistence_enabled r.1 = persistence_enabled t ∧
  player_stats r.1 = player_stats t.
Proof.
  cbn zeta. unfold check_milestones.
  destruct (check_fold prev cur (milestone_thresholds t)
              (default ∅ (achieved_milestones t !! uuid), []))
    as (new&H2&H1&Hnd&Hin).
  destruct (foldl _ _ _) as [achieved announced]. cbn in *.
  rewrite app_nil_r in H2. subst.
  split_and!; try done.
  - by rewrite reverse_Permutation.
  - intros x Hx. rewrite elem_of_reverse in Hx.
    destruct (Hin x Hx) as (?&?&?). done.
  - rewrite lookup_insert_eq. f_equal. set_solver.
Qed.

Lemma ensure_milestones_loaded_fields stored uuid t :
  let t' := ensure_milestones_loaded stored uuid t in
  milestone_thresholds t' = milestone_thresholds t ∧
  enabled t' = enabled t ∧
  milestones_enabled t' = milestones_enabled t ∧
  persistence_enabled t' = persistence_enabled t ∧
  player_stats t' = player_stats t.
Proof.
  cbn zeta. unfold ensure_milestones_loaded.
  destruct (achieved_milestones t !! uuid); [done|].
  destruct (negb (persistence_enabled t)); [done|].
  by destruct (stored uuid).
Qed.

Lemma ensure_milestones_loaded_idemp stored uuid t :
  ensure_milestones_loaded stored uuid (ensure_milestones_loaded stored uuid t)
  = ensure_milestones_loaded stored uuid t.
Proof.
  unfold ensure_milestones_loaded.
  destruct (achieved_milestones t !! uuid) eqn:E; [by rewrite E|].
  destruct (negb (persistence_enabled t)) eqn:Ep; [by rewrite E, Ep|].
  destruct (stored uuid) eqn:Es; cbn.
  - by rewrite lookup_insert_eq.
  - by rewrite E, Ep.
Qed.

Lemma known_milestones_set_stats stored uuid v t :
  known_milestones stored uuid (set_stats v t) = known_milestones stored uuid t.
Proof.
  unfold known_milestones, ensure_milestones_loaded. cbn.
  destruct (achieved_milestones t !! uuid); [done|].
  destruct (negb (persistence_enabled t)); [done|].
  by destruct (stored uuid).
Qed.

Lemma known_milestones_loaded stored uuid t :
  known_milestones stored uuid (ensure_milestones_loaded stored uuid t)
  = known_milestones stored uuid t.
Proof. unfold known_milestones. by rewrite ensure_milestones_loaded_idemp. Qed.

Lemma known_milestones_set stored uuid t known :
  achieved_milestones t !! uuid = Some known →
  known_milestones stored uuid t = known.
Proof.
  intros E. unfold known_milestones, ensure_milestones_loaded.
  rewrite E. cbn. by rewrite E.
Qed.

Lemma known_milestones_memory stored uuid t :
  default ∅ (achieved_milestones t !! uuid) ⊆ known_milestones stored uuid t.
Proof.
  unfold known_milestones, ensure_milestones_loaded.
  destruct (achieved_milestones t !! uuid) eqn:E; [by rewrite E|].
  cbn. set_solver.
Qed.

Lemma record_vein_mine_milestones stored uuid name n now t :
  let r := record_vein_mine stored uuid name n now t in
  NoDup r.2 ∧
  (∀ x, x ∈ r.2 → x ∈ milestone_thresholds t ∧
                  x ∉ known_milestones stored uuid t) ∧
  known_milestones stored uuid r.1
  = list_to_set r.2 ∪ known_milestones stored uuid t ∧
  milestone_thresholds r.1 = milestone_thresholds t.
Proof.
  cbn zeta. unfold record_vein_mine.
  destruct (enabled t); cbn [negb].
  2:{ cbn. split_and!; [constructor|set_solver|set_solver|done]. }
  cbn zeta.
  pose proof (ensure_milestones_loaded_fields stored uuid t) as Hf.
  cbn zeta in Hf. destruct Hf as (Hth&_&Hme&_&Hps).
  set (t0 := ensure_milestones_loaded stored uuid t) in *.
  set (t1 := set_stats _ t0).
  change (milestones_enabled t1) with (milestones_enabled t0).
  destruct (milestones_enabled t0).
  - match goal with |- context [check_milestones uuid ?a ?b t1] =>
      pose proof (check_milestones_spec uuid a b t1) as Hc;
      destruct (check_milestones uuid a b t1) as [t2 anns]
    end.
    cbn in Hc |- *. destruct Hc as (Hnd&Hin&Hach&Hth2&_).
    fold (known_milestones stored uuid t) in Hin, Hach.
    split_and!; [done| |by apply known_milestones_set|congruence].
    intros x Hx. destruct (Hin x Hx). split; [congruence|done].
  - cbn. split_and!; [constructor|set_solver| |done].
    unfold t1, t0. rewrite known_milestones_set_stats,
      known_milestones_loaded. set_solver.
Qed.


Lemma record_vein_mine_stats stored uuid name n now t :
  enabled t = true →
  let t' := (record_vein_mine stored uuid name n now t).1 in
  let before := get_stats uuid name t in
  enabled t' = true ∧
  player_stats t' !! uuid
  = Some {| player_name := name;
            total_veins := total_veins before + 1;
            total_blocks := total_blocks before + n;
            largest_vein := Z.max (largest_vein before) n;
            last_mined := now |} ∧
  ∀ other, other ≠ uuid → player_stats t' !! other = player_stats t !! other.
Proof.
  intros Hen. cbn zeta. unfold record_vein_mine, get_stats. rewrite Hen.
  cbn [negb]. cbn zeta.
  pose proof (ensure_milestones_loaded_fields stored uuid t) as Hf.
  cbn zeta in Hf. destruct Hf as (_&Hen0&_&_&Hps).
  set (t0 := ensure_milestones_loaded stored uuid t) in *.
  set (stats := default (new_stats name) (player_stats t !! uuid)).
  assert (Hl : (if bool_decide (largest_vein stats < n) then n
                else largest_vein stats)
               = Z.max (largest_vein stats) n).
  { case_bool_decide; lia. }
  rewrite Hl. set (t1 := set_stats _ t0).
  assert (enabled t1 = true ∧
          player_stats t1 = <[uuid := {| player_name := name;
            total_veins := total_veins stats + 1;
            total_blocks := total_blocks stats + n;
            largest_vein := Z.max (largest_vein stats) n;
            last_mined := now |}]> (player_stats t)) as [Hen1 Hps1].
  { unfold t1. cbn. split; congruence. }
  destruct (milestones_enabled t1).
  - match goal with |- context [check_milestones uuid ?a ?b t1] =>
      pose proof (check_milestones_spec uuid a b t1) as Hc;
      destruct (check_milestones uuid a b t1) as [t2 anns]
    end.
    cbn [fst snd] in Hc |- *. destruct Hc as (_&_&_&_&Hen2&_&_&Hps2).
    rewrite Hps2, Hps1, Hen2, Hen1, lookup_insert_eq.
    split_and!; [done|done|]. intros other Hne. by rewrite lookup_insert_ne.
  - cbn [fst snd]. rewrite Hps1, Hen1, lookup_insert_eq.
    split_and!; [done|done|]. intros other Hne. by rewrite lookup_insert_ne.
Qed.

(** X26. While the tracker is enabled, a run of recordings for a player adds
    one vein for each recording and the sum of the block counts to the
    player's totals, makes the largest vein the largest block count ever
    recorded, and changes the statistics of no other player. If the block
    counts are not negative and the largest vein was within the total
    before, it is within the total afterwards. *)
Theorem recordings_add_up stored uuid name events (t : Tracker) :
  enabled t = true →
  let before := get_stats uuid name t in
  let t' := (record_all stored uuid name events t).1 in
  let after := get_stats uuid name t' in
  total_veins after = total_veins before + Z.of_nat (length events) ∧
  total_blocks after = total_blocks before + blocks_in events ∧
  largest_vein after = largest_in (largest_vein before) events ∧
  (∀ other, other ≠ uuid → player_stats t' !! other = player_stats t !! other) ∧
  (Forall (λ e, 0 ≤ e.1) events →
   0 ≤ largest_vein before ≤ total_blocks before →
   0 ≤ largest_vein after ≤ total_blocks after).
Proof.
  cbn zeta. revert t. induction events as [|[n now] events IH]; intros t Hen.
  { cbn. split_and!; try done; lia. }
  cbn [record_all].
  pose proof (record_vein_mine_stats stored uuid name n now t Hen) as Hr.
  cbn zeta in Hr.
  destruct (record_vein_mine stored uuid name n now t) as [t1 first].
  cbn in Hr. destruct Hr as (Hen1&Hs1&Ho1).
  specialize (IH t1 Hen1).
  destruct (record_all stored uuid name events t1) as [t2 rest].
  cbn [fst] in IH |- *. destruct IH as (Hv&Hb&Hl&Ho&Hinv).
  unfold get_stats in Hv, Hb, Hl, Hinv. rewrite Hs1 in Hv, Hb, Hl, Hinv.
  cbn in Hv, Hb, Hl, Hinv.
  fold (get_stats uuid name t2) in Hv, Hb, Hl, Hinv.
  fold (get_stats uuid name t) in Hv, Hb, Hl, Hinv.
  split_and!.
  - rewrite Hv. cbn [length]. lia.
  - rewrite Hb. unfold blocks_in. cbn [foldr fst]. lia.
  - by rewrite Hl.
  - intros other Hne. by rewrite Ho, Ho1.
  - intros Hpos Hin. inversion Hpos as [|? ? Hn Hrest]; subst. cbn in Hn.
    apply Hinv; [done|lia].
Qed.

Lemma recordings_add_up_witness :
  total_blocks (get_stats "steve" "Steve"
                  (record_all (λ _, None) "steve" "Steve"
                     [(3, "day 1"); (5, "day 2")] plain_tracker).1)
  = 8.
Proof.
  destruct (recordings_add_up (λ _, None) "steve" "Steve"
              [(3, "day 1"); (5, "day 2")] plain_tracker eq_refl)
    as (_&Hb&_).
  exact Hb.
Defined.

End StatsFacts.

Module MaintenanceFacts.
Import Engine Maintenance.

Lemma fresh_entries_lookup now m id :
  fresh_entries now m !! id
  = match m !! id with
    | Some t => if bool_decide (now - t > 300000) then None else Some t
    | None => None
    end.
Proof.
  unfold fresh_entries. destruct (m !! id) as [t|] eqn:E.
  - case_bool_decide.
    + apply map_lookup_filter_None. right. intros t' E'. cbn. simplify_eq. lia.
    + apply map_lookup_filter_Some. split; [done|]. cbn. lia.
  - apply map_lookup_filter_None. by left.
Qed.

(** X27. The periodic cache cleanup does not change how the handler treats
    anyone, as long as the cooldown is at most the five minutes the cleanup
    keeps: at the time of the cleanup and at any later time, a player is on
    cooldown after it exactly if the player was without it, and so it is
    with the throttles of the error notice (5 s) and of the cooldown notice
    (1 s). The blocks, the quotas, the rate windows and the toggles are
    left as they are. *)
Theorem cleanup_cache_is_transparent c (p : Plugin) (now later : Z) id :
  cooldown_ms c ≤ 300000 →
  300000 ≤ now ≤ later →
  let p' := cleanup_cache now p in
  on_cooldown c id later p' = on_cooldown c id later p ∧
  bool_decide (5000 < later - default 0 (last_error_message p' !! id))
  = bool_decide (5000 < later - default 0 (last_error_message p !! id)) ∧
  bool_decide (1000 < later - default 0 (last_cooldown_message p' !! id))
  = bool_decide (1000 < later - default 0 (last_cooldown_message p !! id)) ∧
  blocked_players p' = blocked_players p ∧
  daily_vein_count p' = daily_vein_count p ∧
  daily_block_count p' = daily_block_count p ∧
  minute_vein_count p' = minute_vein_count p ∧
  disabled_players p' = disabled_players p ∧
  processing_vein p' = processing_vein p.
Proof.
  intros Hc Ht. cbn zeta. unfold on_cooldown, cleanup_cache. cbn.
  rewrite !fresh_entries_lookup.
  split_and!; try done.
  - destruct (last_vein_mine p !! id) as [t|]; [|done].
    destruct (bool_decide (now - t > 300000)) eqn:E; [|done].
    apply bool_decide_eq_true_1 in E. cbn.
    rewrite !bool_decide_eq_false_2 by lia. done.
  - destruct (last_error_message p !! id) as [t|]; [|done].
    destruct (bool_decide (now - t > 300000)) eqn:E; [|done].
    apply bool_decide_eq_true_1 in E. cbn.
    rewrite !bool_decide_eq_true_2 by lia. done.
  - destruct (last_cooldown_message p !! id) as [t|]; [|done].
    destruct (bool_decide (now - t > 300000)) eqn:E; [|done].
    apply bool_decide_eq_true_1 in E. cbn.
    rewrite !bool_decide_eq_true_2 by lia. done.
Qed.

Lemma cleanup_cache_is_transparent_witness :
  on_cooldown default_config "steve" 2000000
    (cleanup_cache 1000000
       (set_last_vein_mine {[ "steve" := 1000 ]} fresh_plugin))
  = false.
Proof.
  destruct (cleanup_cache_is_transparent default_config
              (set_last_vein_mine {[ "steve" := 1000 ]} fresh_plugin)
              1000000 2000000 "steve") as [-> _]; [cbn; lia|lia|].
  vm_compute. reflexivity.
Defined.

(** A reload of the configuration forgets the cooldowns, the processing
    flags and the caches, but lifts no penalty and resets no quota: the
    temporary blocks, the daily counters, the rate windows and the toggles
    of the players are as before, so the gate methods answer as before. *)
Lemma reload_keeps_penalties c (p : Plugin) id (now n : Z) :
  let p' := reload_configuration p in
  (is_player_blocked id now p').1 = (is_player_blocked id now p).1 ∧
  (check_rate_limits c id now p').1 = (check_rate_limits c id now p).1 ∧
  check_daily_limits c id n p' = check_daily_limits c id n p ∧
  disabled_players p' = disabled_players p ∧
  last_vein_mine p' = ∅ ∧ processing_vein p' = ∅ ∧
  tool_validation_cache p' = ∅ ∧ neighbor_offsets p' = None.
Proof.
  cbn zeta. split_and!; try done.
  - unfold is_player_blocked. cbn.
    destruct (blocked_players p !! id); [|done]. by case_bool_decide.
  - unfold check_rate_limits. cbn. by repeat case_bool_decide.
Qed.

End MaintenanceFacts.

Module CommandFacts.
Import Text Discovery Engine Handler Outcome Maintenance Command Samples
  Scenes HandlerFacts.

(** Evaluate the tests on a subcommand that is known. *)
Ltac dispatch :=
  repeat match goal with
  | |- context [bool_decide (?s ∈ ?l)] =>
    match type of l with
    | list string =>
      let b := eval vm_compute in (bool_decide (s ∈ l)) in
      change (bool_decide (s ∈ l)) with b
    end
  end;
  cbv beta iota.

Ltac command_cases :=
  unfold handle_command, as_player;
  repeat first
    [ progress cbn [fst snd sender_id sender_permission negb]
    | case_bool_decide
    | match goal with
      | |- context [match ?x with _ => _ end] => destruct x eqn:?
      end ].

(** X28. No command changes the switch of anyone but its sender, and none
    touches the temporary blocks, the daily counters or the rate windows:
    whatever the arguments and whoever sends it, the players other than
    the sender are switched off afterwards exactly if they were before. *)
Theorem handle_command_leaves_others_alone
    fresh sender args (st : Config * Plugin) other :
  sender_id sender ≠ Some other →
  let st' := (handle_command fresh sender args st).1 in
  (other ∈ disabled_players st'.2 ↔ other ∈ disabled_players st.2) ∧
  blocked_players st'.2 = blocked_players st.2 ∧
  daily_vein_count st'.2 = daily_vein_count st.2 ∧
  daily_block_count st'.2 = daily_block_count st.2 ∧
  minute_vein_count st'.2 = minute_vein_count st.2.
Proof.
  intros Hother. cbn zeta. destruct st as [c p].
  command_cases; cbn; split_and!; try done; set_solver.
Qed.

Lemma handle_command_leaves_others_alone_witness :
  "alex" ∈ disabled_players
             (handle_command default_config (operator "steve") ["toggle"]
                (default_config,
                 set_disabled_players {[ "alex" ]} fresh_plugin)).1.2.
Proof.
  apply (handle_command_leaves_others_alone default_config (operator "steve")
           ["toggle"]
           (default_config, set_disabled_players {[ "alex" ]} fresh_plugin)
           "alex"); [done|].
  cbn. set_solver.
Defined.

(** X29. For a player who holds the permissions, [on] leaves the player
    switched on, [off] leaves the player switched off, [toggle] inverts the
    switch, and two toggles in a row restore the set of switched-off
    players. The subcommand is matched without regard to case. *)
Theorem toggle_commands_set_own_switch
    fresh sender uuid (st : Config * Plugin) (on off toggle : string) :
  sender_id sender = Some uuid →
  sender_permission sender "veinminer.command" = true →
  sender_permission sender "veinminer.toggle" = true →
  lower on ∈ ["on"; "enable"] →
  lower off ∈ ["off"; "disable"] →
  lower toggle ∈ ["toggle"; "t"] →
  let switched_off arg st :=
    disabled_players (handle_command fresh sender [arg] st).1.2 in
  (uuid ∉ switched_off on st) ∧
  (uuid ∈ switched_off off st) ∧
  (uuid ∈ switched_off toggle st ↔ uuid ∉ disabled_players st.2) ∧
  switched_off toggle (handle_command fresh sender [toggle] st).1
  = disabled_players st.2.
Proof.
  intros Hid Hcmd Htoggle Hon Hoff Htog. cbn zeta. destruct st as [c p].
  unfold handle_command, as_player. rewrite Hid, Hcmd, Htoggle. cbn [negb].
  cbn [fst snd].
  assert (Hon' : lower on = "on" ∨ lower on = "enable") by set_solver.
  assert (Hoff' : lower off = "off" ∨ lower off = "disable") by set_solver.
  assert (Htog' : lower toggle = "toggle" ∨ lower toggle = "t") by set_solver.
  split_and!.
  - destruct Hon' as [-> | ->]; dispatch; case_bool_decide; cbn; set_solver.
  - destruct Hoff' as [-> | ->]; dispatch; case_bool_decide; cbn; set_solver.
  - destruct Htog' as [-> | ->]; dispatch; case_bool_decide; cbn; set_solver.
  - destruct Htog' as [-> | ->]; dispatch;
      destruct (decide (uuid ∈ disabled_players p)) as [Hin|Hin];
      [rewrite (bool_decide_eq_true_2 _ Hin)
      |rewrite (bool_decide_eq_false_2 _ Hin)
      |rewrite (bool_decide_eq_true_2 _ Hin)
      |rewrite (bool_decide_eq_false_2 _ Hin)];
      cbn; case_bool_decide; cbn;
      apply set_eq; intros x; destruct (decide (x = uuid)); set_solver.
Qed.

Lemma toggle_commands_set_own_switch_witness :
  "steve" ∈ disabled_players
              (handle_command default_config (operator "steve") ["OFF"]
                 (default_config, fresh_plugin)).1.2.
Proof.
  apply (toggle_commands_set_own_switch default_config (operator "steve")
           "steve" (default_config, fresh_plugin) "On" "OFF" "Toggle");
    try done; vm_compute; set_solver.
Defined.


Lemma admit_break_switched_off c env player block s :
  unique_id player ∈ disabled_players (plugin s) →
  post (admit_break c env player block) s (λ r s',
    r ∈ [Return ExitBlocked; Return ExitNoPermission; Return ExitToggledOff]
    ∧ host s' = host s).
Proof.
  intros Hoff. unfold admit_break. cbn zeta. wp; frames.
  all: try (exfalso; congruence).
  all: split; [set_solver|done].
Qed.

(** X30. The handler does nothing for a player who has switched vein mining
    off: whatever block the player breaks, the handler ends before any
    rate, cooldown or vein check, shows nothing, and leaves the game as it
    was. *)
Theorem switched_off_player_is_left_alone
    c process env player block (s : Sys) :
  unique_id player ∈ disabled_players (plugin s) →
  let event := {| event_player := Some player; event_block := Some block |} in
  let outcome := on_block_break c process env event s in
  outcome.1 ∈ [Return ExitCancelled; Return ExitBlocked;
               Return ExitNoPermission; Return ExitToggledOff] ∧
  host outcome.2 = host s.
Proof.
  intros Hoff. cbn zeta.
  change (post (on_block_break c process env
                  {| event_player := Some player; event_block := Some block |}) s
            (λ r s', r ∈ [Return ExitCancelled; Return ExitBlocked;
                           Return ExitNoPermission; Return ExitToggledOff] ∧
                     host s' = host s)).
  unfold on_block_break. cbn [event_player event_block].
  wp_step. wp_step. wp_step.
  { wp_step. split; [set_solver|done]. }
  wp_step. eapply post_mono; [apply (admit_break_switched_off _ _ _ _ _ Hoff)|].
  intros [[]|e|x] s1 [Hr Hh]; cbn.
  - exfalso. set_solver.
  - split; [set_solver|done].
  - exfalso. set_solver.
Qed.

Lemma switched_off_player_is_left_alone_witness :
  (on_block_break default_config clear_all (calm 100000) iron_break
     (at_rest (handle_command default_config (operator "steve") ["off"]
                 (default_config, fresh_plugin)).1.2)).1
  = Return ExitToggledOff.
Proof.
  destruct (switched_off_player_is_left_alone default_config clear_all
              (calm 100000) steve iron_start
              (at_rest (handle_command default_config (operator "steve")
                          ["off"] (default_config, fresh_plugin)).1.2))
    as [_ _]; [vm_compute; set_solver|].
  vm_compute. reflexivity.
Defined.

End CommandFacts.
